(** * Pulse storage engine: a shallow embedding and its properties

The development follows the Go sources of the repository:
- [internal/models]   (record types, section titles and keys),
- [internal/storage]  (journal and social markdown stores),
Go strings are byte sequences and are modelled by [string]; maps with
string keys are [gmap string string]. *)

From Stdlib Require Import ZArith Lia Ascii String List.
From stdpp Require Import gmap strings list sorting.

Open Scope string_scope.
Open Scope Z_scope.

(** ** The parts of Go's [strings] package used by the stores *)

Module GoStrings.

Definition byteOf (c : ascii) : N := N_of_ascii c.

(** [strings.HasPrefix] and [strings.HasSuffix]. *)
Fixpoint HasPrefix (s p : string) {struct p} : bool :=
  match p, s with
  | EmptyString, _ => true
  | String a p', String b s' => if Ascii.eqb a b then HasPrefix s' p' else false
  | String _ _, EmptyString => false
  end.

Definition rev (s : string) : string := String.rev s.

Definition HasSuffix (s suf : string) : bool := HasPrefix (rev s) (rev suf).

(** [strings.TrimPrefix]: drops the prefix when it is there. *)
Definition TrimPrefix (s p : string) : string :=
  if HasPrefix s p then String.substring (String.length p) (String.length s - String.length p) s
  else s.

Definition TrimSuffix (s suf : string) : string :=
  if HasSuffix s suf then String.substring 0 (String.length s - String.length suf) s
  else s.

(** [strings.Split] by a one-byte separator: the pieces between the
    separators, empty pieces included; the result is never empty. *)
Fixpoint Split (sep : ascii) (s : string) : list string :=
  match s with
  | EmptyString => [EmptyString]
  | String c s' =>
      if Ascii.eqb c sep then EmptyString :: Split sep s'
      else match Split sep s' with
           | h :: t => String c h :: t
           | [] => [String c EmptyString]
           end
  end.

(** [strings.Join]. *)
Definition Join (parts : list string) (sep : string) : string :=
  String.concat sep parts.

(** Width in bytes of the white-space code point (Go's [unicode.IsSpace])
    whose UTF-8 encoding starts the string; [0] when there is none. *)
Definition isAsciiSpace (c : ascii) : bool :=
  let n := byteOf c in ((9 <=? n) && (n <=? 13) || (n =? 32))%N.

Definition isSpace2 (c1 c2 : ascii) : bool :=
  (* U+0085 and U+00A0 *)
  ((byteOf c2 =? 133) || (byteOf c2 =? 160))%N && (byteOf c1 =? 194)%N.

Definition isSpace3 (c1 c2 c3 : ascii) : bool :=
  let a := byteOf c1 in let b := byteOf c2 in let c := byteOf c3 in
  (128 <=? c)%N &&
  (  (* U+1680 *) ((a =? 225) && (b =? 154) && (c =? 128))%N
  || (* U+2000 .. U+200A, U+2028, U+2029, U+202F *)
     ((a =? 226) && (b =? 128) && ((c <=? 138) || (c =? 168) || (c =? 169) || (c =? 175)))%N
  || (* U+205F *) ((a =? 226) && (b =? 129) && (c =? 159))%N
  || (* U+3000 *) ((a =? 227) && (b =? 128) && (c =? 128))%N).

Definition spaceWidth (s : string) : nat :=
  match s with
  | EmptyString => 0%nat
  | String c1 r1 =>
      if isAsciiSpace c1 then 1%nat
      else match r1 with
           | EmptyString => 0%nat
           | String c2 r2 =>
               if isSpace2 c1 c2 then 2%nat
               else match r2 with
                    | EmptyString => 0%nat
                    | String c3 _ => if isSpace3 c1 c2 c3 then 3%nat else 0%nat
                    end
           end
  end.

(** The same test read from the end of the string: the argument is the
    reversed string. *)
Definition spaceWidthRev (s : string) : nat :=
  match s with
  | EmptyString => 0%nat
  | String c1 r1 =>
      if isAsciiSpace c1 then 1%nat
      else match r1 with
           | EmptyString => 0%nat
           | String c2 r2 =>
               if isSpace2 c2 c1 then 2%nat
               else match r2 with
                    | EmptyString => 0%nat
                    | String c3 _ => if isSpace3 c3 c2 c1 then 3%nat else 0%nat
                    end
           end
  end.

(** Drops leading white space; [skip] counts the bytes of the current
    code point that remain to be dropped. *)
Fixpoint dropSpaces (width : string -> nat) (skip : nat) (s : string) : string :=
  match s with
  | EmptyString => EmptyString
  | String _ r =>
      match skip with
      | S k => dropSpaces width k r
      | O => match width s with
             | S k => dropSpaces width k r
             | O => s
             end
      end
  end.

Definition TrimLeftSpace (s : string) : string := dropSpaces spaceWidth 0 s.
Definition TrimRightSpace (s : string) : string :=
  rev (dropSpaces spaceWidthRev 0 (rev s)).

(** [strings.TrimSpace]. *)
Definition TrimSpace (s : string) : string := TrimRightSpace (TrimLeftSpace s).

(** [strings.Fields]: the maximal runs of non-space bytes.  [cur] is the
    field being read, reversed. *)
Fixpoint fieldsFrom (skip : nat) (cur : string) (s : string) : list string :=
  let flush (k : list string) :=
    match cur with EmptyString => k | _ => rev cur :: k end in
  match s with
  | EmptyString => flush []
  | String c r =>
      match skip with
      | S k => fieldsFrom k cur r
      | O => match spaceWidth s with
             | S k => flush (fieldsFrom k EmptyString r)
             | O => fieldsFrom 0 (String c cur) r
             end
      end
  end.

Definition Fields (s : string) : list string := fieldsFrom 0 EmptyString s.

(** [strings.ToLower] and [strings.ToUpper] on the ASCII letters.  Go also
    maps the letters beyond ASCII; the stores apply these functions to
    section names and headings only. *)
Definition lowerByte (c : ascii) : ascii :=
  let n := byteOf c in
  if ((65 <=? n) && (n <=? 90))%N then ascii_of_N (n + 32) else c.

Definition upperByte (c : ascii) : ascii :=
  let n := byteOf c in
  if ((97 <=? n) && (n <=? 122))%N then ascii_of_N (n - 32) else c.

Fixpoint mapBytes (f : ascii -> ascii) (s : string) : string :=
  match s with
  | EmptyString => EmptyString
  | String c r => String (f c) (mapBytes f r)
  end.

Definition ToLower : string -> string := mapBytes lowerByte.
Definition ToUpper : string -> string := mapBytes upperByte.

End GoStrings.

Import GoStrings.

Definition nl : ascii := ascii_of_nat 10.
Definition NL : string := String nl EmptyString.

(** ** internal/models *)

Module models.

(** [ValidSections]: the allowed journal section names, in their
    canonical order. *)
Definition ValidSections : list string :=
  ["feelings"; "project_notes"; "user_context"; "technical_insights"; "world_knowledge"].

Definition IsValidSection (name : string) : bool :=
  existsb (String.eqb name) ValidSections.

(** [SectionTitle]: snake_case to Title Case. *)
Definition capitalize (part : string) : string :=
  match part with
  | EmptyString => EmptyString
  | String c r => ToUpper (String c EmptyString) +:+ r
  end.

Definition SectionTitle (name : string) : string :=
  Join (map capitalize (Split "_" name)) " ".

(** [SectionKey]: Title Case heading to snake_case key. *)
Definition SectionKey (heading : string) : string :=
  Join (Fields (ToLower heading)) "_".

End models.



(** ** Journal body: [renderSections] and [parseSections]
  (internal/storage/journal_md.go) *)

Definition headingPrefix : string := "## ".

(** One iteration of the loop of [renderSections]; [sb] is the builder. *)
Definition renderStep (sections : gmap string string) (sb name : string) : string :=
  match sections !! name with
  | Some content =>
      if String.eqb content "" then sb
      else sb +:+ (NL +:+ headingPrefix +:+ models.SectionTitle name +:+ NL +:+ content +:+ NL)
  | None => sb
  end.

Definition renderSections (sections : gmap string string) : string :=
  fold_left (renderStep sections) models.ValidSections "".

(** The three variables of the loop of [parseSections]. *)
Record parseState := ParseState {
  psSections : gmap string string;
  currentSection : string;
  currentContent : string
}.

Definition saveSection (st : parseState) : gmap string string :=
  if String.eqb (currentSection st) "" then psSections st
  else <[currentSection st := TrimSpace (currentContent st)]> (psSections st).

Definition parseLine (st : parseState) (line : string) : parseState :=
  if HasPrefix line headingPrefix then
    ParseState (saveSection st)
               (models.SectionKey (TrimPrefix line headingPrefix))
               ""
  else if String.eqb (currentSection st) "" then st
  else ParseState (psSections st) (currentSection st)
                  (currentContent st +:+ line +:+ NL).

Definition parseSections (body : string) : gmap string string :=
  saveSection (fold_left parseLine (Split nl body) (ParseState ∅ "" "")).

(** ** Go's [time.Time], as far as the stores use it *)

Module GoTime.

(** A [time.Time] is an instant together with a location.  The instant is
    counted in nanoseconds since January 1, year 1, 00:00:00 UTC (Go's zero
    time); the location is a fixed offset in seconds east of UTC. *)
Record Time := mkTime { instant : Z; zoneOffset : Z }.

Definition nsPerSecond : Z := 1000000000.
Definition nsPerDay : Z := 86400 * nsPerSecond.

Definition zeroTime : Time := mkTime 0 0.

Definition IsZero (t : Time) : bool := instant t =? 0.
Definition After (t u : Time) : bool := instant u <? instant t.
Definition Before (t u : Time) : bool := instant t <? instant u.
Definition Equal (t u : Time) : bool := instant t =? instant u.

(** [t.Truncate(d)]: rounds the instant down to a multiple of [d] since the
    zero time; the location plays no part. *)
Definition Truncate (t : Time) (d : Z) : Time :=
  if d <=? 0 then t else mkTime (instant t - instant t mod d) (zoneOffset t).

(** [t.AddDate(0, 0, days)] in a location with a fixed offset. *)
Definition AddDays (t : Time) (days : Z) : Time :=
  mkTime (instant t + days * nsPerDay) (zoneOffset t).

(** *** The proleptic Gregorian calendar *)

(** Days between January 1, year 1 and the given civil date. *)
Definition daysFromCivil (y m d : Z) : Z :=
  let y' := if m <=? 2 then y - 1 else y in
  let era := y' / 400 in
  let yoe := y' - era * 400 in
  let mp := if 2 <? m then m - 3 else m + 9 in
  let doy := (153 * mp + 2) / 5 + d - 1 in
  let doe := yoe * 365 + yoe / 4 - yoe / 100 + doy in
  era * 146097 + doe - 306.

(** The civil date of a day number counted from January 1, year 1. *)
Definition civilFromDays (n : Z) : Z * Z * Z :=
  let z := n + 306 in
  let era := z / 146097 in
  let doe := z - era * 146097 in
  let yoe := (doe - doe / 1460 + doe / 36524 - doe / 146096) / 365 in
  let doy := doe - (365 * yoe + yoe / 4 - yoe / 100) in
  let mp := (5 * doy + 2) / 153 in
  let d := doy - (153 * mp + 2) / 5 + 1 in
  let m := if mp <? 10 then mp + 3 else mp - 9 in
  let y := yoe + era * 400 in
  (if m <=? 2 then y + 1 else y, m, d).

Definition isLeap (y : Z) : bool :=
  (y mod 4 =? 0) && (negb (y mod 100 =? 0) || (y mod 400 =? 0)).

Definition daysIn (m y : Z) : Z :=
  if m =? 2 then (if isLeap y then 29 else 28)
  else if (m =? 4) || (m =? 6) || (m =? 9) || (m =? 11) then 30 else 31.

(** The wall clock of [t] in its own location, in nanoseconds. *)
Definition wall (t : Time) : Z := instant t + zoneOffset t * nsPerSecond.

Definition dayNumber (t : Time) : Z := wall t / nsPerDay.
Definition Date (t : Time) : Z * Z * Z := civilFromDays (dayNumber t).
Definition Year (t : Time) : Z := (Date t).1.1.
Definition Month (t : Time) : Z := (Date t).1.2.
Definition Day (t : Time) : Z := (Date t).2.
Definition secondOfDay (t : Time) : Z := (wall t mod nsPerDay) / nsPerSecond.
Definition Hour (t : Time) : Z := secondOfDay t / 3600.
Definition Minute (t : Time) : Z := (secondOfDay t mod 3600) / 60.
Definition Second (t : Time) : Z := secondOfDay t mod 60.
Definition Nanosecond (t : Time) : Z := wall t mod nsPerSecond.

(** [time.Date(y, m, d, hh, mm, ss, ns, loc)] for arguments in range. *)
Definition mkDate (y m d hh mm ss ns off : Z) : Time :=
  mkTime (((daysFromCivil y m d * 86400 + hh * 3600 + mm * 60 + ss) - off) * nsPerSecond + ns) off.

(** *** Decimal digits *)

Definition digitChar (n : Z) : ascii := ascii_of_N (48 + Z.to_N (n mod 10)).

Fixpoint digitsFuel (fuel : nat) (n : Z) (acc : string) : string :=
  match fuel with
  | O => acc
  | S f => let acc' := String (digitChar n) acc in
           if n / 10 =? 0 then acc' else digitsFuel f (n / 10) acc'
  end.

(** The decimal numeral of a natural number. *)
Definition decimal (n : Z) : string := digitsFuel (S (Z.to_nat (Z.log2 n))) n "".

Fixpoint zeros (k : nat) : string :=
  match k with O => "" | S k' => String "0" (zeros k') end.

(** Go's [appendInt]: at least [width] digits, zero padded. *)
Definition appendInt (x : Z) (width : nat) : string :=
  let s := decimal (Z.abs x) in
  (if x <? 0 then "-" else "") +:+ zeros (width - String.length s) +:+ s.

(** *** Layouts

[Format] and [Parse] read a layout as a sequence of chunks: a reference
value such as [2006] or [15] stands for a field of the time, any other
byte stands for itself.  Fractional seconds are a run of [0] or [9]
that follows a point or a comma and is not followed by a digit; a run
of zeros anywhere else is literal text. *)
Inductive chunk :=
  | Lit (c : ascii)
  | stdLongYear          (* 2006 *)
  | stdZeroMonth         (* 01 *)
  | stdZeroDay           (* 02 *)
  | stdHour              (* 15 *)
  | stdZeroMinute        (* 04 *)
  | stdZeroSecond        (* 05 *)
  | stdFracSecond (sep : ascii) (digits : nat) (trim : bool)   (* .000 ,000 .999 ,999 *)
  | stdOther.            (* a reference value outside this model *)

Definition isDigit (c : ascii) : bool :=
  let n := byteOf c in ((48 <=? n) && (n <=? 57))%N.

(** Length of the run of [ch] at the head of [s], and the rest. *)
Fixpoint spanChar (ch : ascii) (s : string) : nat * string :=
  match s with
  | String c r => if Ascii.eqb c ch then let '(n, r') := spanChar ch r in (S n, r') else (O, s)
  | EmptyString => (O, s)
  end.

Definition startsWithDigit (s : string) : bool :=
  match s with String c _ => isDigit c | EmptyString => false end.

Definition dropBytes (n : nat) (s : string) : string :=
  String.substring n (String.length s - n) s.

(** Go's [nextStdChunk], one chunk at a time. *)
Definition nextChunk (layout : string) : option (chunk * string) :=
  match layout with
  | EmptyString => None
  | String c r =>
      let lit := Some (Lit c, r) in
      let std (k : chunk) (n : nat) := Some (k, dropBytes n layout) in
      if HasPrefix layout "2006" then std stdLongYear 4%nat
      else if HasPrefix layout "01" then std stdZeroMonth 2%nat
      else if HasPrefix layout "02" then std stdZeroDay 2%nat
      else if HasPrefix layout "15" then std stdHour 2%nat
      else if HasPrefix layout "04" then std stdZeroMinute 2%nat
      else if HasPrefix layout "05" then std stdZeroSecond 2%nat
      else if HasPrefix layout "Jan" || HasPrefix layout "Mon" || HasPrefix layout "MST"
           || HasPrefix layout "03" || HasPrefix layout "06" || HasPrefix layout "002"
           || HasPrefix layout "1" || HasPrefix layout "2" || HasPrefix layout "_2"
           || HasPrefix layout "3" || HasPrefix layout "4" || HasPrefix layout "5"
           || HasPrefix layout "PM" || HasPrefix layout "pm"
           || HasPrefix layout "-07" || HasPrefix layout "Z07"
      then Some (stdOther, r)
      else if Ascii.eqb c "." || Ascii.eqb c "," then
        match r with
        | String d _ =>
            if Ascii.eqb d "0" || Ascii.eqb d "9" then
              let '(n, rest) := spanChar d r in
              if startsWithDigit rest then lit
              else Some (stdFracSecond c n (Ascii.eqb d "9"), rest)
            else lit
        | EmptyString => lit
        end
      else lit
  end.

Fixpoint chunksFuel (fuel : nat) (layout : string) : list chunk :=
  match fuel with
  | O => []
  | S f => match nextChunk layout with
           | None => []
           | Some (k, rest) => k :: chunksFuel f rest
           end
  end.

Definition chunks (layout : string) : list chunk :=
  chunksFuel (String.length layout) layout.

(** The first [digits] digits of the nanoseconds. *)
Definition fraction (t : Time) (digits : nat) : string :=
  String.substring 0 digits (appendInt (Nanosecond t) 9 +:+ zeros digits).

Fixpoint trimZeros (s : string) : string :=
  match s with
  | EmptyString => EmptyString
  | String c r => match trimZeros r with
                  | EmptyString => if Ascii.eqb c "0" then EmptyString else String c EmptyString
                  | r' => String c r'
                  end
  end.

Definition formatChunk (t : Time) (k : chunk) : option string :=
  match k with
  | Lit c => Some (String c "")
  | stdLongYear => Some (appendInt (Year t) 4)
  | stdZeroMonth => Some (appendInt (Month t) 2)
  | stdZeroDay => Some (appendInt (Day t) 2)
  | stdHour => Some (appendInt (Hour t) 2)
  | stdZeroMinute => Some (appendInt (Minute t) 2)
  | stdZeroSecond => Some (appendInt (Second t) 2)
  | stdFracSecond sep n trim =>
      let f := fraction t n in
      if trim then
        match trimZeros f with
        | EmptyString => Some ""
        | f' => Some (String sep f')
        end
      else Some (String sep f)
  | stdOther => None
  end.

Fixpoint formatChunks (t : Time) (ks : list chunk) : option string :=
  match ks with
  | [] => Some ""
  | k :: ks' =>
      match formatChunk t k, formatChunks t ks' with
      | Some a, Some b => Some (a +:+ b)
      | _, _ => None
      end
  end.

(** [t.Format(layout)]; [None] when the layout uses a reference value that
    this model leaves out. *)
Definition Format (t : Time) (layout : string) : option string :=
  formatChunks t (chunks layout).

(** *** [time.Parse] with the layout [2006-01-02] *)

Definition digitValue (c : ascii) : option Z :=
  if isDigit c then Some (Z.of_N (byteOf c) - 48) else None.

Fixpoint number (acc : Z) (ds : list ascii) : option Z :=
  match ds with
  | [] => Some acc
  | c :: r => match digitValue c with
              | Some v => number (acc * 10 + v) r
              | None => None
              end
  end.

(** The day number of a name of the form [YYYY-MM-DD] that denotes a date
    of the calendar; [None] is Go's parse error. *)
Definition parseDateDay (name : string) : option Z :=
  match list_ascii_of_string name with
  | [y1; y2; y3; y4; s1; m1; m2; s2; d1; d2] =>
      if Ascii.eqb s1 "-" && Ascii.eqb s2 "-" then
        match number 0 [y1; y2; y3; y4], number 0 [m1; m2], number 0 [d1; d2] with
        | Some y, Some m, Some d =>
            if (1 <=? m) && (m <=? 12) && (1 <=? d) && (d <=? daysIn m y)
            then Some (daysFromCivil y m d)
            else None
        | _, _, _ => None
        end
      else None
  | _ => None
  end.

(** [time.Parse("2006-01-02", name)]: midnight UTC of that date. *)
Definition ParseDate (name : string) : option Time :=
  match parseDateDay name with
  | Some n => Some (mkTime (n * nsPerDay) 0)
  | None => None
  end.

End GoTime.

Import GoTime.

(** ** github.com/google/uuid: the textual form of identifiers *)

Module uuid.

(** A [uuid.UUID] is an array of 16 bytes. *)
Record UUID := mkUUID { bytes : list ascii }.

Definition wf (u : UUID) : Prop := length (bytes u) = 16%nat.

Definition hexDigit (n : N) : ascii :=
  if (n <? 10)%N then ascii_of_N (48 + n) else ascii_of_N (87 + n).

Definition hexByte (c : ascii) : string :=
  String (hexDigit (byteOf c / 16)) (String (hexDigit (byteOf c mod 16)) "").

Fixpoint encodeHex (l : list ascii) : string :=
  match l with
  | [] => ""
  | c :: r => hexByte c +:+ encodeHex r
  end.

Definition hexValue (c : ascii) : option N :=
  let n := byteOf c in
  if ((48 <=? n) && (n <=? 57))%N then Some (n - 48)%N
  else if ((97 <=? n) && (n <=? 102))%N then Some (n - 87)%N
  else if ((65 <=? n) && (n <=? 70))%N then Some (n - 55)%N
  else None.

(** [xtob]: two hexadecimal digits to a byte. *)
Definition xtob (x1 x2 : ascii) : option ascii :=
  match hexValue x1, hexValue x2 with
  | Some a, Some b => Some (ascii_of_N (a * 16 + b))
  | _, _ => None
  end.

Definition at_ (s : list ascii) (i : nat) : ascii := nth i s zero.

Fixpoint decodeAt (s : list ascii) (offsets : list nat) : option (list ascii) :=
  match offsets with
  | [] => Some []
  | x :: r =>
      match xtob (at_ s x) (at_ s (S x)), decodeAt s r with
      | Some b, Some bs => Some (b :: bs)
      | _, _ => None
      end
  end.

Definition groupOffsets : list nat :=
  [0; 2; 4; 6; 9; 11; 14; 16; 19; 21; 24; 26; 28; 30; 32; 34]%nat.

Definition plainOffsets : list nat :=
  [0; 2; 4; 6; 8; 10; 12; 14; 16; 18; 20; 22; 24; 26; 28; 30]%nat.

Definition isDash (c : ascii) : bool := Ascii.eqb c "-".

(** The form xxxxxxxx-xxxx-xxxx-xxxx-xxxxxxxxxxxx at the head of [s]. *)
Definition parseGroups (s : list ascii) : option UUID :=
  if isDash (at_ s 8) && isDash (at_ s 13) && isDash (at_ s 18) && isDash (at_ s 23)
  then option_map mkUUID (decodeAt s groupOffsets)
  else None.

(** [uuid.Parse]: the four accepted lengths are the plain form with
    dashes, the same behind [urn:uuid:], the same between two bytes that
    are not looked at, and 32 hexadecimal digits. *)
Definition Parse (s : string) : option UUID :=
  let l := list_ascii_of_string s in
  match length l with
  | 36%nat => parseGroups l
  | 45%nat =>
      if String.eqb (ToLower (string_of_list_ascii (firstn 9 l))) "urn:uuid:"
      then parseGroups (skipn 9 l) else None
  | 38%nat => parseGroups (skipn 1 l)
  | 32%nat => option_map mkUUID (decodeAt l plainOffsets)
  | _ => None
  end.

(** [UUID.String]: 8-4-4-4-12 lower-case hexadecimal digits. *)
Definition String (u : UUID) : string :=
  let b := bytes u in
  encodeHex (firstn 4 b) +:+ "-" +:+ encodeHex (firstn 2 (skipn 4 b)) +:+ "-" +:+
  encodeHex (firstn 2 (skipn 6 b)) +:+ "-" +:+ encodeHex (firstn 2 (skipn 8 b)) +:+ "-" +:+
  encodeHex (skipn 10 b).

End uuid.

(** ** Errors and results *)

Inductive error :=
| ErrOutsideRoots (path : string)     (* path %q is outside journal roots *)
| ErrReadEntry                        (* failed to read entry *)
| ErrNoFrontmatter                    (* no frontmatter found *)
| ErrParseFrontmatter                 (* failed to parse frontmatter *)
| ErrInvalidUUID                      (* invalid UUID *)
| ErrInvalidDate                      (* invalid date *)
| ErrRender                           (* failed to render *)
| ErrWrite                            (* failed to write *)
| ErrListEntries (root : string)      (* failed to list entries in %s *)
| ErrReadDir                          (* an error of os.ReadDir *)
| ErrPostNotFound (postID : string).  (* post %s not found *)

Inductive result (A : Type) :=
| Ok (a : A)
| Err (e : error).
Arguments Ok {A} a.
Arguments Err {A} e.

(** ** The file system: [os] and [path/filepath] on a tree of directories *)

Module fs.

#[warnings="-register-all"]
Inductive node :=
  | File (content : string)
  | Dir (entries : list (string * node)).

(** The entries of a directory are kept in the order of their names, the
    order in which [os.ReadDir] and [filepath.Walk] visit them. *)

Record FS := mkFS {
    cwd : string;        (* the working directory, an absolute path *)
    tree : node          (* the directory [/] *)
  }.

Definition slash : ascii := "/".
Definition Separator : string := "/".

Definition IsAbs (path : string) : bool := HasPrefix path Separator.

(** The path elements that [filepath.Clean] keeps: empty elements and [.]
    are dropped, [..] removes the element before it, and a [..] with
    nothing before it is dropped in a rooted path and kept otherwise. *)
Definition cleanStep (rooted : bool) (stack : list string) (seg : string) : list string :=
  if String.eqb seg "" || String.eqb seg "." then stack
  else if String.eqb seg ".." then
    match stack with
    | top :: below => if String.eqb top ".." then seg :: stack else below
    | [] => if rooted then [] else [seg]
    end
  else seg :: stack.

(** The stack is kept with its top first. *)
Definition cleanSegments (rooted : bool) (path : string) : list string :=
  List.rev (fold_left (cleanStep rooted) (Split slash path) []).

(** [filepath.Clean]. *)
Definition Clean (path : string) : string :=
  let rooted := IsAbs path in
  let body := Join (cleanSegments rooted path) Separator in
  if rooted then Separator +:+ body
  else if String.eqb body "" then "." else body.

(** [filepath.Join] of two elements. *)
Definition Join2 (a b : string) : string :=
  if String.eqb a "" then (if String.eqb b "" then "" else Clean b)
  else if String.eqb b "" then Clean a
  else Clean (a +:+ Separator +:+ b).

(** [filepath.Abs]; the working directory is always known here. *)
Definition Abs (f : FS) (path : string) : string :=
  if IsAbs path then Clean path else Join2 (cwd f) path.

(** The path elements below [/] that a path names. *)
Definition resolve (f : FS) (path : string) : list string :=
  cleanSegments true (Abs f path).

Inductive stat :=
  | StNode (n : node)
  | StNotExist          (* ENOENT *)
  | StNotDir.           (* ENOTDIR *)

Fixpoint assoc (name : string) (es : list (string * node)) : option node :=
  match es with
  | [] => None
  | (k, c) :: r => if String.eqb k name then Some c else assoc name r
  end.

Fixpoint find (segs : list string) (n : node) : stat :=
  match segs with
  | [] => StNode n
  | s :: r =>
      match n with
      | File _ => StNotDir
      | Dir es => match assoc s es with
                  | Some c => find r c
                  | None => StNotExist
                  end
      end
  end.

Definition Stat (f : FS) (path : string) : stat := find (resolve f path) (tree f).

Definition IsDir (n : node) : bool :=
  match n with Dir _ => true | File _ => false end.

(** A [fs.DirEntry]: the name and whether it is a directory. *)
Definition DirEntry : Type := string * bool.

(** [os.ReadDir]; [None] stands for its error. *)
Definition ReadDir (f : FS) (path : string) : option (list DirEntry) :=
  match Stat f path with
  | StNode (Dir es) => Some (map (fun e => (e.1, IsDir e.2)) es)
  | _ => None
  end.

(** [os.ReadFile]; [None] stands for its error. *)
Definition ReadFile (f : FS) (path : string) : option string :=
  match Stat f path with
  | StNode (File c) => Some c
  | _ => None
  end.

(** *** Writing *)

(** The new subtree that holds one file at the end of [segs]. *)
Fixpoint fresh (segs : list string) (data : string) : node :=
  match segs with
  | [] => File data
  | s :: r => Dir [(s, fresh r data)]
  end.

Fixpoint replace (name : string) (c : node) (es : list (string * node)) : list (string * node) :=
  match es with
  | [] => []
  | (k, old) :: r => if String.eqb k name then (k, c) :: r else (k, old) :: replace name c r
  end.

(** Adds an entry at its place in the order of the names. *)
Fixpoint insertEntry (name : string) (c : node) (es : list (string * node))
  : list (string * node) :=
  match es with
  | [] => [(name, c)]
  | (k, old) :: r =>
      if String.leb name k then (name, c) :: es else (k, old) :: insertEntry name c r
  end.

(** Creates the missing directories and puts the file at [segs]; fails
    when an element on the way is a file or the target is a directory. *)
Fixpoint writeAt (segs : list string) (data : string) (n : node) : option node :=
  match segs with
  | [] => match n with
          | File _ => Some (File data)
          | Dir _ => None
          end
  | s :: r =>
      match n with
      | File _ => None
      | Dir es =>
          match assoc s es with
          | Some c =>
              match writeAt r data c with
              | Some c' => Some (Dir (replace s c' es))
              | None => None
              end
          | None => Some (Dir (insertEntry s (fresh r data) es))
          end
      end
  end.

(** [mdstore.AtomicWrite]: the file appears under its name in one step,
    with its parent directories created first. *)
Definition AtomicWrite (f : FS) (path : string) (data : string) : option FS :=
  match writeAt (resolve f path) data (tree f) with
  | Some t => Some (mkFS (cwd f) t)
  | None => None
  end.

(** *** Walking *)

(** The files below a node, each with its path, in the order of
    [filepath.Walk]. *)
Fixpoint walkNode (path : string) (n : node) {struct n} : list string :=
  match n with
  | File _ => [path]
  | Dir es =>
      (fix walkEntries (es : list (string * node)) : list string :=
         match es with
         | [] => []
         | (name, c) :: r => (walkNode (Join2 path name) c ++ walkEntries r)%list
         end) es
  end.

(** The paths of the files that [filepath.Walk(root, fn)] hands to [fn];
    a root that cannot be entered has none. *)
Definition WalkFiles (f : FS) (root : string) : list string :=
  match Stat f root with
  | StNode n => walkNode root n
  | _ => []
  end.

End fs.

(** ** The frontmatter codec

The stores write and read the metadata block through
[mdstore.RenderFrontmatter], [mdstore.ParseFrontmatter],
[mdstore.FormatTime], [mdstore.ParseTime] and [yaml.Unmarshal].  These
belong to libraries outside the repository; the stores are defined over
any implementation of them. *)

(** [journalFrontmatter]: the YAML frontmatter of journal entry files. *)
Record journalFrontmatter := mkJournalFM {
  jfID : string;       (* yaml:"id" *)
  jfDate : string;     (* yaml:"date" *)
  jfType : string      (* yaml:"type" *)
}.

(** [socialFrontmatter]: the YAML frontmatter of social post files. *)
Record socialFrontmatter := mkSocialFM {
  sfID : string;             (* yaml:"id" *)
  sfAuthor : string;         (* yaml:"author" *)
  sfTags : list string;      (* yaml:"tags,omitempty" *)
  sfCreatedAt : string;      (* yaml:"created_at" *)
  sfParentPostID : string;   (* yaml:"parent_post_id,omitempty" *)
  sfSynced : bool            (* yaml:"synced" *)
}.

Class Codec := {
  (** [mdstore.ParseFrontmatter]: the YAML text and the body. *)
  ParseFrontmatter : string -> string * string;
  (** [mdstore.RenderFrontmatter] at the two frontmatter types. *)
  RenderJournal : journalFrontmatter -> string -> option string;
  RenderSocial : socialFrontmatter -> string -> option string;
  (** [yaml.Unmarshal] into the two frontmatter types. *)
  UnmarshalJournal : string -> option journalFrontmatter;
  UnmarshalSocial : string -> option socialFrontmatter;
  (** [mdstore.FormatTime] and [mdstore.ParseTime]. *)
  FormatTime : Time -> string;
  ParseTime : string -> option Time
}.


Definition socialCodecAt `{Codec} (fm : socialFrontmatter) (body content : string) : Prop :=
  RenderSocial fm body = Some content /\
  exists yamlStr, ParseFrontmatter content = (yamlStr, body) /\ yamlStr <> "" /\
                  UnmarshalSocial yamlStr = Some fm.

Definition timeCodecAt `{Codec} (t : Time) : Prop :=
  exists t', ParseTime (FormatTime t) = Some t' /\ Equal t' t = true.

(** [t.Format(layout)] for the layouts of the stores, which are inside the
  model of [Format]. *)
Definition FormatStr (t : Time) (layout : string) : string :=
  match Format t layout with Some s => s | None => "" end.

Definition dayDuration : Z := 24 * 3600 * nsPerSecond.   (* 24 * time.Hour *)

(** ** internal/storage/journal_md.go *)

Module journal.

(** [models.JournalEntry]. *)
Record JournalEntry := mkEntry {
  ID : uuid.UUID;
Sections : gmap string string;
    CreatedAt : Time;
    FilePath : string;
    Type_ : string     (* the field [Type] *)
  }.

(** [JournalMDStore]: the two roots. *)
Record JournalMDStore := mkStore {
    projectPath : string;
    userPath : string
  }.

Section WithCodec.
Context `{Codec}.

(** [parseJournalEntry]. *)
Definition parseJournalEntry (path content : string) : result JournalEntry :=
  let '(yamlStr, body) := ParseFrontmatter content in
  if String.eqb yamlStr "" then Err ErrNoFrontmatter
  else match UnmarshalJournal yamlStr with
       | None => Err ErrParseFrontmatter
       | Some fm =>
           match uuid.Parse (jfID fm) with
           | None => Err ErrInvalidUUID
           | Some id =>
               match ParseTime (jfDate fm) with
               | None => Err ErrInvalidDate
               | Some createdAt =>
                   Ok (mkEntry id (parseSections body) createdAt path (jfType fm))
               end
           end
       end.

(** [WriteEntry]: the new file system and the entry with its path
    recorded. *)
Definition WriteEntry (s : JournalMDStore) (f : fs.FS) (entry : JournalEntry)
  : result (fs.FS * JournalEntry) :=
  let root := if String.eqb (Type_ entry) "project" then projectPath s else userPath s in
  let dateDir := FormatStr (CreatedAt entry) "2006-01-02" in
  let timeStr := FormatStr (CreatedAt entry) "15-04-05-000000" in
  let shortID := String.substring 0 8 (uuid.String (ID entry)) in
  let filename := timeStr +:+ "-" +:+ shortID +:+ ".md" in
  let dir := fs.Join2 root dateDir in
  let path := fs.Join2 dir filename in
  let fm := mkJournalFM (uuid.String (ID entry)) (FormatTime (CreatedAt entry)) (Type_ entry) in
  let body := renderSections (Sections entry) in
  match RenderJournal fm body with
  | None => Err ErrRender
  | Some content =>
      match fs.AtomicWrite f path content with
      | None => Err ErrWrite
      | Some f' =>
          Ok (f', mkEntry (ID entry) (Sections entry) (CreatedAt entry) path (Type_ entry))
      end
  end.

(** [ReadEntry]. *)
Definition ReadEntry (s : JournalMDStore) (f : fs.FS) (path : string) : result JournalEntry :=
  let absPath := fs.Abs f path in
  let absProject := fs.Abs f (projectPath s) in
  let absUser := fs.Abs f (userPath s) in
  if negb (HasPrefix absPath (absProject +:+ fs.Separator)) &&
     negb (HasPrefix absPath (absUser +:+ fs.Separator))
  then Err (ErrOutsideRoots path)
  else match fs.ReadFile f absPath with
       | None => Err ErrReadEntry
       | Some data => parseJournalEntry absPath data
       end.

(** The inner loop of [listEntriesInRoot], over the files of one date
    directory. *)
Fixpoint scanFiles (f : fs.FS) (dirPath : string) (files : list fs.DirEntry)
                   (entries : list JournalEntry) : list JournalEntry :=
  match files with
  | [] => entries
  | file :: rest =>
      if file.2 || negb (HasSuffix file.1 ".md") then scanFiles f dirPath rest entries
      else
        let filePath := fs.Join2 dirPath file.1 in
        match fs.ReadFile f filePath with
        | None => scanFiles f dirPath rest entries
        | Some data =>
            match parseJournalEntry filePath data with
            | Err _ => scanFiles f dirPath rest entries
            | Ok entry => scanFiles f dirPath rest (entries ++ [entry])%list
            end
        end
  end.

(** The test on the name of a date directory; [true] is [continue]. *)
Definition skipByCutoff (cutoff : Time) (name : string) : bool :=
  if negb (IsZero cutoff) then
    match ParseDate name with
    | None => true
    | Some dirDate =>
        let cutoffDate := Truncate cutoff dayDuration in
        Before dirDate cutoffDate
    end
  else false.

(** The outer loop of [listEntriesInRoot], over the date directories. *)
Fixpoint scanDateDirs (f : fs.FS) (root : string) (cutoff : Time)
                      (dateDirs : list fs.DirEntry)
                      (entries : list JournalEntry) : list JournalEntry :=
  match dateDirs with
  | [] => entries
  | dateDir :: rest =>
      if negb dateDir.2 then scanDateDirs f root cutoff rest entries
      else if skipByCutoff cutoff dateDir.1 then scanDateDirs f root cutoff rest entries
      else
        let dirPath := fs.Join2 root dateDir.1 in
        match fs.ReadDir f dirPath with
        | None => scanDateDirs f root cutoff rest entries
        | Some files =>
            scanDateDirs f root cutoff rest (scanFiles f dirPath files entries)
        end
  end.

(** [listEntriesInRoot]. *)
Definition listEntriesInRoot (f : fs.FS) (root : string) (cutoff : Time)
  : result (list JournalEntry) :=
  match fs.Stat f root with
  | fs.StNotExist => Ok []
  | _ =>
      match fs.ReadDir f root with
      | None => Err ErrReadDir
      | Some dateDirs => Ok (scanDateDirs f root cutoff dateDirs [])
      end
  end.

(** The roots that [ListEntries] selects, each with its file type. *)
Definition selectRoots (s : JournalMDStore) (entryType : string) : list (string * string) :=
  let roots : list (string * string) := [] in
  let roots :=
    if String.eqb entryType "both" || String.eqb entryType "user" || String.eqb entryType ""
    then (roots ++ [(userPath s, "user")])%list else roots in
  let roots :=
    if String.eqb entryType "both" || String.eqb entryType "project" || String.eqb entryType ""
    then (roots ++ [(projectPath s, "project")])%list else roots in
  roots.

Fixpoint listRoots (f : fs.FS) (cutoff : Time) (roots : list (string * string))
                   (entries : list JournalEntry) : result (list JournalEntry) :=
  match roots with
  | [] => Ok entries
  | root :: rest =>
      match listEntriesInRoot f root.1 cutoff with
      | Err _ => Err (ErrListEntries root.1)
      | Ok rootEntries => listRoots f cutoff rest (entries ++ rootEntries)%list
      end
  end.

(** The order of [sort.Slice] with [less = After]: no entry is after one
    that comes before it.  Entries with equal timestamps may come in any
    order; [merge_sort] stands for one such sort. *)
Definition notBefore (a b : JournalEntry) : Prop :=
  instant (CreatedAt b) <= instant (CreatedAt a).

Global Instance notBefore_dec : RelDecision notBefore.
Proof. intros a b. unfold notBefore. apply _. Defined.

Definition sortByDateDesc (entries : list JournalEntry) : list JournalEntry :=
  merge_sort notBefore entries.

(** [ListEntries]; [now] is the value of [time.Now()]. *)
Definition ListEntries (s : JournalMDStore) (f : fs.FS) (now : Time)
                       (entryType : string) (limit days : Z)
  : result (list JournalEntry) :=
  let roots := selectRoots s entryType in
  let cutoff := if 0 <? days then AddDays now (- days) else zeroTime in
  match listRoots f cutoff roots [] with
  | Err e => Err e
  | Ok entries =>
      let entries := sortByDateDesc entries in
      if (0 <? limit) && (limit <? Z.of_nat (length entries))
      then Ok (firstn (Z.to_nat limit) entries)
      else Ok entries
  end.

End WithCodec.

End journal.

(** ** internal/storage/social_md.go *)

Module social.

(** [models.SocialPost]. *)
Record SocialPost := mkPost {
    ID : uuid.UUID;
    AuthorName : string;
    Content : string;
    Tags : list string;
    CreatedAt : Time;
    ParentPostID : option uuid.UUID;
    Synced : bool
  }.

(** [ListPostsOptions]. *)
Record ListPostsOptions := mkOptions {
    Limit : Z;
    Offset : Z;
    AgentFilter : string;
    TagFilter : string;
    ThreadID : string
  }.

(** [SocialMDStore]. *)
Record SocialMDStore := mkStore { dataDir : string }.

(** [containsTag]. *)
Fixpoint containsTag (tags : list string) (tag : string) : bool :=
  match tags with
  | [] => false
  | t :: rest => if String.eqb t tag then true else containsTag rest tag
  end.

Section WithCodec.
Context `{Codec}.

(** [parseSocialPost]. *)
Definition parseSocialPost (content : string) : result SocialPost :=
  let '(yamlStr, body) := ParseFrontmatter content in
  if String.eqb yamlStr "" then Err ErrNoFrontmatter
  else match UnmarshalSocial yamlStr with
       | None => Err ErrParseFrontmatter
       | Some fm =>
           match uuid.Parse (sfID fm) with
           | None => Err ErrInvalidUUID
           | Some id =>
               match ParseTime (sfCreatedAt fm) with
               | None => Err ErrInvalidDate
               | Some createdAt =>
                   let post := mkPost id (sfAuthor fm) (TrimSpace body) (sfTags fm)
                                      createdAt None (sfSynced fm) in
                   if negb (String.eqb (sfParentPostID fm) "") then
                     match uuid.Parse (sfParentPostID fm) with
                     | Some parentID =>
                         Ok (mkPost (ID post) (AuthorName post) (Content post) (Tags post)
                                    (CreatedAt post) (Some parentID) (Synced post))
                     | None => Ok post
                     end
                   else Ok post
               end
           end
       end.

(** [CreatePost]: the new file system, or the error. *)
Definition CreatePost (s : SocialMDStore) (f : fs.FS) (post : SocialPost) : result fs.FS :=
  let postsDir := fs.Join2 (dataDir s) "posts" in
  let dateDir := FormatStr (CreatedAt post) "2006-01-02" in
  let timeStr := FormatStr (CreatedAt post) "15-04-05-000000" in
  let shortID := String.substring 0 8 (uuid.String (ID post)) in
  let filename := timeStr +:+ "-" +:+ shortID +:+ ".md" in
  let dir := fs.Join2 postsDir dateDir in
  let path := fs.Join2 dir filename in
  let fm := mkSocialFM (uuid.String (ID post)) (AuthorName post) (Tags post)
                       (FormatTime (CreatedAt post))
                       (match ParentPostID post with
                        | Some p => uuid.String p
                        | None => ""
                        end)
                       (Synced post) in
  match RenderSocial fm (Content post +:+ NL) with
  | None => Err ErrRender
  | Some content =>
      match fs.AtomicWrite f path content with
      | None => Err ErrWrite
      | Some f' => Ok f'
      end
  end.

(** The three filters of [ListPosts]; [true] keeps the post. *)
Definition passesAgent (opts : ListPostsOptions) (post : SocialPost) : bool :=
  negb (negb (String.eqb (AgentFilter opts) "") &&
        negb (String.eqb (AuthorName post) (AgentFilter opts))).

Definition passesTag (opts : ListPostsOptions) (post : SocialPost) : bool :=
  negb (negb (String.eqb (TagFilter opts) "") &&
        negb (containsTag (Tags post) (TagFilter opts))).

Definition passesThread (opts : ListPostsOptions) (post : SocialPost) : bool :=
  if negb (String.eqb (ThreadID opts) "") then
    if match ParentPostID post with
       | None => true
       | Some p => negb (String.eqb (uuid.String p) (ThreadID opts))
       end
    then
      (* Also match if the post itself IS the thread root *)
      if negb (String.eqb (uuid.String (ID post)) (ThreadID opts)) then false else true
    else true
  else true.

(** The inner loop of [ListPosts]. *)
Fixpoint scanFiles (f : fs.FS) (opts : ListPostsOptions) (dirPath : string)
                   (files : list fs.DirEntry) (allPosts : list SocialPost)
  : list SocialPost :=
  match files with
  | [] => allPosts
  | file :: rest =>
      if file.2 || negb (HasSuffix file.1 ".md") then scanFiles f opts dirPath rest allPosts
      else
        let filePath := fs.Join2 dirPath file.1 in
        match fs.ReadFile f filePath with
        | None => scanFiles f opts dirPath rest allPosts
        | Some data =>
            match parseSocialPost data with
            | Err _ => scanFiles f opts dirPath rest allPosts
            | Ok post =>
                if negb (passesAgent opts post) then scanFiles f opts dirPath rest allPosts
                else if negb (passesTag opts post) then scanFiles f opts dirPath rest allPosts
                else if negb (passesThread opts post) then scanFiles f opts dirPath rest allPosts
                else scanFiles f opts dirPath rest (allPosts ++ [post])%list
            end
        end
  end.

(** The outer loop of [ListPosts]. *)
Fixpoint scanDateDirs (f : fs.FS) (opts : ListPostsOptions) (postsDir : string)
                      (dateDirs : list fs.DirEntry) (allPosts : list SocialPost)
  : list SocialPost :=
  match dateDirs with
  | [] => allPosts
  | dateDir :: rest =>
      if negb dateDir.2 then scanDateDirs f opts postsDir rest allPosts
      else
        let dirPath := fs.Join2 postsDir dateDir.1 in
        match fs.ReadDir f dirPath with
        | None => scanDateDirs f opts postsDir rest allPosts
        | Some files =>
            scanDateDirs f opts postsDir rest (scanFiles f opts dirPath files allPosts)
        end
  end.

Definition notBefore (a b : SocialPost) : Prop :=
  instant (CreatedAt b) <= instant (CreatedAt a).

Global Instance notBefore_dec : RelDecision notBefore.
Proof. intros a b. unfold notBefore. apply _. Defined.

Definition sortByDateDesc (posts : list SocialPost) : list SocialPost :=
  merge_sort notBefore posts.

(** The pagination at the end of [ListPosts]. *)
Definition paginate (opts : ListPostsOptions) (allPosts : list SocialPost)
  : list SocialPost :=
  if (0 <? Offset opts) && (Z.of_nat (length allPosts) <=? Offset opts) then []
  else
    let allPosts := if 0 <? Offset opts then skipn (Z.to_nat (Offset opts)) allPosts
                    else allPosts in
    let limit := Limit opts in
    let limit := if limit <=? 0 then 10 else limit in
    let limit := if Z.of_nat (length allPosts) <? limit
                 then Z.of_nat (length allPosts) else limit in
    firstn (Z.to_nat limit) allPosts.

(** [ListPosts]. *)
Definition ListPosts (s : SocialMDStore) (f : fs.FS) (opts : ListPostsOptions)
  : result (list SocialPost) :=
  let postsDir := fs.Join2 (dataDir s) "posts" in
  match fs.Stat f postsDir with
  | fs.StNotExist => Ok []
  | _ =>
      match fs.ReadDir f postsDir with
      | None => Err ErrReadDir
      | Some dateDirs =>
          let allPosts := scanDateDirs f opts postsDir dateDirs [] in
          Ok (paginate opts (sortByDateDesc allPosts))
      end
  end.

(** What the function handed to [filepath.Walk] by [MarkSynced] does
    with one file. *)
Inductive visit :=
  | Continue                 (* return nil *)
  | Found (f' : fs.FS)       (* return errPostFound *)
  | Failed (e : error).      (* return err *)

Definition setSynced (fm : socialFrontmatter) : socialFrontmatter :=
  mkSocialFM (sfID fm) (sfAuthor fm) (sfTags fm) (sfCreatedAt fm) (sfParentPostID fm) true.

Definition visitFile (f : fs.FS) (postID path : string) : visit :=
  if negb (HasSuffix path ".md") then Continue
  else match fs.ReadFile f path with
       | None => Continue
       | Some data =>
           let '(yamlStr, body) := ParseFrontmatter data in
           if String.eqb yamlStr "" then Continue
           else match UnmarshalSocial yamlStr with
                | None => Continue
                | Some fm =>
                    if negb (String.eqb (sfID fm) postID) then Continue
                    else
                      match RenderSocial (setSynced fm) body with
                      | None => Failed ErrRender
                      | Some content =>
                          match fs.AtomicWrite f path content with
                          | None => Failed ErrWrite
                          | Some f' => Found f'
                          end
                      end
                end
       end.

(** The walk stops at the first file for which the function does not
    return nil. *)
Fixpoint walkLoop (f : fs.FS) (postID : string) (paths : list string) : visit :=
  match paths with
  | [] => Continue
  | path :: rest =>
      match visitFile f postID path with
      | Continue => walkLoop f postID rest
      | v => v
      end
  end.

(** [MarkSynced]: the file system afterwards and the error, if any. *)
Definition MarkSynced (s : SocialMDStore) (f : fs.FS) (postID : string)
  : fs.FS * option error :=
  let postsDir := fs.Join2 (dataDir s) "posts" in
  match walkLoop f postID (fs.WalkFiles f postsDir) with
  | Failed e => (f, Some e)
  | Found f' => (f', None)
  | Continue => (f, Some (ErrPostNotFound postID))
  end.

End WithCodec.

End social.

(** ** A small codec, to run the stores on concrete files

The metadata block stands between two lines [---], one [key: value]
pair a line; times are written as their instant in decimal. *)

Module refcodec.

Definition fence : string := "---".

Fixpoint untilFence (lines : list string) : option (list string * list string) :=
  match lines with
  | [] => None
  | l :: rest =>
      if String.eqb l fence then Some ([], rest)
      else match untilFence rest with
           | Some (ys, bs) => Some (l :: ys, bs)
           | None => None
           end
  end.

Definition unlines (ls : list string) : string :=
  fold_right (fun l acc => l +:+ NL +:+ acc) "" ls.

Definition parseFrontmatter (content : string) : string * string :=
  match Split nl content with
  | first :: rest =>
      if String.eqb first fence then
        match untilFence rest with
        | Some (ys, bs) => (unlines ys, Join bs NL)
        | None => ("", content)
        end
      else ("", content)
  | [] => ("", content)
  end.

Definition render (yamlStr body : string) : string :=
  fence +:+ NL +:+ yamlStr +:+ fence +:+ NL +:+ body.

Definition field (key value : string) : string := key +:+ ": " +:+ value +:+ NL.

(** The value of the first line [key: value]; the zero value when the key
    is absent. *)
Fixpoint lookupKey (key : string) (lines : list string) : string :=
  match lines with
  | [] => ""
  | l :: rest =>
      if HasPrefix l (key +:+ ": ") then TrimPrefix l (key +:+ ": ")
      else lookupKey key rest
  end.

Definition wellFormed (yamlStr : string) : bool :=
  forallb (fun l => String.eqb l "" || match String.index 0 ": " l with
                                        | Some _ => true
                                        | None => false
                                        end)
          (Split nl yamlStr).

Definition splitTags (s : string) : list string :=
  if String.eqb s "" then [] else Split "," s.

Definition renderJournal (fm : journalFrontmatter) (body : string) : option string :=
  Some (render (field "id" (jfID fm) +:+ field "date" (jfDate fm) +:+
                field "type" (jfType fm)) body).

Definition renderSocial (fm : socialFrontmatter) (body : string) : option string :=
  Some (render (field "id" (sfID fm) +:+ field "author" (sfAuthor fm) +:+
                (match sfTags fm with
                 | [] => ""
                 | tags => field "tags" (Join tags ",")
                 end) +:+
                field "created_at" (sfCreatedAt fm) +:+
                (if String.eqb (sfParentPostID fm) "" then ""
                 else field "parent_post_id" (sfParentPostID fm)) +:+
                field "synced" (if sfSynced fm then "true" else "false")) body).

Definition unmarshalJournal (yamlStr : string) : option journalFrontmatter :=
  if wellFormed yamlStr then
    let ls := Split nl yamlStr in
    Some (mkJournalFM (lookupKey "id" ls) (lookupKey "date" ls) (lookupKey "type" ls))
  else None.

Definition unmarshalSocial (yamlStr : string) : option socialFrontmatter :=
  if wellFormed yamlStr then
    let ls := Split nl yamlStr in
    Some (mkSocialFM (lookupKey "id" ls) (lookupKey "author" ls)
                     (splitTags (lookupKey "tags" ls)) (lookupKey "created_at" ls)
                     (lookupKey "parent_post_id" ls)
                     (String.eqb (lookupKey "synced" ls) "true"))
  else None.

Definition formatTime (t : Time) : string := decimal (instant t).

Definition parseTime (s : string) : option Time :=
  match list_ascii_of_string s with
  | [] => None
  | ds => match number 0 ds with
          | Some n => Some (mkTime n 0)
          | None => None
          end
  end.

Definition codec : Codec := {|
    ParseFrontmatter := parseFrontmatter;
    RenderJournal := renderJournal;
    RenderSocial := renderSocial;
    UnmarshalJournal := unmarshalJournal;
    UnmarshalSocial := unmarshalSocial;
    FormatTime := formatTime;
    ParseTime := parseTime
  |}.

End refcodec.

(** ** Auxiliary notions for the statements *)


(** A section text that the body of an entry keeps as it is: not empty, no
  white space around it, and no line that reads as a heading. *)
Definition noHeadingLine (v : string) : bool :=
  forallb (fun l => negb (HasPrefix l headingPrefix)) (Split nl v).



(** The sections that [renderSections] writes, in their order. *)
Definition presentSections (m : gmap string string) (names : list string)
  : list (string * string) :=
  omap (fun n => match m !! n with
                 | Some v => if String.eqb v "" then None else Some (n, v)
                 | None => None
                 end) names.

Definition sectionBlock (p : string * string) : string :=
  NL +:+ headingPrefix +:+ models.SectionTitle p.1 +:+ NL +:+ p.2 +:+ NL.

Fixpoint sectionBlocks (ps : list (string * string)) : string :=
  match ps with
  | [] => ""
  | p :: r => sectionBlock p +:+ sectionBlocks r
  end.



(** What is saved when the text ends after the state [st]: the lines of a
  body end with an empty piece. *)
Definition pending (st : parseState) : gmap string string :=
  saveSection (parseLine st "").

(** The posts that belong to a thread: those whose parent is the thread and
  the post that is the thread. *)
Definition inThread (threadID : string) (post : social.SocialPost) : bool :=
  match social.ParentPostID post with
  | Some p => String.eqb (uuid.String p) threadID
  | None => false
  end || String.eqb (uuid.String (social.ID post)) threadID.

(** Options that filter nothing. *)
Definition noFilters : social.ListPostsOptions := social.mkOptions 0 0 "" "" "".

Definition passesAll `{Codec} (opts : social.ListPostsOptions) (post : social.SocialPost) : bool :=
  social.passesAgent opts post && social.passesTag opts post && social.passesThread opts post.

(** The posts that [ListPosts] has gathered from the date directories when
  it comes to sort them: those that decode and pass the filters. *)
Definition collectPosts `{Codec} (s : social.SocialMDStore) (f : fs.FS)
    (opts : social.ListPostsOptions) : result (list social.SocialPost) :=
  let postsDir := fs.Join2 (social.dataDir s) "posts" in
  match fs.Stat f postsDir with
  | fs.StNotExist => Ok []
  | _ =>
      match fs.ReadDir f postsDir with
      | None => Err ErrReadDir
      | Some dateDirs => Ok (social.scanDateDirs f opts postsDir dateDirs [])
      end
  end.

(** The name that the two stores give to the file of a record. *)
Definition literalZeros : string := "000000".

Definition recordFileName (t : Time) (id : uuid.UUID) : string :=
  appendInt (Hour t) 2 +:+ "-" +:+ appendInt (Minute t) 2 +:+ "-" +:+
  appendInt (Second t) 2 +:+ "-" +:+ literalZeros +:+ "-" +:+
  String.substring 0 8 (uuid.String id) +:+ ".md".

Definition dateDirName (t : Time) : string :=
  appendInt (Year t) 4 +:+ "-" +:+ appendInt (Month t) 2 +:+ "-" +:+ appendInt (Day t) 2.

(** Where the two stores put a record: the root, the date directory and the
  file. *)
Definition journalRecordPath (s : journal.JournalMDStore) (entry : journal.JournalEntry)
  : string :=
  fs.Join2 (fs.Join2 (if String.eqb (journal.Type_ entry) "project"
                      then journal.projectPath s else journal.userPath s)
                     (dateDirName (journal.CreatedAt entry)))
           (recordFileName (journal.CreatedAt entry) (journal.ID entry)).

Definition socialRecordPath (s : social.SocialMDStore) (post : social.SocialPost) : string :=
  fs.Join2 (fs.Join2 (fs.Join2 (social.dataDir s) "posts")
                     (dateDirName (social.CreatedAt post)))
           (recordFileName (social.CreatedAt post) (social.ID post)).

(** The microseconds of a timestamp, as six digits. *)
Definition microsDigits (t : Time) : string := appendInt (Nanosecond t / 1000) 6.

(** The file name that carries the microseconds of the timestamp. *)
Definition fileNameWithMicros (t : Time) (id : uuid.UUID) : string :=
  appendInt (Hour t) 2 +:+ "-" +:+ appendInt (Minute t) 2 +:+ "-" +:+
  appendInt (Second t) 2 +:+ "-" +:+ microsDigits t +:+ "-" +:+
  String.substring 0 8 (uuid.String id) +:+ ".md".

(** ** Concrete records and stores for the examples *)

Module sample.

Definition id1 : uuid.UUID :=
  uuid.mkUUID (map ascii_of_nat
                 [1; 35; 69; 103; 137; 171; 205; 239; 0; 17; 34; 51; 68; 85; 102; 255]%nat).

Definition id2 : uuid.UUID :=
  uuid.mkUUID (map ascii_of_nat
                 [254; 220; 186; 152; 118; 84; 50; 16; 0; 17; 34; 51; 68; 85; 102; 119]%nat).

(** June 1, 2024, 12:30:45.123456 UTC. *)
Definition noon : Time := mkDate 2024 6 1 12 30 45 123456000 0.

Definition journalStore : journal.JournalMDStore :=
  journal.mkStore "/work/.private-journal" "/home/u/.private-journal".

Definition emptyDisk : fs.FS := fs.mkFS "/work" (fs.Dir []).

Definition feelings (text : string) : gmap string string := <["feelings" := text]> ∅.

Definition entry1 : journal.JournalEntry :=
  journal.mkEntry id1 (feelings "fine") noon "" "user".

Definition socialStore : social.SocialMDStore := social.mkStore "/data/social".

Definition post1 : social.SocialPost :=
  social.mkPost id1 "turbo_gecko" "Root post" ["test"] noon None false.

End sample.

(** ** Paths as lists of names *)

(** A name of a directory entry: not empty, not [.] or [..], no slash. *)
Fixpoint noSlash (s : string) : bool :=
  match s with
  | EmptyString => true
  | String c r => negb (Ascii.eqb c fs.slash) && noSlash r
  end.

Definition properName (seg : string) : Prop :=
  seg <> "" /\ seg <> "." /\ seg <> ".." /\ noSlash seg = true.

(** The absolute path made of the given names. *)
Definition pathOf (segs : list string) : string :=
  fs.Separator +:+ Join segs fs.Separator.

(** [inner] lies strictly inside [outer]: below it, and not the same. *)
Definition strictlyInside (outer inner : list string) : Prop :=
  exists rest, rest <> [] /\ inner = (outer ++ rest)%list.

(** The names of a path, each followed by a slash. *)
Fixpoint joinSlash (segs : list string) : string :=
  match segs with
  | [] => ""
  | s :: r => s +:+ fs.Separator +:+ joinSlash r
  end.

(** The path lies strictly inside the root, both taken as the names that
  they resolve to. *)
Definition insideRoot (f : fs.FS) (root path : string) : Prop :=
  strictlyInside (fs.resolve f root) (fs.resolve f path).

(** What [ReadEntry] does once the path is accepted. *)
Definition readAndDecode `{Codec} (f : fs.FS) (path : string) : result journal.JournalEntry :=
  match fs.ReadFile f (fs.Abs f path) with
  | None => Err ErrReadEntry
  | Some data => journal.parseJournalEntry (fs.Abs f path) data
  end.

Module sample2.

(** A store whose project root is the root of the file system. *)
Definition rootStore : journal.JournalMDStore :=
  journal.mkStore "/" "/home/u/.private-journal".

Definition projectEntry : journal.JournalEntry :=
  journal.mkEntry sample.id1 (sample.feelings "fine") sample.noon "" "project".

Definition writtenPath : string := "/2024-06-01/12-30-45-000000-01234567.md".

End sample2.

(** ** What a listing is expected to hold *)

Section JournalListing.
Context `{Codec}.

(** The entry decoded from one file of a date directory, if it is a
  markdown file that decodes. *)
Definition decodeFile (f : fs.FS) (dirPath : string) (file : fs.DirEntry)
  : list journal.JournalEntry :=
  if file.2 then []
  else if HasSuffix file.1 ".md" then
    match fs.ReadFile f (fs.Join2 dirPath file.1) with
    | Some data =>
        match journal.parseJournalEntry (fs.Join2 dirPath file.1) data with
        | Ok entry => [entry]
        | Err _ => []
        end
    | None => []
    end
  else [].

(** The decodable entries of the date directory [name] of a root. *)
Definition entriesOfDir (f : fs.FS) (root name : string) : list journal.JournalEntry :=
  match fs.ReadDir f (fs.Join2 root name) with
  | Some files => flat_map (decodeFile f (fs.Join2 root name)) files
  | None => []
  end.

(** The decodable entries under a root, from the directories whose name
  passes [keep]. *)
Definition entriesWhere (keep : string -> bool) (f : fs.FS) (root : string)
  : list journal.JournalEntry :=
  match fs.ReadDir f root with
  | Some dateDirs =>
      flat_map (fun d : fs.DirEntry =>
                  if d.2 && keep d.1 then entriesOfDir f root d.1 else []) dateDirs
  | None => []
  end.

(** All decodable entries under a root. *)
Definition entriesUnder (f : fs.FS) (root : string) : list journal.JournalEntry :=
  entriesWhere (fun _ => true) f root.

(** A root that can be listed: it is not there, or it is a directory. *)
Definition listable (f : fs.FS) (root : string) : bool :=
  match fs.Stat f root with
  | fs.StNotExist => true
  | fs.StNode (fs.Dir _) => true
  | _ => false
  end.

End JournalListing.



(** The limit of [ListEntries]. *)
Definition truncateTo {A} (limit : Z) (l : list A) : list A :=
  if 0 <? limit then firstn (Z.to_nat limit) l else l.

(** The first of the roots that cannot be listed. *)
Fixpoint firstUnlistable (f : fs.FS) (roots : list string) : option string :=
  match roots with
  | [] => None
  | root :: rest => if listable f root then firstUnlistable f rest else Some root
  end.

(** Strictly descending timestamps. *)
Definition strictlyAfter (a b : journal.JournalEntry) : Prop :=
  instant (journal.CreatedAt b) < instant (journal.CreatedAt a).

Module sample3.

(** A project entry and a user entry written at the same instant. *)
Definition userEntry : journal.JournalEntry :=
  journal.mkEntry sample.id1 (sample.feelings "from the user root") sample.noon "" "user".

Definition projectEntry : journal.JournalEntry :=
  journal.mkEntry sample.id2 (sample.feelings "from the project root") sample.noon "" "project".

Definition diskAfter (f : fs.FS) (e : journal.JournalEntry) : fs.FS :=
  match journal.WriteEntry (H := refcodec.codec) sample.journalStore f e with
  | Ok (f', _) => f'
  | Err _ => f
  end.

Definition disk : fs.FS := diskAfter (diskAfter sample.emptyDisk userEntry) projectEntry.

End sample3.

(** The instants of a list of entries. *)
Definition instants (l : list journal.JournalEntry) : list Z :=
  map (fun e => instant (journal.CreatedAt e)) l.


(** ** What [MarkSynced] looks for *)

Section SocialListing.
Context `{Codec}.

(** The test that the walk of [MarkSynced] makes on one file. *)
Definition matchesPost (f : fs.FS) (postID path : string) : bool :=
  HasSuffix path ".md" &&
  match fs.ReadFile f path with
  | Some data =>
      let '(yamlStr, _) := ParseFrontmatter data in
      negb (String.eqb yamlStr "") &&
      match UnmarshalSocial yamlStr with
      | Some fm => String.eqb (sfID fm) postID
      | None => false
      end
  | None => false
  end.

(** A post with its flag set. *)
Definition withSynced (post : social.SocialPost) : social.SocialPost :=
  social.mkPost (social.ID post) (social.AuthorName post) (social.Content post)
                (social.Tags post) (social.CreatedAt post) (social.ParentPostID post) true.

(** The post decoded from one file of a date directory, if it decodes and
  passes the filters. *)
Definition decodePostFile (f : fs.FS) (opts : social.ListPostsOptions) (dirPath : string)
                          (file : fs.DirEntry) : list social.SocialPost :=
  if file.2 then []
  else if HasSuffix file.1 ".md" then
    match fs.ReadFile f (fs.Join2 dirPath file.1) with
    | Some data =>
        match social.parseSocialPost data with
        | Ok post => if passesAll opts post then [post] else []
        | Err _ => []
        end
    | None => []
    end
  else [].

Definition postsOfDir (f : fs.FS) (opts : social.ListPostsOptions) (postsDir : string)
                      (d : fs.DirEntry) : list social.SocialPost :=
  if d.2 then
    match fs.ReadDir f (fs.Join2 postsDir d.1) with
    | Some files => flat_map (decodePostFile f opts (fs.Join2 postsDir d.1)) files
    | None => []
    end
  else [].

(** [post] is among the posts that [ListPosts] returns. *)
Definition listed (s : social.SocialMDStore) (f : fs.FS) (opts : social.ListPostsOptions)
                  (post : social.SocialPost) : Prop :=
  exists l, social.ListPosts s f opts = Ok l /\ In post l.

(** [post] is among the posts that [ListPosts] collects before it sorts and
  paginates. *)
Definition collected (s : social.SocialMDStore) (f : fs.FS) (opts : social.ListPostsOptions)
                     (post : social.SocialPost) : Prop :=
  exists l, collectPosts s f opts = Ok l /\ In post l.

End SocialListing.

(** What can be seen of a tree at a place: the listing of a directory and
  the content of a file. *)
Definition obsDir (segs : list string) (t : fs.node) : option (list fs.DirEntry) :=
  match fs.find segs t with
  | fs.StNode (fs.Dir es) => Some (map (fun e => (e.1, fs.IsDir e.2)) es)
  | _ => None
  end.

Definition obsFile (segs : list string) (t : fs.node) : option string :=
  match fs.find segs t with
  | fs.StNode (fs.File c) => Some c
  | _ => None
  end.

(** An element that [Clean] keeps in a path that is not rooted. *)
Definition keptName (seg : string) : Prop := seg = ".." \/ properName seg.

(** The root under which [WriteEntry] puts an entry. *)
Definition rootOf (s : journal.JournalMDStore) (entry : journal.JournalEntry) : string :=
  if String.eqb (journal.Type_ entry) "project" then journal.projectPath s
  else journal.userPath s.

Module sample4.


End sample4.

Module sample5.

(** What [WriteEntry] returns for the first sample entry. *)
Definition written : fs.FS * journal.JournalEntry :=
  match journal.WriteEntry (H := refcodec.codec) sample.journalStore sample.emptyDisk
                           sample.entry1 with
  | Ok p => p
  | Err _ => (sample.emptyDisk, sample.entry1)
  end.

(** The disk after [CreatePost] of the sample post. *)
Definition socialDisk : fs.FS :=
  match social.CreatePost (H := refcodec.codec) sample.socialStore sample.emptyDisk
                          sample.post1 with
  | Ok f => f
  | Err _ => sample.emptyDisk
  end.

Definition postFile : string :=
  "/data/social/posts/2024-06-01/12-30-45-000000-01234567.md".

Definition threadOptions : social.ListPostsOptions :=
  social.mkOptions 0 0 "" "" (uuid.String sample.id1).

(** A post file whose parent is not the text of an identifier. *)
Definition badParentFM : socialFrontmatter :=
  mkSocialFM (uuid.String sample.id1) "turbo_gecko" [] (refcodec.formatTime sample.noon)
             "not-a-uuid" false.

Definition badParentFile : string :=
  match refcodec.renderSocial badParentFM ("Reply" +:+ NL) with
  | Some c => c
  | None => ""
  end.

End sample5.

(** ** Further notions: names, pages, trees *)

(** A lower-case ASCII letter or a digit. *)
Definition isLowerAlnum (c : ascii) : bool :=
  let n := byteOf c in
  ((97 <=? n) && (n <=? 122) || (48 <=? n) && (n <=? 57))%N.

Fixpoint allBytes (p : ascii -> bool) (s : string) : bool :=
  match s with
  | EmptyString => true
  | String c r => p c && allBytes p r
  end.

(** A word of a section name: one or more lower-case letters and digits. *)
Definition nameWord (w : string) : Prop := w <> "" /\ allBytes isLowerAlnum w = true.

(** A snake_case name: words joined by single underscores. *)
Definition snakeCase (name : string) : Prop :=
  exists words, words <> [] /\ Forall nameWord words /\ name = Join words "_".

(** The key that the parser reads off a heading line. *)
Definition headingKey (line : string) : string :=
  models.SectionKey (TrimPrefix line headingPrefix).

(** [k] is the key of a heading line of [lines]. *)
Definition keyOfHeading (lines : list string) (k : string) : Prop :=
  exists line, In line lines /\ HasPrefix line headingPrefix = true /\ k = headingKey line.

(** What the parser has saved, and the section it is reading, after the
    lines [lines]. *)
Definition parsedWell (lines : list string) (st : parseState) : Prop :=
  (forall k v, psSections st !! k = Some v ->
               k <> "" /\ TrimSpace v = v /\ keyOfHeading lines k) /\
  (currentSection st = "" \/ keyOfHeading lines (currentSection st)).

(** The size of a page of [ListPosts]: the limit, or 10 when none is given. *)
Definition pageSize (opts : social.ListPostsOptions) : Z :=
  if social.Limit opts <=? 0 then 10 else social.Limit opts.

(** Options that ask for [limit] posts from [offset] on, without filters. *)
Definition pageOptions (offset limit : Z) : social.ListPostsOptions :=
  social.mkOptions limit offset "" "" "".

(** The first [k] pages of [n] posts, one after the other. *)
Definition firstPages (n : Z) (k : nat) (posts : list social.SocialPost)
  : list social.SocialPost :=
  concat (map (fun i => social.paginate (pageOptions (Z.of_nat i * n) n) posts) (seq 0 k)).

(** A post passes the filters that the options set. *)
Definition meetsFilters (opts : social.ListPostsOptions) (post : social.SocialPost) : Prop :=
  (social.AgentFilter opts <> "" -> social.AuthorName post = social.AgentFilter opts) /\
  (social.TagFilter opts <> "" -> In (social.TagFilter opts) (social.Tags post)) /\
  (social.ThreadID opts <> "" -> inThread (social.ThreadID opts) post = true).

(** ** Where a listed entry comes from *)

Section ListingNotions.
Context `{Codec}.

(** [e] is decoded from a markdown file of a date directory of [root]
  whose name passes [keep]. *)
Definition entryFrom (keep : string -> bool) (f : fs.FS) (root : string)
                     (e : journal.JournalEntry) : Prop :=
  exists dateDirs d files n data,
    fs.ReadDir f root = Some dateDirs /\ In (d, true) dateDirs /\ keep d = true /\
    fs.ReadDir f (fs.Join2 root d) = Some files /\ In (n, false) files /\
    HasSuffix n ".md" = true /\
    fs.ReadFile f (fs.Join2 (fs.Join2 root d) n) = Some data /\
    journal.parseJournalEntry (fs.Join2 (fs.Join2 root d) n) data = Ok e.

(** The cutoff of [ListEntries]: [now - days], or the zero time. *)
Definition cutoffOf (now : Time) (days : Z) : Time :=
  if 0 <? days then AddDays now (- days) else zeroTime.

(** The date directories that the cutoff lets through. *)
Definition keptBy (cutoff : Time) (name : string) : bool :=
  negb (journal.skipByCutoff cutoff name).

(** What [ListEntries] sorts: the entries of the selected roots, one root
  after the other. *)
Definition gathered (s : journal.JournalMDStore) (f : fs.FS) (now : Time)
                    (entryType : string) (days : Z) : list journal.JournalEntry :=
  flat_map (entriesWhere (keptBy (cutoffOf now days)) f) (journal.selectRoots s entryType).*1.

End ListingNotions.


(** ** What [CreatePost] writes and what is read back *)

Section PostNotions.
Context `{Codec}.

(** The frontmatter that [CreatePost] fills in for a post. *)
Definition postFrontmatter (post : social.SocialPost) : socialFrontmatter :=
  mkSocialFM (uuid.String (social.ID post)) (social.AuthorName post) (social.Tags post)
             (FormatTime (social.CreatedAt post))
             (match social.ParentPostID post with
              | Some p => uuid.String p
              | None => ""
              end)
             (social.Synced post).

End PostNotions.

(** The post as it is read back at the time [t]: its content comes
  trimmed. *)
Definition readBack (post : social.SocialPost) (t : Time) : social.SocialPost :=
  social.mkPost (social.ID post) (social.AuthorName post) (TrimSpace (social.Content post))
                (social.Tags post) t (social.ParentPostID post) (social.Synced post).

(** ** Well-formed trees *)

(** Every name in the tree is a proper file name: not empty, not [.] or
  [..], without a slash. *)
Fixpoint wfNode (n : fs.node) : Prop :=
  match n with
  | fs.File _ => True
  | fs.Dir es =>
      (fix wfEntries (es : list (string * fs.node)) : Prop :=
         match es with
         | [] => True
         | (name, c) :: r => properName name /\ wfNode c /\ wfEntries r
         end) es
  end.

(** The entry with another path recorded. *)
Definition withPath (e : journal.JournalEntry) (path : string) : journal.JournalEntry :=
  journal.mkEntry (journal.ID e) (journal.Sections e) (journal.CreatedAt e) path
                  (journal.Type_ e).


(** ** Two records in one second *)

(** Two timestamps that show the same date and the same second on the
  clock; they may differ below the second. *)
Definition sameSecond (t u : Time) : Prop :=
  dayNumber t = dayNumber u /\ secondOfDay t = secondOfDay u.

(** Two identifiers whose text starts with the same eight digits. *)
Definition samePrefix (a b : uuid.UUID) : Prop :=
  String.substring 0 8 (uuid.String a) = String.substring 0 8 (uuid.String b).

Module sample6.

(** An identifier that shares its first eight digits with [sample.id1]. *)
Definition id3 : uuid.UUID :=
  uuid.mkUUID (map ascii_of_nat
                 [1; 35; 69; 103; 0; 0; 0; 0; 0; 0; 0; 0; 0; 0; 0; 7]%nat).

(** Half a second after [sample.noon]. *)
Definition later : Time := mkTime (instant sample.noon + 500000000) 0.

Definition first : journal.JournalEntry :=
  journal.mkEntry sample.id1 (sample.feelings "first") sample.noon "" "user".

Definition second : journal.JournalEntry :=
  journal.mkEntry id3 (sample.feelings "second") later "" "user".

Definition afterFirst : fs.FS := sample3.diskAfter sample.emptyDisk first.

Definition afterSecond : fs.FS := sample3.diskAfter afterFirst second.

Definition path : string :=
  "/home/u/.private-journal/2024-06-01/12-30-45-000000-01234567.md".

End sample6.

(** ** internal/mcp/journal_tools.go: the tool [process_thoughts] *)

Module mcp.

(** A decoded JSON value, as far as the type assertion [val.(string)]
  tells them apart. *)
Inductive jsonValue :=
  | JString (s : string)
  | JOther.

(** What [handleProcessThoughts] answers.  The answer of the tool is a
  text made of these parts; the names of the sections stand in it in the
  order in which the map is visited, which Go leaves open, so they are
  kept as a set. *)
Inductive thoughtsResult :=
  | UnknownSections (keys : gset string)      (* unknown section(s): ... *)
  | NoSections                                (* at least one section is required *)
  | ProjectWriteFailed (e : error)            (* failed to write project entry *)
  | UserWriteFailed (e : error)               (* failed to write user entry *)
  | EntriesWritten (parts : list (string * gset string * string))
                   (remoteFailed : bool).     (* Journal entry written: ... *)

Section WithCodec.
Context `{Codec}.

(** The remote client, when there is one: [CreateJournalEntry], which
  tells whether the call went through. *)
Definition RemoteClient : Type := gmap string string -> Time -> bool.

(** One round of the loop that collects the sections and the unknown
  keys. *)
Definition collectStep (key : string) (val : jsonValue)
                       (acc : gset string * gmap string string)
  : gset string * gmap string string :=
  if negb (models.IsValidSection key) then ({[key]} ∪ acc.1, acc.2)
  else match val with
       | JString str => if negb (String.eqb str "") then (acc.1, <[key := str]> acc.2) else acc
       | JOther => acc
       end.

(** One round of the loop that splits the sections into the two
  buckets. *)
Definition splitStep (key val : string) (acc : gmap string string * gmap string string)
  : gmap string string * gmap string string :=
  if String.eqb key "project_notes" then (<[key := val]> acc.1, acc.2)
  else (acc.1, <[key := val]> acc.2).

(** [models.NewJournalEntry], with the identifier and the time that
  [uuid.New] and [time.Now] give. *)
Definition NewJournalEntry (sections : gmap string string) (entryType : string)
                           (id : uuid.UUID) (now : Time) : journal.JournalEntry :=
  journal.mkEntry id sections now "" entryType.

(** [handleProcessThoughts] on decoded arguments; [ids] and [times] are
  what [uuid.New] and [time.Now] give for the project entry and for the
  user entry, [timestamp] is the time read at the start. *)
Definition handleProcessThoughts (s : journal.JournalMDStore) (remote : option RemoteClient)
    (f : fs.FS) (args : gmap string jsonValue) (timestamp : Time)
    (idProject : uuid.UUID) (nowProject : Time) (idUser : uuid.UUID) (nowUser : Time)
  : fs.FS * thoughtsResult :=
  let '(unknownKeys, allSections) := map_fold collectStep (∅, ∅) args in
  if negb (bool_decide (unknownKeys = ∅)) then (f, UnknownSections unknownKeys)
  else if bool_decide (allSections = ∅) then (f, NoSections)
  else
    let '(projectSections, userSections) := map_fold splitStep (∅, ∅) allSections in
    let projectStep :=
      if negb (bool_decide (projectSections = ∅)) then
        match journal.WriteEntry s f (NewJournalEntry projectSections "project"
                                                      idProject nowProject) with
        | Err e => Err e
        | Ok (f1, entry) =>
            Ok (f1, [("project", dom projectSections, journal.FilePath entry)])
        end
      else Ok (f, []) in
    match projectStep with
    | Err e => (f, ProjectWriteFailed e)
    | Ok (f1, parts1) =>
        let userStep :=
          if negb (bool_decide (userSections = ∅)) then
            match journal.WriteEntry s f1 (NewJournalEntry userSections "user"
                                                           idUser nowUser) with
            | Err e => Err e
            | Ok (f2, entry) =>
                Ok (f2, (parts1 ++ [("user", dom userSections, journal.FilePath entry)])%list)
            end
          else Ok (f1, parts1) in
        match userStep with
        | Err e => (f1, UserWriteFailed e)
        | Ok (f2, parts2) =>
            let remoteFailed :=
              match remote with
              | Some createJournalEntry => negb (createJournalEntry allSections timestamp)
              | None => false
              end in
            (f2, EntriesWritten parts2 remoteFailed)
        end
    end.

End WithCodec.

End mcp.

(** The keys of the arguments that are no section names, and the sections
  that the arguments give: the non-empty strings under section names. *)
Definition unknownOf (args : gmap string mcp.jsonValue) : gset string :=
  filter (fun k => models.IsValidSection k = false) (dom args).

Definition sectionOfValue (v : mcp.jsonValue) : option string :=
  match v with
  | mcp.JString s => if String.eqb s "" then None else Some s
  | mcp.JOther => None
  end.

Definition sectionsOf (args : gmap string mcp.jsonValue) : gmap string string :=
  omap sectionOfValue (filter (fun kv => models.IsValidSection kv.1 = true) args).

(** The part of an answer that reports one written entry is right: the
  project entry holds the project notes alone and lies under the project
  root, the user entry holds the other sections and lies under the user
  root. *)
Definition routedPart (s : journal.JournalMDStore) (sections : gmap string string)
    (idProject : uuid.UUID) (nowProject : Time) (idUser : uuid.UUID) (nowUser : Time)
    (part : string * gset string * string) : Prop :=
  (part.1.1 = "project" /\ part.1.2 = {["project_notes"]} /\
   is_Some (sections !! "project_notes") /\
   part.2 = fs.Join2 (fs.Join2 (journal.projectPath s) (dateDirName nowProject))
                     (recordFileName nowProject idProject))
  \/
  (part.1.1 = "user" /\ part.1.2 = dom sections ∖ {["project_notes"]} /\
   part.1.2 <> ∅ /\
   part.2 = fs.Join2 (fs.Join2 (journal.userPath s) (dateDirName nowUser))
                     (recordFileName nowUser idUser)).

(** ** internal/mcp/journal_tools.go: the tool [search_journal] *)

(** [strings.Contains]. *)
Fixpoint Contains (s substr : string) : bool :=
  HasPrefix s substr ||
  match s with
  | EmptyString => false
  | String _ r => Contains r substr
  end.

Module search.

(** The decoded arguments of the tool. *)
Record Args := mkArgs {
  Query : string;
  Limit : Z;
  Type_ : string;
  Sections : list string
}.

Inductive searchResult :=
  | QueryRequired                                  (* query is required *)
  | ListFailed (e : error)                         (* failed to list entries *)
  | NoMatches                                      (* No matching entries found. *)
  | Matches (results : list journal.JournalEntry). (* the entries, one after the other *)

Section WithCodec.
Context `{Codec}.

(** [strings.ToLower], which maps the letters of all of Unicode, and the
  order in which a [range] statement visits a map of sections, which Go
  leaves open. *)
Variable toLower : string -> string.
Variable rangeSections : gmap string string -> list (string * string).

(** The loop over the sections of one entry; [true] when the entry is
  appended to the results. *)
Fixpoint sectionLoop (wanted : list string) (queryLower : string)
                     (pairs : list (string * string)) : bool :=
  match pairs with
  | [] => false
  | (sectionName, sectionContent) :: rest =>
      if (0 <? Z.of_nat (length wanted)) && negb (existsb (String.eqb sectionName) wanted)
      then sectionLoop wanted queryLower rest
      else if Contains (toLower sectionContent) queryLower then true
      else sectionLoop wanted queryLower rest
  end.

(** The loop over the entries. *)
Fixpoint entryLoop (limit : Z) (wanted : list string) (queryLower : string)
                   (entries results : list journal.JournalEntry)
  : list journal.JournalEntry :=
  match entries with
  | [] => results
  | entry :: rest =>
      if limit <=? Z.of_nat (length results) then results
      else if sectionLoop wanted queryLower (rangeSections (journal.Sections entry))
      then entryLoop limit wanted queryLower rest (results ++ [entry])%list
      else entryLoop limit wanted queryLower rest results
  end.

(** [handleSearchJournal] on decoded arguments. *)
Definition handleSearchJournal (s : journal.JournalMDStore) (f : fs.FS) (now : Time)
                               (args : Args) : searchResult :=
  if String.eqb (Query args) "" then QueryRequired
  else
    let limit := if Limit args <=? 0 then 10 else Limit args in
    let type := if String.eqb (Type_ args) "" then "both" else Type_ args in
    match journal.ListEntries s f now type 0 0 with
    | Err e => ListFailed e
    | Ok entries =>
        let queryLower := toLower (Query args) in
        let results := entryLoop limit (Sections args) queryLower entries [] in
        if Z.of_nat (length results) =? 0 then NoMatches else Matches results
    end.

End WithCodec.

End search.

(** An entry answers a search: one of its sections, among the wanted ones
  when some are wanted, holds the query, letter case apart. *)
Definition answers (toLower : string -> string) (wanted : list string) (queryLower : string)
                   (e : journal.JournalEntry) : Prop :=
  exists name content,
    journal.Sections e !! name = Some content /\
    (wanted = [] \/ In name wanted) /\
    Contains (toLower content) queryLower = true.

(** ** internal/tui/setup.go: the setup wizard *)

(** [strings.TrimRight] for a cutset of ASCII bytes. *)
Fixpoint inCutset (cutset : string) (c : ascii) : bool :=
  match cutset with
  | EmptyString => false
  | String d r => Ascii.eqb c d || inCutset r c
  end.

Fixpoint dropLeading (cutset : string) (s : string) : string :=
  match s with
  | EmptyString => EmptyString
  | String c r => if inCutset cutset c then dropLeading cutset r else s
  end.

Definition TrimRight (s cutset : string) : string :=
  GoStrings.rev (dropLeading cutset (GoStrings.rev s)).

Module tui.

Definition DefaultAPIURL : string := "https://botboard.biz/api/v1".

Inductive Step :=
  | StepAPIURL
  | StepTeamID
  | StepAPIKey
  | StepValidating
  | StepDone
  | StepFailed.

(** [tea.KeyMsg]: the type of the key and, for [KeyRunes], the runes,
  of which there is at least one. *)
Inductive KeyMsg :=
  | KeyCtrlC
  | KeyEscape
  | KeyEnter
  | KeyRunes (first : Z) (more : list Z)
  | KeyOther (code : Z).

Inductive Msg :=
  | MsgKey (k : KeyMsg)
  | MsgValidationResult (err : option string)    (* validationResultMsg *)
  | MsgSpinnerTick                               (* spinner.TickMsg *)
  | MsgOther.

(** The commands that [Update] hands back to the runtime. *)
Inductive Cmd :=
  | CmdNil
  | CmdQuit                                      (* tea.Quit *)
  | CmdBlink                                     (* textinput.Blink *)
  | CmdValidate (apiURL apiKey teamID : string)  (* tea.Batch(startValidation, spinner.Tick) *)
  | CmdInput                                     (* the command of the text input *)
  | CmdSpinner.                                  (* the command of the spinner *)

(** [SetupModel]: the step, the values of the three inputs, the error of
  the last validation and the quitting flag.  The cursor and the focus of
  the inputs and the frame of the spinner only matter to the view. *)
Record SetupModel := mkModel {
  step : Step;
  apiURLValue : string;     (* inputs[0].Value() *)
  teamIDValue : string;     (* inputs[1].Value() *)
  apiKeyValue : string;     (* inputs[2].Value() *)
  validationErr : option string;
  quitting : bool
}.

Section WithInput.

(** [textinput.Model.Update]: what a key does to the value of an input. *)
Variable inputUpdate : string -> KeyMsg -> string.

Definition NewSetupModel (apiURL teamID apiKey : string) : SetupModel :=
  mkModel StepAPIURL apiURL teamID apiKey None false.

Definition updateInput (m : SetupModel) (msg : KeyMsg) : SetupModel * Cmd :=
  match msg with
  | KeyEnter =>
      (* Apply default API URL if empty, and normalize trailing slashes *)
      let m :=
        match step m with
        | StepAPIURL =>
            let val := apiURLValue m in
            if String.eqb val "" then
              mkModel (step m) DefaultAPIURL (teamIDValue m) (apiKeyValue m)
                      (validationErr m) (quitting m)
            else
              let val := TrimRight val "/" in
              let val := TrimSuffix val "/v1" in
              mkModel (step m) val (teamIDValue m) (apiKeyValue m)
                      (validationErr m) (quitting m)
        | _ => m
        end in
      match step m with
      | StepAPIURL =>
          (mkModel StepTeamID (apiURLValue m) (teamIDValue m) (apiKeyValue m)
                   (validationErr m) (quitting m), CmdBlink)
      | StepTeamID =>
          if String.eqb (teamIDValue m) "" then (m, CmdNil)
          else (mkModel StepAPIKey (apiURLValue m) (teamIDValue m) (apiKeyValue m)
                        (validationErr m) (quitting m), CmdBlink)
      | StepAPIKey =>
          if String.eqb (apiKeyValue m) "" then (m, CmdNil)
          else (mkModel StepValidating (apiURLValue m) (teamIDValue m) (apiKeyValue m)
                        (validationErr m) (quitting m),
                CmdValidate (apiURLValue m) (apiKeyValue m) (teamIDValue m))
      | _ => (m, CmdInput)
      end
  | _ =>
      (* Forward to the active input *)
      match step m with
      | StepAPIURL =>
          (mkModel (step m) (inputUpdate (apiURLValue m) msg) (teamIDValue m) (apiKeyValue m)
                   (validationErr m) (quitting m), CmdInput)
      | StepTeamID =>
          (mkModel (step m) (apiURLValue m) (inputUpdate (teamIDValue m) msg) (apiKeyValue m)
                   (validationErr m) (quitting m), CmdInput)
      | StepAPIKey =>
          (mkModel (step m) (apiURLValue m) (teamIDValue m) (inputUpdate (apiKeyValue m) msg)
                   (validationErr m) (quitting m), CmdInput)
      | _ => (m, CmdInput)
      end
  end.

Definition updateFailed (m : SetupModel) (msg : KeyMsg) : SetupModel * Cmd :=
  match msg with
  | KeyRunes first _ =>
      if first =? 114 (* 'r' *) then
        (mkModel StepValidating (apiURLValue m) (teamIDValue m) (apiKeyValue m) None
                 (quitting m),
         CmdValidate (apiURLValue m) (apiKeyValue m) (teamIDValue m))
      else if first =? 115 (* 's' *) then
        (mkModel StepDone (apiURLValue m) (teamIDValue m) (apiKeyValue m)
                 (validationErr m) (quitting m), CmdQuit)
      else if first =? 113 (* 'q' *) then
        (mkModel (step m) (apiURLValue m) (teamIDValue m) (apiKeyValue m)
                 (validationErr m) true, CmdQuit)
      else (m, CmdNil)
  | _ => (m, CmdNil)
  end.

Definition Update (m : SetupModel) (msg : Msg) : SetupModel * Cmd :=
  match msg with
  | MsgKey k =>
      match k with
      | KeyCtrlC | KeyEscape =>
          (mkModel (step m) (apiURLValue m) (teamIDValue m) (apiKeyValue m)
                   (validationErr m) true, CmdQuit)
      | _ =>
          match step m with
          | StepAPIURL | StepTeamID | StepAPIKey => updateInput m k
          | StepFailed => updateFailed m k
          | _ => (m, CmdNil)
          end
      end
  | MsgValidationResult None =>
      (mkModel StepDone (apiURLValue m) (teamIDValue m) (apiKeyValue m)
               (validationErr m) (quitting m), CmdQuit)
  | MsgValidationResult (Some e) =>
      (mkModel StepFailed (apiURLValue m) (teamIDValue m) (apiKeyValue m)
               (Some e) (quitting m), CmdNil)
  | MsgSpinnerTick =>
      match step m with
      | StepValidating => (m, CmdSpinner)
      | _ => (m, CmdNil)
      end
  | MsgOther => (m, CmdNil)
  end.

Definition Result (m : SetupModel) : string * string * string :=
  (apiURLValue m, teamIDValue m, apiKeyValue m).

Definition ShouldSave (m : SetupModel) : bool :=
  match step m with
  | StepDone => negb (quitting m)
  | _ => false
  end.

(** The wizard under the runtime: the model and the number of
  validations that have been started and not yet answered.  The runtime
  hands any key, tick or other message to [Update] at any time; a
  validation result comes only as the answer to a validation that
  [Update] has started. *)
Definition started (c : Cmd) : nat :=
  match c with
  | CmdValidate _ _ _ => 1%nat
  | _ => 0%nat
  end.

Inductive runs : SetupModel * nat -> SetupModel * nat -> Prop :=
  | runs_message m pending msg :
      (forall err, msg <> MsgValidationResult err) ->
      runs (m, pending) ((Update m msg).1, (pending + started (Update m msg).2)%nat)
  | runs_answer m pending err :
      runs (m, S pending) ((Update m (MsgValidationResult err)).1, pending).

Inductive reaches : SetupModel * nat -> SetupModel * nat -> Prop :=
  | reaches_refl st : reaches st st
  | reaches_step st st' st'' : reaches st st' -> runs st' st'' -> reaches st st''.

End WithInput.

End tui.

(** ** internal/storage/remote_client.go: the client and its URL *)

Module remote.

(** [RemoteClient], without its HTTP client. *)
Record RemoteClient := mkClient {
  apiURL : string;
  apiKey : string;
  teamID : string
}.

Definition NewRemoteClient (apiURL apiKey teamID : string) : RemoteClient :=
  let apiURL := TrimRight apiURL "/" in
  let apiURL := TrimSuffix apiURL "/v1" in
  mkClient apiURL apiKey teamID.

(** The address of a team's resource, as the requests build it. *)
Definition endpoint (r : RemoteClient) (resource : string) : string :=
  apiURL r +:+ "/teams/" +:+ teamID r +:+ resource.

End remote.

(** [k] slashes. *)
Fixpoint slashes (k : nat) : string :=
  match k with
  | O => ""
  | S k' => "/" +:+ slashes k'
  end.

(** The state of the wizard's invariant: past the team step the team
  identifier is not empty, past the key step the key is not empty, and a
  validation is only awaited past the key step. *)
Definition pastTeam (st : tui.Step) : bool :=
  match st with
  | tui.StepAPIURL | tui.StepTeamID => false
  | _ => true
  end.

Definition pastKey (st : tui.Step) : bool :=
  match st with
  | tui.StepValidating | tui.StepDone | tui.StepFailed => true
  | _ => false
  end.

Definition credentialsKept (st : tui.SetupModel * nat) : Prop :=
  (pastTeam (tui.step st.1) = true -> tui.teamIDValue st.1 <> "") /\
  (pastKey (tui.step st.1) = true -> tui.apiKeyValue st.1 <> "") /\
  ((0 < st.2)%nat -> pastKey (tui.step st.1) = true).

Module sample7.

(** A text input that appends the first rune of a key, read as a byte. *)
Definition typing (value : string) (k : tui.KeyMsg) : string :=
  match k with
  | tui.KeyRunes first _ => value +:+ String (ascii_of_N (Z.to_N first)) ""
  | _ => value
  end.

Definition typed (c : Z) : tui.Msg := tui.MsgKey (tui.KeyRunes c []).

Definition enter : tui.Msg := tui.MsgKey tui.KeyEnter.

(** The model after the messages, and the validations started on the
  way. *)
Definition after (msgs : list tui.Msg) (st : tui.SetupModel * nat) : tui.SetupModel * nat :=
  fold_left (fun st msg => ((tui.Update typing st.1 msg).1,
                            (st.2 + tui.started (tui.Update typing st.1 msg).2)%nat))
            msgs st.

End sample7.

Module sample8.

(** Enter for the default URL, a team [t], a key [k], and the validation
  that follows goes through. *)
Definition keys : list tui.Msg :=
  [sample7.enter; sample7.typed 116; sample7.enter; sample7.typed 107; sample7.enter].

Definition validating : tui.SetupModel * nat :=
  sample7.after keys (tui.NewSetupModel "" "" "", 0%nat).

Definition done : tui.SetupModel :=
  (tui.Update sample7.typing validating.1 (tui.MsgValidationResult None)).1.

End sample8.

(** ** internal/embeddings/search.go *)

Module embeddings.

(** [SearchOptions]. *)
Record SearchOptions := mkOptions {
  Limit : Z;
  Type_ : string;              (* "project", "user", or "both" *)
  Sections : list string       (* section name filter *)
}.

Inductive searchError :=
  | ErrEmbed        (* the error of embedder.Embed *)
  | ErrMarshal      (* the error of json.Marshal *)
  | ErrWriteFile.   (* the error of mdstore.AtomicWrite *)

Section WithEmbedder.

(** The vectors are slices of [float32] and the scores are [float64];
  [CosineSimilarity] computes on them in floating point, and [sort.Slice]
  compares the scores with [>].  The embedder, the JSON codec of the
  sidecars and the order in which a map of sections is visited lie outside
  the repository.  The search and the writing of sidecars are defined
  over any of them. *)
Variable Vector : Type.
Variable Score : Type.
Variable CosineSimilarity : Vector -> Vector -> Score.
Variable greater : Score -> Score -> bool.
Variable Embed : string -> option Vector.
Variable rangeSections : gmap string string -> list (string * string).

(** [models.Embedding]. *)
Record Embedding := mkEmbedding {
  embVector : Vector;
  embText : string;
  embSections : list string;
  embTimestamp : Z;
  embPath : string
}.

Variable Marshal : Embedding -> option string.
Variable Unmarshal : string -> option Embedding.

(** [SearchResult]; the entry is a pointer. *)
Record SearchResult := mkResult {
  Entry : option journal.JournalEntry;
  ResultScore : Score;
  Path : string
}.

(** The section filter: one of the wanted names is among the names of the
  sidecar. *)
Definition sectionMatch (wanted have : list string) : bool :=
  existsb (fun s => existsb (fun es => String.eqb s es) have) wanted.

(** What the function handed to [filepath.Walk] adds for one file. *)
Definition visitSidecar (f : fs.FS) (opts : SearchOptions) (queryVec : Vector)
                        (path : string) : list SearchResult :=
  if negb (HasSuffix path ".embedding") then []
  else match fs.ReadFile f path with
       | None => []
       | Some data =>
           match Unmarshal data with
           | None => []
           | Some emb =>
               if (0 <? Z.of_nat (length (Sections opts)))
                  && negb (sectionMatch (Sections opts) (embSections emb))
               then []
               else [mkResult None (CosineSimilarity queryVec (embVector emb)) (embPath emb)]
           end
       end.

(** The loop over the roots. *)
Fixpoint searchRoots (f : fs.FS) (opts : SearchOptions) (queryVec : Vector)
                     (roots : list string) (results : list SearchResult)
  : list SearchResult :=
  match roots with
  | [] => results
  | root :: rest =>
      match fs.Stat f root with
      | fs.StNotExist => searchRoots f opts queryVec rest results
      | _ =>
          searchRoots f opts queryVec rest
            (fold_left (fun acc path => (acc ++ visitSidecar f opts queryVec path)%list)
                       (fs.WalkFiles f root) results)
      end
  end.

(** The order of [sort.Slice] with [less = Score > Score]: no result has
  a greater score than one that comes before it. *)
Definition notGreater (a b : SearchResult) : Prop :=
  greater (ResultScore b) (ResultScore a) = false.

Global Instance notGreater_dec : RelDecision notGreater.
Proof. intros a b. unfold notGreater. apply _. Defined.

(** [SearchWithEmbeddings]. *)
Definition SearchWithEmbeddings (f : fs.FS) (roots : list string) (query : string)
                                (opts : SearchOptions) : option (list SearchResult) :=
  match Embed query with
  | None => None
  | Some queryVec =>
      let results := searchRoots f opts queryVec roots [] in
      let results := merge_sort notGreater results in
      let limit := Limit opts in
      let limit := if limit <=? 0 then 10 else limit in
      let limit := if Z.of_nat (length results) <? limit
                   then Z.of_nat (length results) else limit in
      Some (firstn (Z.to_nat limit) results)
  end.

(** [WriteEmbedding]; [unixNow] is [time.Now().Unix()]. *)
Definition WriteEmbedding (f : fs.FS) (mdPath : string) (sections : gmap string string)
                          (unixNow : Z) : fs.FS + searchError :=
  let kept := List.filter (fun p : string * string => negb (String.eqb p.2 ""))
                          (rangeSections sections) in
  let parts := map snd kept in
  let sectionNames := map fst kept in
  let text := Join parts (NL +:+ NL) in
  match Embed text with
  | None => inr ErrEmbed
  | Some vector =>
      let emb := mkEmbedding vector text sectionNames unixNow mdPath in
      match Marshal emb with
      | None => inr ErrMarshal
      | Some data =>
          let embPath := TrimSuffix mdPath ".md" +:+ ".embedding" in
          match fs.AtomicWrite f embPath data with
          | None => inr ErrWriteFile
          | Some f' => inl f'
          end
      end
  end.

(** Where a result of the search comes from: a sidecar below one of the
  roots that decodes and passes the section filter. *)
Definition resultFrom (f : fs.FS) (roots : list string) (opts : SearchOptions)
                      (queryVec : Vector) (r : SearchResult) : Prop :=
  exists root path data emb,
    In root roots /\ In path (fs.WalkFiles f root) /\
    HasSuffix path ".embedding" = true /\
    fs.ReadFile f path = Some data /\ Unmarshal data = Some emb /\
    (Sections opts = [] \/
     exists name, In name (Sections opts) /\ In name (embSections emb)) /\
    r = mkResult None (CosineSimilarity queryVec (embVector emb)) (embPath emb).

End WithEmbedder.

Arguments mkEmbedding {Vector}.
Arguments embVector {Vector}.
Arguments embText {Vector}.
Arguments embSections {Vector}.
Arguments embTimestamp {Vector}.
Arguments embPath {Vector}.
Arguments mkResult {Score}.
Arguments Entry {Score}.
Arguments ResultScore {Score}.
Arguments Path {Score}.
Arguments visitSidecar {Vector Score}.
Arguments searchRoots {Vector Score}.
Arguments notGreater {Score}.
Arguments SearchWithEmbeddings {Vector Score}.
Arguments WriteEmbedding {Vector}.
Arguments resultFrom {Vector Score}.

End embeddings.

(** ** A sidecar beside a listed journal *)

Module sample9.

(** An embedder with one number for a vector and a fixed encoding of the
  sidecar. *)
Definition embed (text : string) : option Z := Some (Z.of_nat (String.length text)).

Definition marshal (e : embeddings.Embedding Z) : option string :=
  Some (embeddings.embText e).

Definition mdPath : string :=
  "/home/u/.private-journal/2024-06-01/12-30-45-000000-01234567.md".

Definition range (sections : gmap string string) : list (string * string) :=
  map_to_list sections.

(** The decoding that goes with [marshal]: the text tells the vector. *)
Definition unmarshal (data : string) : option (embeddings.Embedding Z) :=
  if String.eqb data "" then None
  else Some (embeddings.mkEmbedding (Z.of_nat (String.length data)) data ["feelings"]
                                    1717245045 mdPath).

(** The disk of [sample3] with the sidecar of the user entry. *)
Definition disk : fs.FS :=
  match embeddings.WriteEmbedding embed range marshal sample3.disk mdPath
          (sample.feelings "from the user root") 1717245045 with
  | inl f' => f'
  | inr _ => sample3.disk
  end.

End sample9.

(** * Properties *)

(** ** Strings *)

Section StringFacts.

Lemma app_cons_s c a b : String c a +:+ b = String c (a +:+ b).
Proof. reflexivity. Qed.

Lemma app_nil_l_s b : "" +:+ b = b.
Proof. reflexivity. Qed.

Lemma app_nil_r_s a : a +:+ "" = a.
Proof. induction a as [|c a IH]; [reflexivity|]. rewrite app_cons_s, IH. reflexivity. Qed.

Lemma app_assoc_s a b c : (a +:+ b) +:+ c = a +:+ (b +:+ c).
Proof.
  induction a as [|x a IH]; [reflexivity|].
  rewrite !app_cons_s, IH. reflexivity.
Qed.

Lemma length_app_s a b :
  String.length (a +:+ b) = (String.length a + String.length b)%nat.
Proof.
  induction a as [|x a IH]; [reflexivity|].
  rewrite app_cons_s. simpl. rewrite IH. reflexivity.
Qed.

Lemma NL_app s : NL +:+ s = String nl s.
Proof. reflexivity. Qed.

Lemma rev_app_spec a b : String.rev_app a b = String.rev_app a "" +:+ b.
Proof.
  revert b. induction a as [|x a IH]; intros b; [reflexivity|].
  simpl. rewrite IH. rewrite (IH (String x "")).
  rewrite app_assoc_s. reflexivity.
Qed.

Lemma srev_cons c s : rev (String c s) = rev s +:+ String c "".
Proof. unfold rev, String.rev. simpl. apply rev_app_spec. Qed.

Lemma srev_app_distr a b : rev (a +:+ b) = rev b +:+ rev a.
Proof.
  induction a as [|x a IH].
  - rewrite app_nil_l_s. symmetry. apply app_nil_r_s.
  - rewrite app_cons_s, !srev_cons, IH, app_assoc_s. reflexivity.
Qed.

Lemma srev_involutive s : rev (rev s) = s.
Proof.
  induction s as [|x s IH]; [reflexivity|].
  rewrite srev_cons, srev_app_distr, IH. reflexivity.
Qed.



Lemma HasPrefix_app p s : HasPrefix (p +:+ s) p = true.
Proof.
  induction p as [|x p IH]; [reflexivity|].
  rewrite app_cons_s. simpl. rewrite Ascii.eqb_refl. exact IH.
Qed.

Lemma HasPrefix_spec s p : HasPrefix s p = true <-> exists r, s = p +:+ r.
Proof.
  revert s. induction p as [|x p IH]; intros s.
  - split; [intros _; exists s; reflexivity | reflexivity].
  - destruct s as [|y s]; simpl.
    + split; [discriminate | intros [r Hr]; discriminate].
    + destruct (Ascii.eqb_spec x y) as [->|Hne].
      * rewrite IH. split; intros [r Hr]; exists r.
        -- rewrite app_cons_s. congruence.
        -- rewrite app_cons_s in Hr. congruence.
      * split; [discriminate|]. intros [r Hr]. rewrite app_cons_s in Hr. congruence.
Qed.

(** *** [Split] *)

Lemma Split_nonempty sep s : Split sep s <> [].
Proof.
  destruct s as [|c s]; simpl; [discriminate|].
  destruct (Ascii.eqb c sep); [discriminate|].
  destruct (Split sep s); discriminate.
Qed.

Lemma Split_app sep a b :
  Split sep (a +:+ String sep b) = (Split sep a ++ Split sep b)%list.
Proof.
  induction a as [|c a IH].
  - rewrite app_nil_l_s. simpl. rewrite Ascii.eqb_refl. reflexivity.
  - rewrite app_cons_s. simpl. destruct (Ascii.eqb c sep).
    + rewrite IH. reflexivity.
    + rewrite IH. destruct (Split sep a) as [|h t] eqn:E.
      * exfalso. exact (Split_nonempty _ _ E).
      * reflexivity.
Qed.


(** *** [TrimSpace] *)











End StringFacts.

(** ** The body of a journal entry *)

Section SectionsRoundTrip.








Lemma presentSections_cons m n names :
  presentSections m (n :: names)
  = match m !! n with
    | Some v => if String.eqb v "" then presentSections m names
                else (n, v) :: presentSections m names
    | None => presentSections m names
    end.
Proof.
  unfold presentSections. cbn [omap list_omap].
  destruct (m !! n) as [v|]; [|reflexivity].
  destruct (String.eqb v ""); reflexivity.
Qed.

Lemma render_fold m names sb :
  fold_left (renderStep m) names sb = sb +:+ sectionBlocks (presentSections m names).
Proof.
  revert sb. induction names as [|n names IH]; intros sb.
  - simpl. rewrite app_nil_r_s. reflexivity.
  - cbn [fold_left]. rewrite IH, presentSections_cons. unfold renderStep.
    destruct (m !! n) as [v|]; [|reflexivity].
    destruct (String.eqb v ""); [reflexivity|].
    cbn [sectionBlocks]. unfold sectionBlock. cbn [fst snd].
    rewrite !app_assoc_s. reflexivity.
Qed.

Lemma renderSections_blocks m :
  renderSections m = sectionBlocks (presentSections m models.ValidSections).
Proof. unfold renderSections. rewrite render_fold. reflexivity. Qed.








End SectionsRoundTrip.

(** ** Identifiers *)

Section UUIDFacts.

Lemma xtob_hexByte c :
  uuid.xtob (uuid.hexDigit (byteOf c / 16)) (uuid.hexDigit (byteOf c mod 16)) = Some c.
Proof. destruct c as [[] [] [] [] [] [] [] []]; reflexivity. Qed.

(** An identifier is read back from its textual form. *)
Lemma Parse_String u : uuid.wf u -> uuid.Parse (uuid.String u) = Some u.
Proof.
  destruct u as [b]. unfold uuid.wf. cbn [uuid.bytes]. intros Hlen.
  do 17 (destruct b as [|? b]; try discriminate Hlen). clear Hlen.
  cbv -[uuid.xtob uuid.hexDigit byteOf N.div N.modulo].
  rewrite !xtob_hexByte. reflexivity.
Qed.

Lemma String_length u : uuid.wf u -> String.length (uuid.String u) = 36%nat.
Proof.
  destruct u as [b]. unfold uuid.wf. cbn [uuid.bytes]. intros Hlen.
  do 17 (destruct b as [|? b]; try discriminate Hlen). reflexivity.
Qed.

End UUIDFacts.

(** ** The layout of paths *)

Section PathLayout.
Context `{Codec}.

Lemma FormatStr_date t : FormatStr t "2006-01-02" = dateDirName t.
Proof.
  unfold FormatStr, Format.
  change (chunks "2006-01-02")
    with [stdLongYear; Lit "-"; stdZeroMonth; Lit "-"; stdZeroDay].
  cbn [formatChunks formatChunk]. unfold dateDirName.
  rewrite ?app_assoc_s, ?app_cons_s, ?app_nil_l_s, ?app_nil_r_s. reflexivity.
Qed.

Lemma FormatStr_time t :
  FormatStr t "15-04-05-000000"
  = appendInt (Hour t) 2 +:+ "-" +:+ appendInt (Minute t) 2 +:+ "-" +:+
    appendInt (Second t) 2 +:+ "-" +:+ literalZeros.
Proof.
  unfold FormatStr, Format.
  change (chunks "15-04-05-000000")
    with [stdHour; Lit "-"; stdZeroMinute; Lit "-"; stdZeroSecond; Lit "-";
          Lit "0"; Lit "0"; Lit "0"; Lit "0"; Lit "0"; Lit "0"].
  cbn [formatChunks formatChunk].
  rewrite ?app_assoc_s, ?app_cons_s, ?app_nil_l_s, ?app_nil_r_s. reflexivity.
Qed.

(** With a point before the zeros the layout would name the
    microseconds. *)
Example Format_fraction_needs_point :
  Format (mkDate 2024 6 1 12 30 45 123456789 0) "15-04-05.000000" = Some "12-30-45.123456"
  /\ Format (mkDate 2024 6 1 12 30 45 123456789 0) "15-04-05-000000" = Some "12-30-45-000000".
Proof. split; vm_compute; reflexivity. Qed.

Lemma recordFileName_layout t id :
  FormatStr t "15-04-05-000000" +:+ "-" +:+ String.substring 0 8 (uuid.String id) +:+ ".md"
  = recordFileName t id.
Proof.
  rewrite FormatStr_time. unfold recordFileName. rewrite ?app_assoc_s. reflexivity.
Qed.

Lemma WriteEntry_layout s f entry :
  journal.WriteEntry s f entry
  = match RenderJournal (mkJournalFM (uuid.String (journal.ID entry))
                                     (FormatTime (journal.CreatedAt entry))
                                     (journal.Type_ entry))
                        (renderSections (journal.Sections entry)) with
    | None => Err ErrRender
    | Some content =>
        match fs.AtomicWrite f (journalRecordPath s entry) content with
        | None => Err ErrWrite
        | Some f' =>
            Ok (f', journal.mkEntry (journal.ID entry) (journal.Sections entry)
                                    (journal.CreatedAt entry) (journalRecordPath s entry)
                                    (journal.Type_ entry))
        end
    end.
Proof.
  unfold journal.WriteEntry, journalRecordPath.
  rewrite FormatStr_date, recordFileName_layout. reflexivity.
Qed.

Lemma WriteEntry_path s f entry f' entry' :
  journal.WriteEntry s f entry = Ok (f', entry') ->
  journal.FilePath entry' = journalRecordPath s entry.
Proof.
  rewrite WriteEntry_layout.
  destruct (RenderJournal _ _) as [content|]; [|discriminate].
  destruct (fs.AtomicWrite _ _ _) as [f1|]; [|discriminate].
  intros [= <- <-]. reflexivity.
Qed.

Lemma CreatePost_layout s f post :
  social.CreatePost s f post
  = match RenderSocial (mkSocialFM (uuid.String (social.ID post)) (social.AuthorName post)
                                   (social.Tags post)
                                   (FormatTime (social.CreatedAt post))
                                   (match social.ParentPostID post with
                                    | Some p => uuid.String p
                                    | None => ""
                                    end)
                                   (social.Synced post))
                       (social.Content post +:+ NL) with
    | None => Err ErrRender
    | Some content =>
        match fs.AtomicWrite f (socialRecordPath s post) content with
        | None => Err ErrWrite
        | Some f' => Ok f'
        end
    end.
Proof.
  unfold social.CreatePost, socialRecordPath.
  rewrite FormatStr_date, recordFileName_layout. reflexivity.
Qed.

End PathLayout.

(** C5: [WriteEntry] and [CreatePost] write their record at the root (the
  posts below [posts/]), in the date directory [YYYY-MM-DD] of the
  timestamp, in a file named after the time of day, the first eight
  digits of the identifier and [.md].  The field that the claim calls
  the microseconds is, in both stores, the six bytes [000000] of the
  layout [15-04-05-000000]: Go reads fractional seconds in a layout only
  behind a point or a comma.  At 12:30:45.123456 the file is named
  [12-30-45-000000-01234567.md], not [12-30-45-123456-01234567.md]. *)
Theorem C5_time_field_is_literal_zeros :
  (forall (C : Codec) s f entry,
      journal.WriteEntry s f entry
      = match RenderJournal (mkJournalFM (uuid.String (journal.ID entry))
                                         (FormatTime (journal.CreatedAt entry))
                                         (journal.Type_ entry))
                            (renderSections (journal.Sections entry)) with
        | None => Err ErrRender
        | Some content =>
            match fs.AtomicWrite f (journalRecordPath s entry) content with
            | None => Err ErrWrite
            | Some f' =>
                Ok (f', journal.mkEntry (journal.ID entry) (journal.Sections entry)
                                        (journal.CreatedAt entry) (journalRecordPath s entry)
                                        (journal.Type_ entry))
            end
        end) /\
  (forall (C : Codec) s f post,
      social.CreatePost s f post
      = match RenderSocial (mkSocialFM (uuid.String (social.ID post))
                                       (social.AuthorName post) (social.Tags post)
                                       (FormatTime (social.CreatedAt post))
                                       (match social.ParentPostID post with
                                        | Some p => uuid.String p
                                        | None => ""
                                        end)
                                       (social.Synced post))
                           (social.Content post +:+ NL) with
        | None => Err ErrRender
        | Some content =>
            match fs.AtomicWrite f (socialRecordPath s post) content with
            | None => Err ErrWrite
            | Some f' => Ok f'
            end
        end) /\
  (forall t id,
      recordFileName t id
      = appendInt (Hour t) 2 +:+ "-" +:+ appendInt (Minute t) 2 +:+ "-" +:+
        appendInt (Second t) 2 +:+ "-000000-" +:+
        String.substring 0 8 (uuid.String id) +:+ ".md") /\
  (exists f' entry',
      journal.WriteEntry (H := refcodec.codec) sample.journalStore sample.emptyDisk sample.entry1
      = Ok (f', entry') /\
      journal.FilePath entry'
      = "/home/u/.private-journal/2024-06-01/12-30-45-000000-01234567.md" /\
      fileNameWithMicros sample.noon sample.id1 = "12-30-45-123456-01234567.md") /\
  (exists f',
      social.CreatePost (H := refcodec.codec) sample.socialStore sample.emptyDisk sample.post1
      = Ok f' /\
      socialRecordPath sample.socialStore sample.post1
      = "/data/social/posts/2024-06-01/12-30-45-000000-01234567.md" /\
      exists content,
        fs.ReadFile f' "/data/social/posts/2024-06-01/12-30-45-000000-01234567.md" = Some content).
Proof.
  split; [|split; [|split; [|split]]].
  - intros C s f entry. apply WriteEntry_layout.
  - intros C s f post. apply CreatePost_layout.
  - intros t id. unfold recordFileName, literalZeros.
    rewrite ?app_assoc_s, ?app_cons_s, ?app_nil_l_s. reflexivity.
  - eexists _, _. split; [vm_compute; reflexivity|]. split; vm_compute; reflexivity.
  - eexists. split; [vm_compute; reflexivity|]. split; [vm_compute; reflexivity|].
    eexists. vm_compute. reflexivity.
Qed.

(** ** Root selection *)

Section RootSelection.
Context `{Codec}.

Lemma selectRoots_cases s t :
  journal.selectRoots s t
  = ((if String.eqb t "both" || String.eqb t "user" || String.eqb t ""
      then [(journal.userPath s, "user")] else []) ++
     (if String.eqb t "both" || String.eqb t "project" || String.eqb t ""
      then [(journal.projectPath s, "project")] else []))%list.
Proof.
  unfold journal.selectRoots.
  destruct (String.eqb t "both" || String.eqb t "user" || String.eqb t "");
    destruct (String.eqb t "both" || String.eqb t "project" || String.eqb t "");
    reflexivity.
Qed.


End RootSelection.


(** ** Social posts: decoding and the thread filter *)

Section SocialDecoding.
Context `{Codec}.

Lemma passesThread_inThread opts post :
  social.ThreadID opts <> "" ->
  social.passesThread opts post = inThread (social.ThreadID opts) post.
Proof.
  intros Hne. unfold social.passesThread, inThread.
  destruct (String.eqb_spec (social.ThreadID opts) ""); [contradiction|]. cbn [negb].
  destruct (social.ParentPostID post) as [p|].
  - destruct (String.eqb (uuid.String p) (social.ThreadID opts)); cbn;
      [reflexivity|].
    destruct (String.eqb (uuid.String (social.ID post)) (social.ThreadID opts)); reflexivity.
  - cbn. destruct (String.eqb (uuid.String (social.ID post)) (social.ThreadID opts));
      reflexivity.
Qed.


Lemma passes_noFilters post : passesAll noFilters post = true.
Proof. reflexivity. Qed.

(** The loops only append to what they are given. *)
Lemma social_scanFiles_acc f opts dirPath files acc :
  social.scanFiles f opts dirPath files acc
  = (acc ++ social.scanFiles f opts dirPath files [])%list.
Proof.
  revert acc. induction files as [|file rest IH]; intros acc.
  - cbn. rewrite app_nil_r. reflexivity.
  - cbn [social.scanFiles].
    destruct (file.2 || negb (HasSuffix file.1 ".md")); [apply IH|].
    destruct (fs.ReadFile f _) as [data|]; [|apply IH].
    destruct (social.parseSocialPost data) as [post|e]; [|apply IH].
    destruct (negb (social.passesAgent opts post)); [apply IH|].
    destruct (negb (social.passesTag opts post)); [apply IH|].
    destruct (negb (social.passesThread opts post)); [apply IH|].
    rewrite IH, (IH ([] ++ [post])%list), app_assoc. reflexivity.
Qed.

(** The filters of the inner loop amount to a [filter] of the scan that
    filters nothing. *)
Lemma social_scanFiles_filter f opts dirPath files :
  social.scanFiles f opts dirPath files []
  = filter (fun post => passesAll opts post = true)
           (social.scanFiles f noFilters dirPath files []).
Proof.
  induction files as [|file rest IH]; [reflexivity|].
  cbn [social.scanFiles].
  destruct (file.2 || negb (HasSuffix file.1 ".md")); [apply IH|].
  destruct (fs.ReadFile f _) as [data|]; [|apply IH].
  destruct (social.parseSocialPost data) as [post|e]; [|apply IH].
  change (negb (social.passesAgent noFilters post)) with false.
  change (negb (social.passesTag noFilters post)) with false.
  change (negb (social.passesThread noFilters post)) with false.
  cbn iota.
  rewrite (social_scanFiles_acc f noFilters dirPath rest ([] ++ [post])%list).
  cbn [app]. rewrite filter_cons.
  destruct (decide (passesAll opts post = true)) as [Hp|Hp].
  - unfold passesAll in Hp. apply andb_true_iff in Hp as [Hp Hthread].
    apply andb_true_iff in Hp as [Hagent Htag].
    rewrite Hagent, Htag, Hthread. cbn [negb].
    rewrite social_scanFiles_acc, IH. reflexivity.
  - unfold passesAll in Hp.
    destruct (social.passesAgent opts post); cbn [negb]; [|apply IH].
    destruct (social.passesTag opts post); cbn [negb]; [|apply IH].
    destruct (social.passesThread opts post); cbn [negb]; [|apply IH].
    exfalso. apply Hp. reflexivity.
Qed.

Lemma social_scanDateDirs_acc f opts postsDir dateDirs acc :
  social.scanDateDirs f opts postsDir dateDirs acc
  = (acc ++ social.scanDateDirs f opts postsDir dateDirs [])%list.
Proof.
  revert acc. induction dateDirs as [|d rest IH]; intros acc.
  - cbn. rewrite app_nil_r. reflexivity.
  - cbn [social.scanDateDirs].
    destruct (negb d.2); [apply IH|].
    destruct (fs.ReadDir f _) as [files|]; [|apply IH].
    rewrite IH, (IH (social.scanFiles f opts _ files [])).
    rewrite (social_scanFiles_acc f opts _ files acc), app_assoc. reflexivity.
Qed.

Lemma social_scanDateDirs_filter f opts postsDir dateDirs :
  social.scanDateDirs f opts postsDir dateDirs []
  = filter (fun post => passesAll opts post = true)
           (social.scanDateDirs f noFilters postsDir dateDirs []).
Proof.
  induction dateDirs as [|d rest IH]; [reflexivity|].
  cbn [social.scanDateDirs].
  destruct (negb d.2); [apply IH|].
  destruct (fs.ReadDir f _) as [files|]; [|apply IH].
  rewrite social_scanDateDirs_acc,
    (social_scanDateDirs_acc f noFilters postsDir rest (social.scanFiles _ _ _ _ _)).
  rewrite filter_app, <- IH, <- social_scanFiles_filter. reflexivity.
Qed.

(** The posts that [ListPosts] sorts are the decodable posts that pass
    the three filters. *)
Lemma collectPosts_filter s f opts :
  collectPosts s f opts
  = match collectPosts s f noFilters with
    | Ok all => Ok (filter (fun post => passesAll opts post = true) all)
    | Err e => Err e
    end.
Proof.
  unfold collectPosts.
  destruct (fs.Stat f (fs.Join2 (social.dataDir s) "posts")); try reflexivity;
    destruct (fs.ReadDir f (fs.Join2 (social.dataDir s) "posts")); try reflexivity;
    rewrite social_scanDateDirs_filter; reflexivity.
Qed.

Lemma paginate_nil opts : social.paginate opts [] = [].
Proof.
  unfold social.paginate.
  destruct ((0 <? social.Offset opts)
            && (Z.of_nat (length (@nil social.SocialPost)) <=? social.Offset opts));
    [reflexivity|].
  destruct (0 <? social.Offset opts); rewrite ?drop_nil; apply take_nil.
Qed.

Lemma ListPosts_collect s f opts :
  social.ListPosts s f opts
  = match collectPosts s f opts with
    | Ok kept => Ok (social.paginate opts (social.sortByDateDesc kept))
    | Err e => Err e
    end.
Proof.
  unfold social.ListPosts, collectPosts.
  destruct (fs.Stat f (fs.Join2 (social.dataDir s) "posts"));
    destruct (fs.ReadDir f (fs.Join2 (social.dataDir s) "posts")); try reflexivity;
    change (social.sortByDateDesc []) with (@nil social.SocialPost);
    rewrite paginate_nil; reflexivity.
Qed.

End SocialDecoding.


(** C10: a post file whose [parent_post_id] is not empty and is not the
  text of an identifier is decoded all the same, provided the rest of its
  frontmatter is in order; the post has no parent, and the thread filter
  treats it as a root: it passes exactly under its own identifier. *)
Theorem C10_bad_parent_is_dropped (C : Codec) (content yamlStr body : string)
    (fm : socialFrontmatter) (id : uuid.UUID) (createdAt : Time) :
  ParseFrontmatter content = (yamlStr, body) ->
  yamlStr <> "" ->
  UnmarshalSocial yamlStr = Some fm ->
  uuid.Parse (sfID fm) = Some id ->
  ParseTime (sfCreatedAt fm) = Some createdAt ->
  sfParentPostID fm <> "" ->
  uuid.Parse (sfParentPostID fm) = None ->
  exists post,
    social.parseSocialPost content = Ok post /\
    post = social.mkPost id (sfAuthor fm) (TrimSpace body) (sfTags fm) createdAt None
                         (sfSynced fm) /\
    social.ParentPostID post = None /\
    (forall opts, social.ThreadID opts <> "" ->
                  social.passesThread opts post
                  = String.eqb (uuid.String id) (social.ThreadID opts)).
Proof.
  intros Hfm Hyaml Hun Hid Htime Hparent Hbad.
  eexists. split; [|split; [reflexivity|split; [reflexivity|]]].
  - unfold social.parseSocialPost. rewrite Hfm.
    destruct (String.eqb_spec yamlStr ""); [contradiction|].
    rewrite Hun, Hid, Htime.
    destruct (String.eqb_spec (sfParentPostID fm) ""); [contradiction|].
    cbn [negb]. rewrite Hbad. reflexivity.
  - intros opts Hthread. rewrite passesThread_inThread by assumption.
    reflexivity.
Qed.

(** ** Paths *)

Section PathFacts.

Lemma noSlash_Split s : noSlash s = true -> Split fs.slash s = [s].
Proof.
  induction s as [|c s IH]; [reflexivity|]. cbn [noSlash Split].
  intros Hs. apply andb_true_iff in Hs as [Hc Hs]. apply negb_true_iff in Hc.
  rewrite Hc, (IH Hs). reflexivity.
Qed.

Lemma Split_noSlash s : Forall (fun x => noSlash x = true) (Split fs.slash s).
Proof.
  induction s as [|c s IH]; [repeat constructor|]. cbn [Split].
  destruct (Ascii.eqb c fs.slash) eqn:E.
  - constructor; [reflexivity|exact IH].
  - destruct (Split fs.slash s) as [|h t]; [repeat constructor; cbn; rewrite E; reflexivity|].
    inversion IH; subst. constructor; [|assumption]. cbn. rewrite E. assumption.
Qed.

Lemma Join_cons s r :
  r <> [] -> Join (s :: r) fs.Separator = s +:+ fs.Separator +:+ Join r fs.Separator.
Proof. destruct r; [congruence|reflexivity]. Qed.

Lemma Split_Join segs :
  segs <> [] -> Forall (fun x => noSlash x = true) segs ->
  Split fs.slash (Join segs fs.Separator) = segs.
Proof.
  induction segs as [|s r IH]; [congruence|]. intros _ Hall.
  inversion Hall as [|? ? Hs Hr]; subst.
  destruct r as [|q r].
  - cbn. apply noSlash_Split. assumption.
  - rewrite Join_cons by discriminate.
    change (fs.Separator +:+ Join (q :: r) fs.Separator)
      with (String fs.slash (Join (q :: r) fs.Separator)).
    rewrite Split_app, noSlash_Split by assumption.
    rewrite IH by (discriminate || assumption). reflexivity.
Qed.

(** *** [Clean] on rooted paths *)

Lemma cleanStep_proper stack seg :
  noSlash seg = true -> Forall properName stack ->
  Forall properName (fs.cleanStep true stack seg).
Proof.
  intros Hseg Hstack. unfold fs.cleanStep.
  destruct (String.eqb_spec seg ""); [assumption|].
  destruct (String.eqb_spec seg "."); [assumption|]. cbn [orb].
  destruct (String.eqb_spec seg "..").
  - destruct stack as [|top below]; [constructor|].
    inversion Hstack as [|? ? Htop Hbelow]; subst.
    destruct (String.eqb_spec top ".."); [|assumption].
    exfalso. destruct Htop as (_ & _ & Hdd & _). contradiction.
  - constructor; [|assumption]. repeat split; assumption.
Qed.

Lemma fold_cleanStep_proper segs stack :
  Forall (fun x => noSlash x = true) segs -> Forall properName stack ->
  Forall properName (fold_left (fs.cleanStep true) segs stack).
Proof.
  revert stack. induction segs as [|seg segs IH]; intros stack Hsegs Hstack; [assumption|].
  inversion Hsegs; subst. cbn [fold_left]. apply IH; [assumption|].
  apply cleanStep_proper; assumption.
Qed.

Lemma cleanSegments_proper path : Forall properName (fs.cleanSegments true path).
Proof.
  unfold fs.cleanSegments. apply Forall_rev.
  apply fold_cleanStep_proper; [apply Split_noSlash|constructor].
Qed.

Lemma cleanStep_push stack seg :
  properName seg -> fs.cleanStep true stack seg = seg :: stack.
Proof.
  intros (H1 & H2 & H3 & _). unfold fs.cleanStep.
  destruct (String.eqb_spec seg ""); [contradiction|].
  destruct (String.eqb_spec seg "."); [contradiction|].
  destruct (String.eqb_spec seg ".."); [contradiction|]. reflexivity.
Qed.

Lemma fold_cleanStep_push segs stack :
  Forall properName segs ->
  fold_left (fs.cleanStep true) segs stack = (List.rev segs ++ stack)%list.
Proof.
  revert stack. induction segs as [|seg segs IH]; intros stack Hsegs; [reflexivity|].
  inversion Hsegs; subst. cbn [fold_left List.rev].
  rewrite cleanStep_push by assumption. rewrite IH by assumption.
  rewrite <- app_assoc. reflexivity.
Qed.

Lemma properName_noSlash segs :
  Forall properName segs -> Forall (fun x => noSlash x = true) segs.
Proof.
  intros Hsegs. eapply Forall_impl; [exact Hsegs|].
  intros x (_ & _ & _ & Hx). exact Hx.
Qed.

(** The names of a path made of proper names are these names. *)
Lemma cleanSegments_pathOf segs :
  Forall properName segs -> fs.cleanSegments true (pathOf segs) = segs.
Proof.
  intros Hsegs. unfold fs.cleanSegments, pathOf.
  change (fs.Separator +:+ Join segs fs.Separator)
    with (String fs.slash (Join segs fs.Separator)).
  cbn [Split]. rewrite Ascii.eqb_refl. cbn [fold_left].
  change (fs.cleanStep true [] "") with (@nil string).
  destruct segs as [|s r].
  - reflexivity.
  - rewrite Split_Join by (discriminate || apply properName_noSlash; assumption).
    rewrite fold_cleanStep_push by assumption.
    rewrite app_nil_r. apply rev_involutive.
Qed.

Lemma IsAbs_pathOf segs : fs.IsAbs (pathOf segs) = true.
Proof. reflexivity. Qed.

Lemma Clean_rooted path :
  fs.IsAbs path = true -> fs.Clean path = pathOf (fs.cleanSegments true path).
Proof. intros Habs. unfold fs.Clean. rewrite Habs. reflexivity. Qed.

Lemma IsAbs_app a b : fs.IsAbs a = true -> fs.IsAbs (a +:+ b) = true.
Proof.
  unfold fs.IsAbs. rewrite !HasPrefix_spec. intros [r ->].
  exists (r +:+ b). rewrite app_assoc_s. reflexivity.
Qed.

(** With an absolute working directory every path resolves to an absolute
    path made of proper names. *)
Lemma Abs_pathOf f path :
  fs.IsAbs (fs.cwd f) = true -> fs.Abs f path = pathOf (fs.resolve f path).
Proof.
  intros Hcwd.
  assert (Hshape : exists raw, fs.IsAbs raw = true /\ fs.Abs f path = fs.Clean raw).
  { unfold fs.Abs. destruct (fs.IsAbs path) eqn:E; [exists path; auto|].
    unfold fs.Join2.
    destruct (String.eqb_spec (fs.cwd f) "") as [E0|_]; [rewrite E0 in Hcwd; discriminate|].
    destruct (String.eqb path "").
    - exists (fs.cwd f). auto.
    - exists (fs.cwd f +:+ fs.Separator +:+ path). split; [|reflexivity].
      apply IsAbs_app. assumption. }
  destruct Hshape as (raw & Hraw & Heq).
  unfold fs.resolve. rewrite Heq, (Clean_rooted raw Hraw).
  rewrite cleanSegments_pathOf by apply cleanSegments_proper. reflexivity.
Qed.

Lemma resolve_proper f path : Forall properName (fs.resolve f path).
Proof. apply cleanSegments_proper. Qed.

Lemma resolve_Abs f path :
  fs.IsAbs (fs.cwd f) = true -> fs.resolve f (fs.Abs f path) = fs.resolve f path.
Proof.
  intros Hcwd. unfold fs.resolve at 1.
  rewrite (Abs_pathOf f path Hcwd).
  unfold fs.Abs. rewrite IsAbs_pathOf, (Clean_rooted _ (IsAbs_pathOf _)).
  rewrite !cleanSegments_pathOf;
    [reflexivity | apply resolve_proper | apply cleanSegments_proper].
Qed.

(** *** Prefixes of paths and prefixes of lists of names *)

Lemma HasPrefix_nil_false c r : HasPrefix "" (String c r) = false.
Proof. reflexivity. Qed.

Lemma HasPrefix_name_slash p r X Y :
  noSlash p = true -> noSlash r = true ->
  HasPrefix (p +:+ String fs.slash X) (r +:+ String fs.slash Y)
  = String.eqb p r && HasPrefix X Y.
Proof.
  revert p. induction r as [|d r IH]; intros p Hp Hr.
  - rewrite app_nil_l_s. destruct p as [|c p].
    + rewrite app_nil_l_s. cbn. reflexivity.
    + rewrite app_cons_s. cbn in Hp. apply andb_true_iff in Hp as [Hc _].
      apply negb_true_iff in Hc. cbn [HasPrefix String.eqb].
      rewrite Ascii.eqb_sym, Hc. reflexivity.
  - cbn in Hr. apply andb_true_iff in Hr as [Hd Hr]. apply negb_true_iff in Hd.
    rewrite app_cons_s. destruct p as [|c p].
    + rewrite app_nil_l_s. cbn [HasPrefix String.eqb]. rewrite Hd. reflexivity.
    + rewrite app_cons_s. cbn in Hp. apply andb_true_iff in Hp as [_ Hp].
      cbn [HasPrefix String.eqb]. rewrite (Ascii.eqb_sym c d).
      destruct (Ascii.eqb d c); [|reflexivity]. apply IH; assumption.
Qed.

Lemma HasPrefix_name_short p r Y :
  noSlash p = true -> HasPrefix p (r +:+ String fs.slash Y) = false.
Proof.
  revert p. induction r as [|d r IH]; intros p Hp.
  - rewrite app_nil_l_s. destruct p as [|c p]; [reflexivity|].
    cbn in Hp. apply andb_true_iff in Hp as [Hc _]. apply negb_true_iff in Hc.
    cbn [HasPrefix]. rewrite Ascii.eqb_sym, Hc. reflexivity.
  - rewrite app_cons_s. destruct p as [|c p]; [reflexivity|].
    cbn in Hp. apply andb_true_iff in Hp as [_ Hp].
    cbn [HasPrefix]. destruct (Ascii.eqb d c); [|reflexivity]. apply IH; assumption.
Qed.

Lemma Join_slash segs :
  segs <> [] -> Join segs fs.Separator +:+ fs.Separator = joinSlash segs.
Proof.
  induction segs as [|s r IH]; [congruence|]. intros _.
  destruct r as [|q r].
  - cbn. rewrite app_nil_r_s. reflexivity.
  - rewrite Join_cons by discriminate.
    rewrite !app_assoc_s, IH by discriminate. reflexivity.
Qed.

Lemma prefix_joinSlash R :
  R <> [] -> Forall properName R ->
  forall P, Forall properName P ->
    HasPrefix (Join P fs.Separator) (joinSlash R) = true <-> strictlyInside R P.
Proof.
  induction R as [|r R IH]; [congruence|]. intros _ HR P HP.
  inversion HR as [|? ? Hr HR']; subst.
  assert (Hrs : noSlash r = true) by apply Hr.
  cbn [joinSlash].
  change (fs.Separator +:+ joinSlash R) with (String fs.slash (joinSlash R)).
  destruct P as [|p P].
  - cbn [Join String.concat].
    destruct r as [|c r]; [destruct Hr as [Hr _]; congruence|].
    rewrite app_cons_s, HasPrefix_nil_false.
    split; [discriminate|]. intros (rest & _ & Heq). discriminate.
  - inversion HP as [|? ? Hp HP']; subst.
    assert (Hps : noSlash p = true) by apply Hp.
    destruct P as [|q P].
    + cbn [Join String.concat]. rewrite HasPrefix_name_short by assumption.
      split; [discriminate|]. intros (rest & Hne & Heq).
      cbn in Heq. injection Heq as _ Heq.
      destruct R; destruct rest; cbn in Heq; congruence.
    + rewrite Join_cons by discriminate.
      change (fs.Separator +:+ Join (q :: P) fs.Separator)
        with (String fs.slash (Join (q :: P) fs.Separator)).
      rewrite HasPrefix_name_slash by assumption.
      rewrite andb_true_iff, String.eqb_eq.
      destruct R as [|r2 R].
      * cbn [joinSlash]. split.
        -- intros [-> _]. exists (q :: P). split; [discriminate|reflexivity].
        -- intros (rest & _ & Heq). cbn in Heq. injection Heq as -> _.
           split; reflexivity.
      * rewrite (IH ltac:(discriminate) HR' (q :: P) HP'). split.
        -- intros [-> (rest & Hne & Heq)]. exists rest. split; [exact Hne|].
           cbn. rewrite Heq. reflexivity.
        -- intros (rest & Hne & Heq).
           cbn in Heq. injection Heq as -> -> ->.
           split; [reflexivity|]. exists rest. split; [assumption|reflexivity].
Qed.

(** The test of [ReadEntry]: the path starts with the root followed by a
    separator exactly when it lies strictly inside the root, unless the
    root is [/], for which the test never holds. *)
Lemma HasPrefix_root R P :
  Forall properName R -> Forall properName P ->
  HasPrefix (pathOf P) (pathOf R +:+ fs.Separator) = true
  <-> R <> [] /\ strictlyInside R P.
Proof.
  intros HR HP. destruct R as [|r R].
  - change (pathOf [] +:+ fs.Separator) with "//".
    split; [|intros [Hne _]; congruence]. intros Hpre. exfalso.
    unfold pathOf in Hpre.
    change (fs.Separator +:+ Join P fs.Separator)
      with (String fs.slash (Join P fs.Separator)) in Hpre.
    cbn [HasPrefix] in Hpre. rewrite Ascii.eqb_refl in Hpre.
    destruct P as [|p P]; [discriminate|].
    inversion HP as [|? ? Hp _]; subst.
    destruct p as [|c p]; [destruct Hp as [Hp _]; congruence|].
    destruct Hp as (_ & _ & _ & Hs). cbn in Hs.
    apply andb_true_iff in Hs as [Hc _]. apply negb_true_iff in Hc.
    assert (Hhead : exists x, Join (String c p :: P) fs.Separator = String c x).
    { destruct P as [|q P]; [exists p; reflexivity|].
      rewrite Join_cons by discriminate. rewrite app_cons_s. eexists. reflexivity. }
    destruct Hhead as [x Hx]. rewrite Hx in Hpre.
    rewrite Ascii.eqb_sym in Hc. unfold fs.slash in Hc.
    cbn [HasPrefix] in Hpre. rewrite Hc in Hpre. discriminate.
  - unfold pathOf. rewrite app_assoc_s, Join_slash by discriminate.
    change (fs.Separator +:+ Join P fs.Separator)
      with (String fs.slash (Join P fs.Separator)).
    change (fs.Separator +:+ joinSlash (r :: R))
      with (String fs.slash (joinSlash (r :: R))).
    cbn [HasPrefix]. rewrite Ascii.eqb_refl.
    rewrite prefix_joinSlash by (discriminate || assumption).
    split; [intros Hin; split; [discriminate|exact Hin] | intros [_ Hin]; exact Hin].
Qed.

End PathFacts.

(** ** [ReadEntry]: containment in the roots *)

Section Containment.
Context `{Codec}.

Lemma accepts_iff f root path :
  fs.IsAbs (fs.cwd f) = true ->
  HasPrefix (fs.Abs f path) (fs.Abs f root +:+ fs.Separator) = true
  <-> fs.resolve f root <> [] /\ insideRoot f root path.
Proof.
  intros Hcwd. rewrite (Abs_pathOf f path Hcwd), (Abs_pathOf f root Hcwd).
  apply HasPrefix_root; apply resolve_proper.
Qed.

Lemma ReadEntry_cases s f path :
  journal.ReadEntry s f path
  = if HasPrefix (fs.Abs f path) (fs.Abs f (journal.projectPath s) +:+ fs.Separator)
       || HasPrefix (fs.Abs f path) (fs.Abs f (journal.userPath s) +:+ fs.Separator)
    then readAndDecode f path
    else Err (ErrOutsideRoots path).
Proof.
  unfold journal.ReadEntry, readAndDecode.
  destruct (HasPrefix (fs.Abs f path) (fs.Abs f (journal.projectPath s) +:+ fs.Separator));
    destruct (HasPrefix (fs.Abs f path) (fs.Abs f (journal.userPath s) +:+ fs.Separator));
    reflexivity.
Qed.

Lemma readAndDecode_not_outside f path p :
  readAndDecode f path <> Err (ErrOutsideRoots p).
Proof.
  unfold readAndDecode, journal.parseJournalEntry.
  destruct (fs.ReadFile f (fs.Abs f path)) as [data|]; [|discriminate].
  destruct (ParseFrontmatter data) as [yamlStr body].
  destruct (String.eqb yamlStr ""); [discriminate|].
  destruct (UnmarshalJournal yamlStr) as [fm|]; [|discriminate].
  destruct (uuid.Parse (jfID fm)); [|discriminate].
  destruct (ParseTime (jfDate fm)); discriminate.
Qed.

(** A path that is not rejected lies strictly inside one of the roots;
    and a path strictly inside a root other than [/] is read and
    decoded. *)
Lemma ReadEntry_containment s f path :
  fs.IsAbs (fs.cwd f) = true ->
  (journal.ReadEntry s f path <> Err (ErrOutsideRoots path) ->
   insideRoot f (journal.projectPath s) path \/ insideRoot f (journal.userPath s) path) /\
  ((fs.resolve f (journal.projectPath s) <> [] /\ insideRoot f (journal.projectPath s) path)
   \/ (fs.resolve f (journal.userPath s) <> [] /\ insideRoot f (journal.userPath s) path) ->
   journal.ReadEntry s f path = readAndDecode f path).
Proof.
  intros Hcwd. rewrite ReadEntry_cases.
  pose proof (accepts_iff f (journal.projectPath s) path Hcwd) as Hp.
  pose proof (accepts_iff f (journal.userPath s) path Hcwd) as Hu.
  destruct (HasPrefix (fs.Abs f path) (fs.Abs f (journal.projectPath s) +:+ fs.Separator));
    destruct (HasPrefix (fs.Abs f path) (fs.Abs f (journal.userPath s) +:+ fs.Separator));
    cbn [orb]; split; try (intros; reflexivity); try tauto.
  intros [Hin|Hin]; [apply Hp in Hin | apply Hu in Hin]; discriminate.
Qed.

End Containment.

(** C1: [ReadEntry] fails with the path violation unless the resolved path
  lies strictly inside the project root or the user root, and a path
  strictly inside a root is read and decoded -- for every root but the
  directory [/].  With the root [/] the test compares the path with the
  prefix [//], which no resolved path has: the entry that [WriteEntry]
  has just written below [/], and that [ListEntries] lists, is rejected
  by [ReadEntry] although it lies strictly inside the root. *)
Theorem C1_read_entry_containment (C : Codec) (s : journal.JournalMDStore)
    (f : fs.FS) (path : string) :
  fs.IsAbs (fs.cwd f) = true ->
  (~ insideRoot f (journal.projectPath s) path ->
   ~ insideRoot f (journal.userPath s) path ->
   journal.ReadEntry s f path = Err (ErrOutsideRoots path)) /\
  (fs.resolve f (journal.projectPath s) <> [] ->
   insideRoot f (journal.projectPath s) path ->
   journal.ReadEntry s f path = readAndDecode f path) /\
  (fs.resolve f (journal.userPath s) <> [] ->
   insideRoot f (journal.userPath s) path ->
   journal.ReadEntry s f path = readAndDecode f path) /\
  (exists f' entry',
      journal.WriteEntry (H := refcodec.codec) sample2.rootStore sample.emptyDisk
                         sample2.projectEntry = Ok (f', entry') /\
      journal.FilePath entry' = sample2.writtenPath /\
      fs.resolve f' (journal.projectPath sample2.rootStore) = [] /\
      insideRoot f' (journal.projectPath sample2.rootStore) sample2.writtenPath /\
      (exists listed,
          journal.ListEntries (H := refcodec.codec) sample2.rootStore f' sample.noon
                              "project" 0 0 = Ok listed /\
          map journal.FilePath listed = [sample2.writtenPath]) /\
      journal.ReadEntry (H := refcodec.codec) sample2.rootStore f' sample2.writtenPath
      = Err (ErrOutsideRoots sample2.writtenPath)).
Proof.
  intros Hcwd.
  pose proof (ReadEntry_containment s f path Hcwd) as [Hsound Hcomplete].
  split; [|split; [|split]].
  - intros Hp Hu. rewrite ReadEntry_cases.
    pose proof (accepts_iff f (journal.projectPath s) path Hcwd) as Ap.
    pose proof (accepts_iff f (journal.userPath s) path Hcwd) as Au.
    destruct (HasPrefix (fs.Abs f path) (fs.Abs f (journal.projectPath s) +:+ fs.Separator)).
    { exfalso. apply Hp. apply Ap. reflexivity. }
    destruct (HasPrefix (fs.Abs f path) (fs.Abs f (journal.userPath s) +:+ fs.Separator)).
    { exfalso. apply Hu. apply Au. reflexivity. }
    reflexivity.
  - intros Hne Hin. apply Hcomplete. left. split; assumption.
  - intros Hne Hin. apply Hcomplete. right. split; assumption.
  - eexists _, _. split; [vm_compute; reflexivity|].
    split; [vm_compute; reflexivity|].
    split; [vm_compute; reflexivity|].
    split.
    { exists ["2024-06-01"; "12-30-45-000000-01234567.md"].
      split; [discriminate|vm_compute; reflexivity]. }
    split.
    { eexists. split; vm_compute; reflexivity. }
    vm_compute. reflexivity.
Qed.

(** ** Listing journal entries *)

Section JournalListingFacts.
Context `{Codec}.

Lemma journal_scanFiles_spec f dirPath files acc :
  journal.scanFiles f dirPath files acc
  = (acc ++ flat_map (decodeFile f dirPath) files)%list.
Proof.
  revert acc. induction files as [|file rest IH]; intros acc.
  - cbn. rewrite app_nil_r. reflexivity.
  - cbn [journal.scanFiles flat_map]. unfold decodeFile at 1.
    destruct file.2; cbn [orb]; [apply IH|].
    destruct (HasSuffix file.1 ".md"); cbn [negb]; [|apply IH].
    destruct (fs.ReadFile f (fs.Join2 dirPath file.1)) as [data|]; [|apply IH].
    destruct (journal.parseJournalEntry (fs.Join2 dirPath file.1) data) as [entry|e];
      [|apply IH].
    rewrite IH, <- app_assoc. reflexivity.
Qed.

Lemma journal_scanDateDirs_spec f root cutoff dateDirs acc :
  journal.scanDateDirs f root cutoff dateDirs acc
  = (acc ++ flat_map (fun d : fs.DirEntry =>
                        if d.2 && negb (journal.skipByCutoff cutoff d.1)
                        then entriesOfDir f root d.1 else []) dateDirs)%list.
Proof.
  revert acc. induction dateDirs as [|d rest IH]; intros acc.
  - cbn. rewrite app_nil_r. reflexivity.
  - cbn [journal.scanDateDirs flat_map].
    destruct d.2; cbn [negb andb]; [|apply IH].
    destruct (journal.skipByCutoff cutoff d.1); cbn [negb]; [apply IH|].
    unfold entriesOfDir at 1.
    destruct (fs.ReadDir f (fs.Join2 root d.1)) as [files|]; [|apply IH].
    rewrite IH, journal_scanFiles_spec, <- app_assoc. reflexivity.
Qed.

Lemma listEntriesInRoot_spec f root cutoff :
  journal.listEntriesInRoot f root cutoff
  = if listable f root
    then Ok (entriesWhere (fun name => negb (journal.skipByCutoff cutoff name)) f root)
    else Err ErrReadDir.
Proof.
  unfold journal.listEntriesInRoot, listable, entriesWhere, fs.ReadDir.
  destruct (fs.Stat f root) as [[c|es]| |]; try reflexivity.
  rewrite journal_scanDateDirs_spec. reflexivity.
Qed.

Lemma skipByCutoff_zero name : journal.skipByCutoff zeroTime name = false.
Proof. reflexivity. Qed.





Lemma listEntriesInRoot_all f root :
  journal.listEntriesInRoot f root zeroTime
  = if listable f root then Ok (entriesUnder f root) else Err ErrReadDir.
Proof. rewrite listEntriesInRoot_spec. reflexivity. Qed.


Lemma entriesUnder_absent f root :
  fs.Stat f root = fs.StNotExist ->
  listable f root = true /\ entriesUnder f root = [].
Proof.
  intros Hst. unfold listable, entriesUnder, entriesWhere, fs.ReadDir.
  rewrite Hst. split; reflexivity.
Qed.

(** *** The order of the listing *)

Global Instance journal_notBefore_total : Total journal.notBefore.
Proof. intros a b. unfold journal.notBefore. lia. Qed.

Global Instance journal_notBefore_trans : Transitive journal.notBefore.
Proof. intros a b c. unfold journal.notBefore. lia. Qed.

Lemma sortByDateDesc_sorted l : StronglySorted journal.notBefore (journal.sortByDateDesc l).
Proof. apply StronglySorted_merge_sort; apply _. Qed.

Lemma sortByDateDesc_perm l : journal.sortByDateDesc l ≡ₚ l.
Proof. apply merge_sort_Permutation. Qed.

Lemma ListEntries_truncate s f now entryType limit days entries :
  journal.listRoots f (if 0 <? days then AddDays now (- days) else zeroTime)
                    (journal.selectRoots s entryType) [] = Ok entries ->
  journal.ListEntries s f now entryType limit days
  = Ok (truncateTo limit (journal.sortByDateDesc entries)).
Proof.
  intros Hroots. unfold journal.ListEntries. rewrite Hroots. unfold truncateTo.
  destruct (Z.ltb_spec 0 limit); cbn [andb]; [|reflexivity].
  destruct (Z.ltb_spec limit (Z.of_nat (length (journal.sortByDateDesc entries))));
    [reflexivity|].
  rewrite take_ge by lia. reflexivity.
Qed.

Lemma listRoots_spec keep f cutoff roots acc :
  (forall root,
      journal.listEntriesInRoot f root cutoff
      = if listable f root then Ok (entriesWhere keep f root) else Err ErrReadDir) ->
  journal.listRoots f cutoff roots acc
  = match firstUnlistable f roots.*1 with
    | Some root => Err (ErrListEntries root)
    | None => Ok (acc ++ flat_map (entriesWhere keep f) roots.*1)%list
    end.
Proof.
  intros Hlist. revert acc. induction roots as [|root rest IH]; intros acc.
  - cbn. rewrite app_nil_r. reflexivity.
  - cbn [journal.listRoots fmap list_fmap firstUnlistable flat_map].
    rewrite Hlist. destruct (listable f root.1); [|reflexivity].
    rewrite IH. destruct (firstUnlistable f rest.*1); [reflexivity|].
    rewrite <- app_assoc. reflexivity.
Qed.

End JournalListingFacts.

Section JournalOrder.
Context `{Codec}.

Lemma StronglySorted_strict l :
  StronglySorted journal.notBefore l -> NoDup (instants l) ->
  StronglySorted strictlyAfter l.
Proof.
  induction 1 as [|a l Hl IH Hall]; intros Hnd; [constructor|].
  cbn in Hnd. apply NoDup_cons in Hnd as [Ha Hnd].
  constructor; [apply IH; assumption|].
  rewrite Forall_forall in Hall |- *. intros b Hb.
  specialize (Hall b Hb). unfold journal.notBefore in Hall. unfold strictlyAfter.
  assert (instant (journal.CreatedAt b) <> instant (journal.CreatedAt a)); [|lia].
  intros Heq. apply Ha. rewrite <- Heq. unfold instants.
  apply list_elem_of_fmap. exists b. split; [reflexivity|assumption].
Qed.

Lemma instants_perm l1 l2 : l1 ≡ₚ l2 -> instants l1 ≡ₚ instants l2.
Proof. intros Hp. unfold instants. apply (fmap_Permutation _ _ _ Hp). Qed.

Lemma take_drop_ordered (l : list journal.JournalEntry) n x y :
  StronglySorted journal.notBefore l ->
  x ∈ take n l -> y ∈ drop n l -> journal.notBefore x y.
Proof.
  intros Hs Hx Hy. rewrite <- (take_drop n l) in Hs.
  eapply StronglySorted_app_1_elem_of; eassumption.
Qed.

End JournalOrder.

(** C4, as the code has it: [ListEntries("both", limit, 0)] returns the
  decodable entries of the user root and of the project root together,
  sorted so that no entry is newer than one before it, and cut to the
  first [limit] of them, the most recent ones, when [limit > 0]; a root
  that does not exist contributes nothing and is no error.  Entries
  with equal timestamps stand in no particular order; the order is
  strictly descending when all timestamps differ. *)
Theorem C4_list_both (C : Codec) (s : journal.JournalMDStore) (f : fs.FS)
    (now : Time) (limit : Z) :
  let all := (entriesUnder f (journal.userPath s)
              ++ entriesUnder f (journal.projectPath s))%list in
  let sorted := journal.sortByDateDesc all in
  journal.ListEntries s f now "both" limit 0
  = (if listable f (journal.userPath s) then
       if listable f (journal.projectPath s)
       then Ok (truncateTo limit sorted)
       else Err (ErrListEntries (journal.projectPath s))
     else Err (ErrListEntries (journal.userPath s))) /\
  sorted ≡ₚ all /\
  StronglySorted journal.notBefore sorted /\
  (forall x y, x ∈ take (Z.to_nat limit) sorted -> y ∈ drop (Z.to_nat limit) sorted ->
               journal.notBefore x y) /\
  (NoDup (instants all) -> StronglySorted strictlyAfter sorted) /\
  (forall root, fs.Stat f root = fs.StNotExist ->
                journal.listEntriesInRoot f root zeroTime = Ok []).
Proof.
  intros all sorted. split; [|split; [|split; [|split; [|split]]]].
  - destruct (listable f (journal.userPath s)) eqn:Eu.
    + destruct (listable f (journal.projectPath s)) eqn:Ep.
      * apply ListEntries_truncate. cbn.
        rewrite !listEntriesInRoot_all, Eu, Ep. reflexivity.
      * unfold journal.ListEntries. cbn.
        rewrite !listEntriesInRoot_all, Eu, Ep. reflexivity.
    + unfold journal.ListEntries. cbn.
      rewrite !listEntriesInRoot_all, Eu. reflexivity.
  - apply sortByDateDesc_perm.
  - apply sortByDateDesc_sorted.
  - intros x y. apply take_drop_ordered, sortByDateDesc_sorted.
  - intros Hnd. apply StronglySorted_strict; [apply sortByDateDesc_sorted|].
    apply (NoDup_Permutation_proper _ _ (instants_perm _ _ (sortByDateDesc_perm all))).
    exact Hnd.
  - intros root Hst. rewrite listEntriesInRoot_all.
    destruct (entriesUnder_absent f root Hst) as [-> ->]. reflexivity.
Qed.

(** C4 as stated fails: a user entry and a project entry written at the
  same instant are both listed, and two equal timestamps are not in
  strictly descending order. *)
Lemma C4_counterexample :
  exists l,
    journal.ListEntries (H := refcodec.codec) sample.journalStore sample3.disk
                        sample.noon "both" 0 0 = Ok l /\
    length l = 2%nat /\
    ~ Sorted strictlyAfter l.
Proof.
  eexists. split; [vm_compute; reflexivity|]. split; [reflexivity|].
  intros Hs. apply Sorted_inv in Hs as [_ Hhd].
  apply HdRel_inv in Hhd. unfold strictlyAfter in Hhd. cbn in Hhd. lia.
Qed.

(** ** Pruning by the names of the date directories *)

Section Pruning.
Context `{Codec}.







End Pruning.


(** ** Rewriting a file in place *)

Section TreeFacts.

Lemma assoc_replace_eq s c' es c :
  fs.assoc s es = Some c -> fs.assoc s (fs.replace s c' es) = Some c'.
Proof.
  induction es as [|[k old] es IH]; [discriminate|]. cbn [fs.assoc fs.replace].
  destruct (String.eqb k s) eqn:E.
  - intros _. cbn [fs.assoc]. rewrite E. reflexivity.
  - intros Hc. cbn [fs.assoc]. rewrite E. apply IH. exact Hc.
Qed.

Lemma assoc_replace_ne s k c' es :
  k <> s -> fs.assoc k (fs.replace s c' es) = fs.assoc k es.
Proof.
  intros Hne. induction es as [|[k0 old] es IH]; [reflexivity|].
  cbn [fs.assoc fs.replace].
  destruct (String.eqb_spec k0 s) as [->|Hk0].
  - cbn [fs.assoc]. destruct (String.eqb_spec s k); [congruence|reflexivity].
  - cbn [fs.assoc]. destruct (String.eqb k0 k); [reflexivity|exact IH].
Qed.

Lemma listing_replace s c c' es :
  fs.assoc s es = Some c -> fs.IsDir c' = fs.IsDir c ->
  map (fun e : string * fs.node => (e.1, fs.IsDir e.2)) (fs.replace s c' es)
  = map (fun e : string * fs.node => (e.1, fs.IsDir e.2)) es.
Proof.
  intros Hc Hdir. induction es as [|[k old] es IH]; [reflexivity|].
  cbn [fs.assoc fs.replace] in *.
  destruct (String.eqb k s).
  - injection Hc as ->. cbn [map fst snd]. rewrite Hdir. reflexivity.
  - cbn [map fst snd]. rewrite IH by assumption. reflexivity.
Qed.

(** Writing over a file that is there succeeds, puts the new content at
  its place, and changes neither a listing nor another file. *)
Lemma writeAt_existing segs :
  forall t d data,
    fs.find segs t = fs.StNode (fs.File d) ->
    exists t',
      fs.writeAt segs data t = Some t' /\
      fs.IsDir t' = fs.IsDir t /\
      (forall segs', obsDir segs' t' = obsDir segs' t) /\
      (forall segs', segs' <> segs -> obsFile segs' t' = obsFile segs' t) /\
      obsFile segs t' = Some data.
Proof.
  induction segs as [|s r IH]; intros t d data Hfind.
  - cbn in Hfind. injection Hfind as ->. exists (fs.File data).
    split; [reflexivity|]. split; [reflexivity|]. split; [|split].
    + intros [|k r']; reflexivity.
    + intros [|k r'] Hne; [congruence|reflexivity].
    + reflexivity.
  - destruct t as [c0|es]; [discriminate|]. cbn [fs.find] in Hfind.
    destruct (fs.assoc s es) as [c|] eqn:Ec; [|discriminate].
    destruct (IH c d data Hfind) as (c' & Hw & Hdir & HobsD & HobsF & Hnew).
    exists (fs.Dir (fs.replace s c' es)).
    split; [cbn [fs.writeAt]; rewrite Ec, Hw; reflexivity|].
    split; [reflexivity|]. split; [|split].
    + intros [|k r'].
      * unfold obsDir. cbn [fs.find]. f_equal. eapply listing_replace; eassumption.
      * unfold obsDir. cbn [fs.find].
        destruct (String.eqb_spec k s) as [->|Hk].
        -- rewrite (assoc_replace_eq s c' es c Ec), Ec. apply HobsD.
        -- rewrite assoc_replace_ne by assumption. reflexivity.
    + intros [|k r'] Hne; [reflexivity|].
      unfold obsFile. cbn [fs.find].
      destruct (String.eqb_spec k s) as [->|Hk].
      * rewrite (assoc_replace_eq s c' es c Ec), Ec. apply HobsF. congruence.
      * rewrite assoc_replace_ne by assumption. reflexivity.
    + unfold obsFile. cbn [fs.find].
      rewrite (assoc_replace_eq s c' es c Ec). apply Hnew.
Qed.

Lemma writeAt_existing_absent segs :
  forall t d data t' segs',
    fs.find segs t = fs.StNode (fs.File d) ->
    fs.writeAt segs data t = Some t' ->
    (fs.find segs' t' = fs.StNotExist <-> fs.find segs' t = fs.StNotExist).
Proof.
  induction segs as [|s r IH]; intros t d data t' segs' Hfind Hw.
  - cbn in Hfind. injection Hfind as ->. cbn in Hw. injection Hw as <-.
    destruct segs'; cbn; split; intros Hx; (discriminate Hx || exact Hx).
  - destruct t as [c0|es]; [discriminate|]. cbn [fs.find] in Hfind. cbn [fs.writeAt] in Hw.
    destruct (fs.assoc s es) as [c|] eqn:Ec; [|discriminate].
    destruct (fs.writeAt r data c) as [c'|] eqn:Ew; [|discriminate].
    injection Hw as <-.
    destruct segs' as [|k r']; [cbn; split; discriminate|].
    cbn [fs.find]. destruct (String.eqb_spec k s) as [->|Hk].
    + rewrite (assoc_replace_eq s c' es c Ec), Ec. eapply IH; eassumption.
    + rewrite assoc_replace_ne by assumption. reflexivity.
Qed.

Lemma ReadFile_obs f path : fs.ReadFile f path = obsFile (fs.resolve f path) (fs.tree f).
Proof. reflexivity. Qed.

Lemma ReadDir_obs f path : fs.ReadDir f path = obsDir (fs.resolve f path) (fs.tree f).
Proof. reflexivity. Qed.

(** [AtomicWrite] over a file that is there. *)
Lemma AtomicWrite_existing f path d data :
  fs.ReadFile f path = Some d ->
  exists f',
    fs.AtomicWrite f path data = Some f' /\
    fs.cwd f' = fs.cwd f /\
    fs.ReadFile f' path = Some data /\
    (forall q, fs.resolve f q <> fs.resolve f path -> fs.ReadFile f' q = fs.ReadFile f q) /\
    (forall q, fs.ReadDir f' q = fs.ReadDir f q) /\
    (forall q, fs.Stat f' q = fs.StNotExist <-> fs.Stat f q = fs.StNotExist).
Proof.
  intros Hread. unfold fs.ReadFile, fs.Stat in Hread.
  destruct (fs.find (fs.resolve f path) (fs.tree f)) as [[c|es]| |] eqn:Efind;
    try discriminate.
  injection Hread as ->.
  destruct (writeAt_existing _ _ _ data Efind) as (t' & Hw & _ & HobsD & HobsF & Hnew).
  exists (fs.mkFS (fs.cwd f) t').
  split; [unfold fs.AtomicWrite; rewrite Hw; reflexivity|].
  split; [reflexivity|].
  assert (Hres : forall q, fs.resolve (fs.mkFS (fs.cwd f) t') q = fs.resolve f q)
    by reflexivity.
  split; [|split; [|split]].
  - rewrite ReadFile_obs, Hres. exact Hnew.
  - intros q Hq. rewrite !ReadFile_obs, Hres. apply HobsF. exact Hq.
  - intros q. rewrite !ReadDir_obs, Hres. apply HobsD.
  - intros q. unfold fs.Stat. rewrite Hres. cbn [fs.tree].
    eapply writeAt_existing_absent; eassumption.
Qed.

End TreeFacts.

(** ** [MarkSynced] *)

Section MarkSyncedFacts.
Context `{Codec}.

Lemma visitFile_no_match f postID path :
  matchesPost f postID path = false -> social.visitFile f postID path = social.Continue.
Proof.
  unfold matchesPost, social.visitFile.
  destruct (HasSuffix path ".md"); cbn [andb negb]; [|reflexivity].
  destruct (fs.ReadFile f path) as [data|]; [|reflexivity].
  destruct (ParseFrontmatter data) as [yamlStr body].
  destruct (String.eqb yamlStr ""); cbn [andb negb]; [reflexivity|].
  destruct (UnmarshalSocial yamlStr) as [fm|]; [|reflexivity].
  intros ->. reflexivity.
Qed.

Lemma walkLoop_no_match f postID paths :
  (forall q, In q paths -> matchesPost f postID q = false) ->
  social.walkLoop f postID paths = social.Continue.
Proof.
  induction paths as [|q paths IH]; intros Hall; [reflexivity|].
  cbn [social.walkLoop]. rewrite visitFile_no_match by (apply Hall; left; reflexivity).
  apply IH. intros q' Hq'. apply Hall. right. exact Hq'.
Qed.

Lemma walkLoop_first_match f postID before p after :
  (forall q, In q before -> matchesPost f postID q = false) ->
  social.walkLoop f postID (before ++ p :: after)
  = match social.visitFile f postID p with
    | social.Continue => social.walkLoop f postID after
    | v => v
    end.
Proof.
  induction before as [|q before IH]; intros Hall; [reflexivity|].
  cbn [app social.walkLoop].
  rewrite visitFile_no_match by (apply Hall; left; reflexivity).
  apply IH. intros q' Hq'. apply Hall. right. exact Hq'.
Qed.

Lemma visitFile_match f postID path data yamlStr body fm content f' :
  HasSuffix path ".md" = true ->
  fs.ReadFile f path = Some data ->
  ParseFrontmatter data = (yamlStr, body) ->
  yamlStr <> "" ->
  UnmarshalSocial yamlStr = Some fm ->
  sfID fm = postID ->
  RenderSocial (social.setSynced fm) body = Some content ->
  fs.AtomicWrite f path content = Some f' ->
  social.visitFile f postID path = social.Found f'.
Proof.
  intros Hmd Hread Hfm Hyaml Hun Hid Hrender Hwrite.
  unfold social.visitFile. rewrite Hmd, Hread, Hfm. cbn [negb].
  destruct (String.eqb_spec yamlStr ""); [contradiction|].
  rewrite Hun, Hid, String.eqb_refl. cbn [negb].
  rewrite Hrender, Hwrite. reflexivity.
Qed.

(** The rewritten file decodes to the post it held, with the flag set. *)
Lemma parseSocialPost_synced data yamlStr body fm content :
  ParseFrontmatter data = (yamlStr, body) ->
  yamlStr <> "" ->
  UnmarshalSocial yamlStr = Some fm ->
  socialCodecAt (social.setSynced fm) body content ->
  social.parseSocialPost content
  = match social.parseSocialPost data with
    | Ok old => Ok (withSynced old)
    | Err e => Err e
    end.
Proof.
  intros Hfm Hyaml Hun (_ & yamlStr' & Hfm' & Hyaml' & Hun').
  unfold social.parseSocialPost. rewrite Hfm, Hfm'.
  destruct (String.eqb_spec yamlStr ""); [contradiction|].
  destruct (String.eqb_spec yamlStr' ""); [contradiction|].
  rewrite Hun, Hun'.
  cbn [social.setSynced sfID sfCreatedAt sfParentPostID sfAuthor sfTags sfSynced].
  destruct (uuid.Parse (sfID fm)) as [id|]; [|reflexivity].
  destruct (ParseTime (sfCreatedAt fm)) as [t|]; [|reflexivity].
  destruct (negb (String.eqb (sfParentPostID fm) "")); [|reflexivity].
  destruct (uuid.Parse (sfParentPostID fm)); reflexivity.
Qed.

Lemma parseSocialPost_synced_flag data yamlStr body fm content post :
  ParseFrontmatter data = (yamlStr, body) ->
  yamlStr <> "" ->
  UnmarshalSocial yamlStr = Some fm ->
  socialCodecAt (social.setSynced fm) body content ->
  social.parseSocialPost content = Ok post ->
  social.Synced post = true.
Proof.
  intros Hfm Hyaml Hun Hcodec Hpost.
  rewrite (parseSocialPost_synced data yamlStr body fm content) in Hpost by assumption.
  destruct (social.parseSocialPost data) as [old|e]; [|discriminate].
  injection Hpost as <-. reflexivity.
Qed.

(** *** The scan of [ListPosts], as a list of decoded files *)

Lemma social_scanFiles_spec f opts dirPath files :
  social.scanFiles f opts dirPath files []
  = flat_map (decodePostFile f opts dirPath) files.
Proof.
  induction files as [|file rest IH]; [reflexivity|].
  cbn [social.scanFiles flat_map]. unfold decodePostFile at 1.
  destruct file.2; cbn [orb]; [apply IH|].
  destruct (HasSuffix file.1 ".md"); cbn [negb]; [|apply IH].
  destruct (fs.ReadFile f (fs.Join2 dirPath file.1)) as [data|]; [|apply IH].
  destruct (social.parseSocialPost data) as [post|e]; [|apply IH].
  unfold passesAll.
  destruct (social.passesAgent opts post); cbn [negb andb]; [|apply IH].
  destruct (social.passesTag opts post); cbn [negb andb]; [|apply IH].
  destruct (social.passesThread opts post); cbn [negb andb]; [|apply IH].
  rewrite social_scanFiles_acc, IH. reflexivity.
Qed.

Lemma social_scanDateDirs_spec f opts postsDir dateDirs :
  social.scanDateDirs f opts postsDir dateDirs []
  = flat_map (postsOfDir f opts postsDir) dateDirs.
Proof.
  induction dateDirs as [|d rest IH]; [reflexivity|].
  cbn [social.scanDateDirs flat_map]. unfold postsOfDir at 1.
  destruct d.2; cbn [negb]; [|apply IH].
  destruct (fs.ReadDir f (fs.Join2 postsDir d.1)) as [files|]; [|apply IH].
  rewrite social_scanDateDirs_acc, social_scanFiles_spec, IH. reflexivity.
Qed.

Lemma collected_iff s f opts post :
  collected s f opts post <->
  exists dateDirs d,
    fs.ReadDir f (fs.Join2 (social.dataDir s) "posts") = Some dateDirs /\
    In d dateDirs /\
    In post (postsOfDir f opts (fs.Join2 (social.dataDir s) "posts") d).
Proof.
  unfold collected, collectPosts.
  split.
  - intros (l & Hl & Hin).
    destruct (fs.ReadDir f (fs.Join2 (social.dataDir s) "posts")) as [dateDirs|] eqn:Edir.
    + assert (Hl' : l = flat_map (postsOfDir f opts (fs.Join2 (social.dataDir s) "posts"))
                                 dateDirs \/ l = []).
      { destruct (fs.Stat f (fs.Join2 (social.dataDir s) "posts"));
          injection Hl as <-; rewrite ?social_scanDateDirs_spec; auto. }
      destruct Hl' as [-> | ->]; [|contradiction].
      apply in_flat_map in Hin as (d & Hd & Hp). exists dateDirs, d. auto.
    + destruct (fs.Stat f (fs.Join2 (social.dataDir s) "posts")); try discriminate.
      injection Hl as <-. contradiction.
  - intros (dateDirs & d & Hdir & Hd & Hp).
    unfold fs.ReadDir in Hdir.
    destruct (fs.Stat f (fs.Join2 (social.dataDir s) "posts")) as [[c|es]| |] eqn:Est;
      try discriminate.
    injection Hdir as <-.
    eexists. split.
    + unfold fs.ReadDir. rewrite Est. reflexivity.
    + rewrite social_scanDateDirs_spec. apply in_flat_map. exists d. auto.
Qed.

Lemma listed_collected s f opts post : listed s f opts post -> collected s f opts post.
Proof.
  intros (l & Hl & Hin). rewrite ListPosts_collect in Hl.
  destruct (collectPosts s f opts) as [kept|e] eqn:Ek; [|discriminate].
  injection Hl as <-. exists kept. split; [exact Ek|].
  assert (Hsub : forall x, In x (social.paginate opts (social.sortByDateDesc kept))
                           -> In x (social.sortByDateDesc kept)).
  { intros x. unfold social.paginate.
    destruct ((0 <? social.Offset opts) &&
              (Z.of_nat (length (social.sortByDateDesc kept)) <=? social.Offset opts));
      [contradiction|].
    intros Hx. apply list_elem_of_In in Hx. apply list_elem_of_In.
    apply elem_of_take in Hx as (i & Hx & _).
    destruct (0 <? social.Offset opts).
    - rewrite lookup_drop in Hx. eapply list_elem_of_lookup_2. exact Hx.
    - eapply list_elem_of_lookup_2. exact Hx. }
  apply Hsub in Hin. apply list_elem_of_In in Hin. apply list_elem_of_In.
  unfold social.sortByDateDesc in Hin. rewrite merge_sort_Permutation in Hin. exact Hin.
Qed.

End MarkSyncedFacts.

Section MarkSyncedObserved.
Context `{Codec}.

Lemma resolve_cwd f f' q : fs.cwd f' = fs.cwd f -> fs.resolve f' q = fs.resolve f q.
Proof. intros Hcwd. unfold fs.resolve, fs.Abs. rewrite Hcwd. reflexivity. Qed.

Lemma ReadFile_resolve f p q :
  fs.resolve f q = fs.resolve f p -> fs.ReadFile f q = fs.ReadFile f p.
Proof. intros Heq. unfold fs.ReadFile, fs.Stat. rewrite Heq. reflexivity. Qed.

(** After a file has been rewritten, a post that is listed was collected
  before or is decoded from the new content. *)
Lemma collected_after_rewrite s f f' p content opts post :
  fs.cwd f' = fs.cwd f ->
  fs.ReadFile f' p = Some content ->
  (forall q, fs.resolve f q <> fs.resolve f p -> fs.ReadFile f' q = fs.ReadFile f q) ->
  (forall q, fs.ReadDir f' q = fs.ReadDir f q) ->
  collected s f' opts post ->
  collected s f opts post \/ social.parseSocialPost content = Ok post.
Proof.
  intros Hcwd Hnew Hother Hdirs Hc.
  apply collected_iff in Hc as (dateDirs & d & Hdir & Hd & Hp).
  rewrite Hdirs in Hdir. unfold postsOfDir in Hp.
  destruct d.2 eqn:Ed2; [|contradiction].
  rewrite Hdirs in Hp.
  destruct (fs.ReadDir f (fs.Join2 (fs.Join2 (social.dataDir s) "posts") d.1))
    as [files|] eqn:Efiles; [|contradiction].
  apply in_flat_map in Hp as (file & Hfile & Hp).
  destruct (decide (fs.resolve f (fs.Join2 (fs.Join2 (fs.Join2 (social.dataDir s) "posts") d.1)
                                           file.1) = fs.resolve f p)) as [Heq|Hne].
  - right. unfold decodePostFile in Hp.
    destruct file.2; [contradiction|].
    destruct (HasSuffix file.1 ".md"); [|contradiction].
    rewrite (ReadFile_resolve f' p) in Hp
      by (rewrite !(resolve_cwd f f') by assumption; exact Heq).
    rewrite Hnew in Hp.
    destruct (social.parseSocialPost content) as [post'|e]; [|contradiction].
    destruct (passesAll opts post'); [|contradiction].
    destruct Hp as [->|[]]. reflexivity.
  - left. apply collected_iff. exists dateDirs, d. split; [exact Hdir|].
    split; [exact Hd|]. unfold postsOfDir. rewrite Ed2, Efiles.
    apply in_flat_map. exists file. split; [exact Hfile|].
    unfold decodePostFile in *. rewrite (Hother _ Hne) in Hp. exact Hp.
Qed.

(** The rewritten file is collected by the next scan when it is one of the
  files that the scan reads and its post passes the filters. *)
Lemma collected_rewritten s f' opts d n dateDirs files content post :
  fs.ReadDir f' (fs.Join2 (social.dataDir s) "posts") = Some dateDirs ->
  In (d, true) dateDirs ->
  fs.ReadDir f' (fs.Join2 (fs.Join2 (social.dataDir s) "posts") d) = Some files ->
  In (n, false) files ->
  HasSuffix n ".md" = true ->
  fs.ReadFile f' (fs.Join2 (fs.Join2 (fs.Join2 (social.dataDir s) "posts") d) n)
  = Some content ->
  social.parseSocialPost content = Ok post ->
  passesAll opts post = true ->
  collected s f' opts post.
Proof.
  intros Hdir Hd Hfiles Hn Hmd Hread Hpost Hpass.
  apply collected_iff. exists dateDirs, (d, true). split; [exact Hdir|].
  split; [exact Hd|]. unfold postsOfDir. cbn [fst snd]. rewrite Hfiles.
  apply in_flat_map. exists (n, false). split; [exact Hn|].
  unfold decodePostFile. cbn [fst snd]. rewrite Hmd, Hread, Hpost, Hpass.
  left. reflexivity.
Qed.

End MarkSyncedObserved.

(** C6: [MarkSynced] walks the post files.  When no file has the
  identifier in its frontmatter, it returns the not-found error and the
  file system is the one it was given.  Otherwise the first such file is
  rewritten with the flag set: its new content is the frontmatter with
  [synced: true] and the body it had, no other file and no directory
  listing changes, the file decodes to the post it held with the flag
  set, and the next [ListPosts] lists only posts that were collected
  before or that come from the rewritten file, which it collects with the
  flag set when the file is one of those it reads. *)
Theorem C6_mark_synced (C : Codec) (s : social.SocialMDStore) (f : fs.FS)
    (postID : string) :
  let postsDir := fs.Join2 (social.dataDir s) "posts" in
  ((forall q, In q (fs.WalkFiles f postsDir) -> matchesPost f postID q = false) ->
   social.MarkSynced s f postID = (f, Some (ErrPostNotFound postID))) /\
  (forall before p after data yamlStr body fm content,
      fs.WalkFiles f postsDir = (before ++ p :: after)%list ->
      (forall q, In q before -> matchesPost f postID q = false) ->
      HasSuffix p ".md" = true ->
      fs.ReadFile f p = Some data ->
      ParseFrontmatter data = (yamlStr, body) ->
      yamlStr <> "" ->
      UnmarshalSocial yamlStr = Some fm ->
      sfID fm = postID ->
      socialCodecAt (social.setSynced fm) body content ->
      exists f',
        social.MarkSynced s f postID = (f', None) /\
        fs.ReadFile f' p = Some content /\
        (forall q, fs.resolve f q <> fs.resolve f p -> fs.ReadFile f' q = fs.ReadFile f q) /\
        (forall q, fs.ReadDir f' q = fs.ReadDir f q) /\
        social.parseSocialPost content
        = match social.parseSocialPost data with
          | Ok old => Ok (withSynced old)
          | Err e => Err e
          end /\
        (forall opts post,
            listed s f' opts post ->
            collected s f opts post
            \/ (social.parseSocialPost content = Ok post /\ social.Synced post = true)) /\
        (forall opts d n dateDirs files post,
            p = fs.Join2 (fs.Join2 postsDir d) n ->
            fs.ReadDir f postsDir = Some dateDirs -> In (d, true) dateDirs ->
            fs.ReadDir f (fs.Join2 postsDir d) = Some files -> In (n, false) files ->
            HasSuffix n ".md" = true ->
            social.parseSocialPost content = Ok post ->
            passesAll opts post = true ->
            collected s f' opts post /\ social.Synced post = true)).
Proof.
  intros postsDir. split.
  - intros Hnone. unfold social.MarkSynced. fold postsDir.
    rewrite walkLoop_no_match by assumption. reflexivity.
  - intros before p after data yamlStr body fm content
           Hwalk Hbefore Hmd Hread Hfm Hyaml Hun Hid Hcodec.
    destruct (AtomicWrite_existing f p data content Hread)
      as (f' & Hwrite & Hcwd & Hnew & Hother & Hdirs & _).
    exists f'.
    assert (Hrender : RenderSocial (social.setSynced fm) body = Some content)
      by apply Hcodec.
    split; [|split; [exact Hnew|split; [exact Hother|split; [exact Hdirs|split; [|split]]]]].
    + unfold social.MarkSynced. fold postsDir. rewrite Hwalk.
      rewrite walkLoop_first_match by assumption.
      rewrite (visitFile_match f postID p data yamlStr body fm content f') by assumption.
      reflexivity.
    + eapply parseSocialPost_synced; eassumption.
    + intros opts post Hlisted. apply listed_collected in Hlisted.
      destruct (collected_after_rewrite s f f' p content opts post
                  Hcwd Hnew Hother Hdirs Hlisted) as [Hold|Hpost]; [left; exact Hold|].
      right. split; [exact Hpost|].
      eapply parseSocialPost_synced_flag; eassumption.
    + intros opts d n dateDirs files post -> Hdir Hd Hfiles Hn Hmdn Hpost Hpass.
      split.
      * eapply collected_rewritten; try eassumption.
        -- rewrite Hdirs. exact Hdir.
        -- rewrite Hdirs. exact Hfiles.
      * eapply parseSocialPost_synced_flag; eassumption.
Qed.

(** ** Writing an entry and reading it back *)

Section JournalRoundTrip.
Context `{Codec}.


End JournalRoundTrip.

(** ** Joining a name to a path *)

Section JoinFacts.

Lemma cleanStep_false_kept stack seg :
  noSlash seg = true -> Forall keptName stack ->
  Forall keptName (fs.cleanStep false stack seg).
Proof.
  intros Hseg Hstack. unfold fs.cleanStep.
  destruct (String.eqb_spec seg ""); [assumption|].
  destruct (String.eqb_spec seg "."); [assumption|]. cbn [orb].
  destruct (String.eqb_spec seg "..") as [->|Hdd].
  - destruct stack as [|top below]; [repeat constructor|].
    inversion Hstack; subst.
    destruct (String.eqb top ".."); [constructor; [left; reflexivity|assumption]|assumption].
  - constructor; [|assumption]. right. repeat split; assumption.
Qed.

Lemma fold_cleanStep_false_kept segs stack :
  Forall (fun x => noSlash x = true) segs -> Forall keptName stack ->
  Forall keptName (fold_left (fs.cleanStep false) segs stack).
Proof.
  revert stack. induction segs as [|seg segs IH]; intros stack Hsegs Hstack; [assumption|].
  inversion Hsegs; subst. cbn [fold_left]. apply IH; [assumption|].
  apply cleanStep_false_kept; assumption.
Qed.

Lemma cleanSegments_false_kept path : Forall keptName (fs.cleanSegments false path).
Proof.
  unfold fs.cleanSegments. apply Forall_rev.
  apply fold_cleanStep_false_kept; [apply Split_noSlash|constructor].
Qed.

Lemma keptName_noSlash segs :
  Forall keptName segs -> Forall (fun x => noSlash x = true) segs.
Proof.
  intros Hsegs. eapply Forall_impl; [exact Hsegs|].
  intros x [->|(_ & _ & _ & Hx)]; [reflexivity|exact Hx].
Qed.

Lemma cleanStep_true_dotdot_pop top below :
  properName top -> fs.cleanStep true (top :: below) ".." = below.
Proof.
  intros (_ & _ & Hdd & _). unfold fs.cleanStep. cbn [String.eqb Ascii.eqb orb].
  destruct (String.eqb_spec top ".."); [contradiction|reflexivity].
Qed.

Lemma cleanStep_skip rooted st seg :
  seg = "" \/ seg = "." -> fs.cleanStep rooted st seg = st.
Proof. intros [-> | ->]; reflexivity. Qed.

Lemma cleanStep_dotdot rooted st :
  fs.cleanStep rooted st ".."
  = match st with
    | top :: below => if String.eqb top ".." then ".." :: st else below
    | [] => if rooted then [] else [".."]
    end.
Proof. reflexivity. Qed.

Lemma cleanStep_name rooted st seg :
  seg <> "" -> seg <> "." -> seg <> ".." -> fs.cleanStep rooted st seg = seg :: st.
Proof.
  intros H1 H2 H3. unfold fs.cleanStep.
  destruct (String.eqb_spec seg ""); [contradiction|].
  destruct (String.eqb_spec seg "."); [contradiction|].
  destruct (String.eqb_spec seg ".."); [contradiction|]. reflexivity.
Qed.

Lemma clean_compat_step U x S :
  Forall keptName U ->
  fold_left (fs.cleanStep true) (List.rev (fs.cleanStep false U x)) S
  = fs.cleanStep true (fold_left (fs.cleanStep true) (List.rev U) S) x.
Proof.
  intros Hkept.
  destruct (String.eqb_spec x "") as [->|H1]; [reflexivity|].
  destruct (String.eqb_spec x ".") as [->|H2]; [reflexivity|].
  destruct (String.eqb_spec x "..") as [->|H3].
  - rewrite (cleanStep_dotdot false).
    destruct U as [|top below]; [reflexivity|].
    inversion Hkept as [|? ? Htop Hbelow]; subst.
    destruct (String.eqb_spec top "..") as [->|Htopdd].
    + cbn [List.rev]. rewrite !fold_left_app. reflexivity.
    + destruct Htop as [Htop|Htop]; [contradiction|].
      cbn [List.rev]. rewrite fold_left_app. cbn [fold_left].
      rewrite (cleanStep_push _ top Htop).
      rewrite cleanStep_true_dotdot_pop by assumption. reflexivity.
  - rewrite (cleanStep_name false) by assumption.
    cbn [List.rev]. rewrite fold_left_app. reflexivity.
Qed.

(** Cleaning a path that is not rooted and then walking it from a rooted
  stack gives what walking the path itself gives. *)
Lemma fold_clean_compat segs :
  Forall (fun x => noSlash x = true) segs ->
  forall S,
    fold_left (fs.cleanStep true) (List.rev (fold_left (fs.cleanStep false) segs [])) S
    = fold_left (fs.cleanStep true) segs S.
Proof.
  induction segs as [|x segs IH] using rev_ind; intros Hsegs S; [reflexivity|].
  apply Forall_app in Hsegs as [Hsegs Hx].
  rewrite !fold_left_app. cbn [fold_left].
  rewrite <- (IH Hsegs S). apply clean_compat_step.
  apply fold_cleanStep_false_kept; [assumption|constructor].
Qed.

Lemma Join_nonempty segs :
  segs <> [] -> Forall keptName segs -> Join segs fs.Separator <> "".
Proof.
  destruct segs as [|s r]; [congruence|]. intros _ Hall.
  inversion Hall as [|? ? Hs _]; subst.
  assert (Hne : s <> "") by (destruct Hs as [->|[Hs _]]; [discriminate|exact Hs]).
  destruct s as [|c s]; [congruence|].
  destruct r; [discriminate|]. rewrite Join_cons by discriminate.
  rewrite app_cons_s. discriminate.
Qed.

Lemma Join_relative segs :
  Forall keptName segs -> fs.IsAbs (Join segs fs.Separator) = false.
Proof.
  intros Hall. destruct segs as [|s r]; [reflexivity|].
  inversion Hall as [|? ? Hs _]; subst.
  assert (Hhead : exists c x, Join (s :: r) fs.Separator = String c x /\ c <> fs.slash).
  { destruct Hs as [->|(Hne & _ & _ & Hslash)].
    - destruct r; [exists "."%char, "."; split; [reflexivity|discriminate]|].
      rewrite Join_cons by discriminate. rewrite app_cons_s.
      eexists _, _. split; [reflexivity|discriminate].
    - destruct s as [|c s]; [congruence|]. cbn in Hslash.
      apply andb_true_iff in Hslash as [Hc _]. apply negb_true_iff in Hc.
      apply Ascii.eqb_neq in Hc.
      destruct r; [exists c, s; split; [reflexivity|assumption]|].
      rewrite Join_cons by discriminate. rewrite app_cons_s.
      eexists _, _. split; [reflexivity|assumption]. }
  destruct Hhead as (c & x & -> & Hc).
  unfold fs.IsAbs, fs.Separator. cbn [HasPrefix].
  destruct (Ascii.eqb_spec "/" c) as [<-|_]; [|reflexivity].
  exfalso. apply Hc. reflexivity.
Qed.

(** [Clean] of a path that is not rooted: its shape and its names. *)
Lemma Clean_relative x :
  fs.IsAbs x = false ->
  fs.IsAbs (fs.Clean x) = false /\ fs.Clean x <> "" /\
  forall S, fold_left (fs.cleanStep true) (Split fs.slash (fs.Clean x)) S
            = fold_left (fs.cleanStep true) (Split fs.slash x) S.
Proof.
  intros Hrel. unfold fs.Clean. rewrite Hrel.
  pose proof (cleanSegments_false_kept x) as Hkept.
  destruct (String.eqb_spec (Join (fs.cleanSegments false x) fs.Separator) "") as [Hempty|Hne].
  - split; [reflexivity|]. split; [discriminate|]. intros S.
    assert (Hnil : fs.cleanSegments false x = []).
    { destruct (fs.cleanSegments false x) eqn:E; [reflexivity|].
      exfalso. eapply Join_nonempty; [|exact Hkept|exact Hempty]. discriminate. }
    rewrite <- (fold_clean_compat _ (Split_noSlash x) S).
    unfold fs.cleanSegments in Hnil. rewrite Hnil. reflexivity.
  - split; [apply Join_relative; assumption|]. split; [assumption|]. intros S.
    assert (Hnn : fs.cleanSegments false x <> []).
    { intros E. rewrite E in Hne. apply Hne. reflexivity. }
    rewrite Split_Join by (assumption || apply keptName_noSlash; assumption).
    unfold fs.cleanSegments. apply fold_clean_compat, Split_noSlash.
Qed.

Lemma cleanSegments_name rooted a b :
  properName b ->
  fs.cleanSegments rooted (a +:+ fs.Separator +:+ b) = (fs.cleanSegments rooted a ++ [b])%list.
Proof.
  intros Hb. unfold fs.cleanSegments.
  change (fs.Separator +:+ b) with (String fs.slash b).
  rewrite Split_app, fold_left_app.
  rewrite (noSlash_Split b) by apply Hb. cbn [fold_left].
  assert (Hpush : forall st, fs.cleanStep rooted st b = b :: st).
  { intros st. destruct Hb as (H1 & H2 & H3 & _). unfold fs.cleanStep.
    destruct (String.eqb_spec b ""); [contradiction|].
    destruct (String.eqb_spec b "."); [contradiction|].
    destruct (String.eqb_spec b ".."); [contradiction|]. reflexivity. }
  rewrite Hpush. reflexivity.
Qed.

Lemma cleanSegments_join c x :
  fs.cleanSegments true (c +:+ fs.Separator +:+ x)
  = List.rev (fold_left (fs.cleanStep true) (Split fs.slash x)
                        (fold_left (fs.cleanStep true) (Split fs.slash c) [])).
Proof.
  unfold fs.cleanSegments. change (fs.Separator +:+ x) with (String fs.slash x).
  rewrite Split_app, fold_left_app. reflexivity.
Qed.

Lemma resolve_absolute f a :
  fs.IsAbs a = true -> fs.resolve f a = fs.cleanSegments true a.
Proof.
  intros Habs. unfold fs.resolve, fs.Abs. rewrite Habs, (Clean_rooted a Habs).
  apply cleanSegments_pathOf, cleanSegments_proper.
Qed.

Lemma resolve_relative f a :
  fs.IsAbs (fs.cwd f) = true -> fs.IsAbs a = false ->
  fs.resolve f a = fs.cleanSegments true (fs.cwd f +:+ fs.Separator +:+ a).
Proof.
  intros Hcwd Hrel. unfold fs.resolve, fs.Abs, fs.Join2. rewrite Hrel.
  destruct (String.eqb_spec (fs.cwd f) "") as [E|_]; [rewrite E in Hcwd; discriminate|].
  destruct (String.eqb_spec a "") as [->|Hne].
  - rewrite (Clean_rooted _ Hcwd).
    rewrite cleanSegments_pathOf by apply cleanSegments_proper.
    rewrite cleanSegments_join. reflexivity.
  - rewrite (Clean_rooted _ (IsAbs_app _ _ Hcwd)).
    apply cleanSegments_pathOf, cleanSegments_proper.
Qed.

Lemma IsAbs_join a b :
  a <> "" -> fs.IsAbs (a +:+ fs.Separator +:+ b) = fs.IsAbs a.
Proof.
  intros Hne. destruct a as [|c a]; [congruence|]. reflexivity.
Qed.

Lemma properName_relative b : properName b -> fs.IsAbs b = false.
Proof.
  intros (Hne & _ & _ & Hs). destruct b as [|c b]; [congruence|].
  cbn in Hs. apply andb_true_iff in Hs as [Hc _]. apply negb_true_iff in Hc.
  unfold fs.IsAbs, fs.Separator. cbn [HasPrefix].
  rewrite Ascii.eqb_sym. unfold fs.slash in Hc. rewrite Hc. reflexivity.
Qed.

(** Joining a proper name to a path adds the name to what the path
  resolves to. *)
Lemma resolve_Join2 f a b :
  fs.IsAbs (fs.cwd f) = true -> properName b ->
  fs.resolve f (fs.Join2 a b) = (fs.resolve f a ++ [b])%list.
Proof.
  intros Hcwd Hb.
  assert (Hbne : b <> "") by apply Hb.
  unfold fs.Join2.
  destruct (String.eqb_spec b ""); [contradiction|].
  destruct (String.eqb_spec a "") as [->|Hane].
  - pose proof (properName_relative b Hb) as Hbrel.
    destruct (Clean_relative b Hbrel) as (Hrel & _ & Hfold).
    rewrite (resolve_relative f _ Hcwd Hrel), cleanSegments_join, Hfold.
    rewrite <- (cleanSegments_join (fs.cwd f) b).
    rewrite cleanSegments_name by assumption.
    rewrite (resolve_relative f "" Hcwd eq_refl), !cleanSegments_join. reflexivity.
  - destruct (fs.IsAbs a) eqn:Ea.
    + assert (Habs : fs.IsAbs (a +:+ fs.Separator +:+ b) = true)
        by (rewrite IsAbs_join; assumption).
      rewrite (Clean_rooted _ Habs).
      rewrite (resolve_absolute f (pathOf _) (IsAbs_pathOf _)).
      rewrite cleanSegments_pathOf by apply cleanSegments_proper.
      rewrite cleanSegments_name by assumption.
      rewrite (resolve_absolute f a Ea). reflexivity.
    + assert (Hrelx : fs.IsAbs (a +:+ fs.Separator +:+ b) = false)
        by (rewrite IsAbs_join; assumption).
      destruct (Clean_relative _ Hrelx) as (Hrel & _ & Hfold).
      rewrite (resolve_relative f _ Hcwd Hrel), cleanSegments_join, Hfold.
      rewrite <- (cleanSegments_join (fs.cwd f) (a +:+ fs.Separator +:+ b)).
      replace (fs.cwd f +:+ fs.Separator +:+ a +:+ fs.Separator +:+ b)
        with ((fs.cwd f +:+ fs.Separator +:+ a) +:+ fs.Separator +:+ b)
        by (rewrite !app_assoc_s; reflexivity).
      rewrite cleanSegments_name by assumption.
      rewrite (resolve_relative f a Hcwd Ea). reflexivity.
Qed.

End JoinFacts.

(** ** The names of the files are proper names *)

Section NameFacts.

Lemma noSlash_app a b : noSlash (a +:+ b) = noSlash a && noSlash b.
Proof.
  induction a as [|c a IH]; [reflexivity|].
  rewrite app_cons_s. cbn [noSlash]. rewrite IH, andb_assoc. reflexivity.
Qed.

Lemma noSlash_substring s : noSlash s = true -> forall n m, noSlash (String.substring n m s) = true.
Proof.
  induction s as [|c s IH]; intros Hs n m.
  - destruct n, m; reflexivity.
  - cbn in Hs. apply andb_true_iff in Hs as [Hc Hs].
    destruct n as [|n]; cbn [String.substring].
    + destruct m as [|m]; [reflexivity|]. cbn [noSlash]. rewrite Hc, IH by assumption.
      reflexivity.
    + apply IH. assumption.
Qed.

Lemma noSlash_hexByte c : noSlash (uuid.hexByte c) = true.
Proof. destruct c as [[] [] [] [] [] [] [] []]; reflexivity. Qed.

Lemma noSlash_encodeHex l : noSlash (uuid.encodeHex l) = true.
Proof.
  induction l as [|c l IH]; [reflexivity|].
  cbn [uuid.encodeHex]. rewrite noSlash_app, noSlash_hexByte, IH. reflexivity.
Qed.

Lemma noSlash_uuid u : noSlash (uuid.String u) = true.
Proof.
  unfold uuid.String. rewrite !noSlash_app, !noSlash_encodeHex. reflexivity.
Qed.

Lemma digitChar_noSlash n : Ascii.eqb (digitChar n) fs.slash = false.
Proof.
  unfold digitChar.
  pose proof (Z.mod_pos_bound n 10 ltac:(lia)) as Hb.
  assert (Hcases : n mod 10 = 0 \/ n mod 10 = 1 \/ n mod 10 = 2 \/ n mod 10 = 3 \/
                   n mod 10 = 4 \/ n mod 10 = 5 \/ n mod 10 = 6 \/ n mod 10 = 7 \/
                   n mod 10 = 8 \/ n mod 10 = 9) by lia.
  repeat (destruct Hcases as [->|Hcases]; [reflexivity|]). rewrite Hcases. reflexivity.
Qed.

Lemma noSlash_digits fuel : forall n acc,
  noSlash acc = true -> noSlash (digitsFuel fuel n acc) = true.
Proof.
  induction fuel as [|fuel IH]; intros n acc Hacc; [exact Hacc|].
  cbn [digitsFuel].
  assert (Hnext : noSlash (String (digitChar n) acc) = true).
  { cbn [noSlash]. rewrite digitChar_noSlash, Hacc. reflexivity. }
  destruct (n / 10 =? 0); [exact Hnext|]. apply IH. exact Hnext.
Qed.

Lemma noSlash_zeros k : noSlash (zeros k) = true.
Proof. induction k as [|k IH]; [reflexivity|]. cbn. exact IH. Qed.

Lemma noSlash_appendInt x w : noSlash (appendInt x w) = true.
Proof.
  unfold appendInt. rewrite !noSlash_app, noSlash_zeros.
  unfold decimal. rewrite noSlash_digits by reflexivity.
  destruct (x <? 0); reflexivity.
Qed.

Lemma appendInt_nonempty x w : appendInt x w <> "".
Proof.
  unfold appendInt, decimal. cbn [digitsFuel].
  set (d := if Z.abs x / 10 =? 0 then _ else _).
  assert (Hd : d <> "").
  { unfold d. destruct (Z.abs x / 10 =? 0); [discriminate|].
    generalize (Z.to_nat (Z.log2 (Z.abs x))) as fuel.
    assert (Hgen : forall fuel n acc, acc <> "" -> digitsFuel fuel n acc <> "").
    { induction fuel as [|fuel IH]; intros n acc Hacc; [exact Hacc|].
      cbn [digitsFuel]. destruct (n / 10 =? 0); [discriminate|]. apply IH. discriminate. }
    intros fuel. apply Hgen. discriminate. }
  intros Heq. apply (f_equal String.length) in Heq.
  rewrite !length_app_s in Heq. destruct d; [congruence|]. cbn in Heq. lia.
Qed.

(** A text with a dash after a first part that is not empty is neither
  empty nor [.] nor [..], as long as the first part has no dot. *)
Lemma dashed_name a b :
  a <> "" -> noSlash (a +:+ "-" +:+ b) = true ->
  (forall c r, a = String c r -> c <> "."%char) ->
  properName (a +:+ "-" +:+ b).
Proof.
  intros Ha Hs Hdot. destruct a as [|c a]; [congruence|].
  specialize (Hdot c a eq_refl).
  rewrite app_cons_s in *. repeat split; try discriminate; try assumption.
  - intros [= Hc _]. contradiction.
  - intros [= Hc _]. contradiction.
Qed.

Lemma digitChar_not_dot n : digitChar n <> "."%char.
Proof.
  unfold digitChar.
  pose proof (Z.mod_pos_bound n 10 ltac:(lia)) as Hb.
  assert (Hcases : n mod 10 = 0 \/ n mod 10 = 1 \/ n mod 10 = 2 \/ n mod 10 = 3 \/
                   n mod 10 = 4 \/ n mod 10 = 5 \/ n mod 10 = 6 \/ n mod 10 = 7 \/
                   n mod 10 = 8 \/ n mod 10 = 9) by lia.
  repeat (destruct Hcases as [->|Hcases]; [discriminate|]). rewrite Hcases. discriminate.
Qed.

Lemma digits_head fuel : forall n acc c r,
  (forall c' r', acc = String c' r' -> c' <> "."%char) ->
  digitsFuel fuel n acc = String c r -> c <> "."%char.
Proof.
  induction fuel as [|fuel IH]; intros n acc c r Hacc Heq.
  - eapply Hacc. exact Heq.
  - cbn [digitsFuel] in Heq.
    assert (Hnext : forall c' r', String (digitChar n) acc = String c' r' -> c' <> "."%char).
    { intros c' r' [= <- _]. apply digitChar_not_dot. }
    destruct (n / 10 =? 0).
    + eapply Hnext. exact Heq.
    + eapply IH; [exact Hnext|exact Heq].
Qed.

Lemma appendInt_head x w c r : appendInt x w = String c r -> c <> "."%char.
Proof.
  unfold appendInt. destruct (x <? 0).
  - rewrite app_cons_s. intros [= <- _]. discriminate.
  - rewrite app_nil_l_s. destruct (w - String.length (decimal (Z.abs x)))%nat as [|k].
    + cbn [zeros]. rewrite app_nil_l_s. unfold decimal.
      apply digits_head. intros c' r' Hx. discriminate Hx.
    + cbn [zeros]. rewrite app_cons_s. intros [= <- _]. discriminate.
Qed.

Lemma dateDirName_proper t : properName (dateDirName t).
Proof.
  unfold dateDirName. apply dashed_name.
  - apply appendInt_nonempty.
  - rewrite !noSlash_app, !noSlash_appendInt. reflexivity.
  - intros c r. apply appendInt_head.
Qed.

Lemma recordFileName_proper t id : properName (recordFileName t id).
Proof.
  unfold recordFileName. apply dashed_name.
  - apply appendInt_nonempty.
  - rewrite !noSlash_app, !noSlash_appendInt.
    rewrite noSlash_substring by apply noSlash_uuid. reflexivity.
  - intros c r. apply appendInt_head.
Qed.

End NameFacts.

(** ** Reading what has been written *)

Section WriteFacts.

Lemma assoc_insertEntry s c es :
  fs.assoc s es = None -> fs.assoc s (fs.insertEntry s c es) = Some c.
Proof.
  induction es as [|[k old] es IH]; intros Hnone.
  - cbn. rewrite String.eqb_refl. reflexivity.
  - cbn [fs.assoc] in Hnone. destruct (String.eqb k s) eqn:Ek; [discriminate|].
    cbn [fs.insertEntry]. destruct (String.leb s k).
    + cbn [fs.assoc]. rewrite String.eqb_refl. reflexivity.
    + cbn [fs.assoc]. rewrite Ek. apply IH. exact Hnone.
Qed.

Lemma obsFile_fresh segs data : obsFile segs (fs.fresh segs data) = Some data.
Proof.
  induction segs as [|s r IH]; [reflexivity|].
  unfold obsFile in *. cbn [fs.fresh fs.find fs.assoc]. rewrite String.eqb_refl. exact IH.
Qed.

Lemma writeAt_read segs : forall t t' data,
  fs.writeAt segs data t = Some t' -> obsFile segs t' = Some data.
Proof.
  induction segs as [|s r IH]; intros t t' data Hw.
  - destruct t; [|discriminate]. injection Hw as <-. reflexivity.
  - destruct t as [c0|es]; [discriminate|]. cbn [fs.writeAt] in Hw.
    destruct (fs.assoc s es) as [c|] eqn:Ec.
    + destruct (fs.writeAt r data c) as [c'|] eqn:Ew; [|discriminate].
      injection Hw as <-. unfold obsFile. cbn [fs.find].
      rewrite (assoc_replace_eq s c' es c Ec). apply (IH c c' data Ew).
    + injection Hw as <-. unfold obsFile. cbn [fs.find].
      rewrite assoc_insertEntry by assumption. apply obsFile_fresh.
Qed.

Lemma AtomicWrite_read f path data f' :
  fs.IsAbs (fs.cwd f) = true ->
  fs.AtomicWrite f path data = Some f' ->
  fs.cwd f' = fs.cwd f /\ fs.ReadFile f' (fs.Abs f' path) = Some data.
Proof.
  intros Hcwd Hw. unfold fs.AtomicWrite in Hw.
  destruct (fs.writeAt (fs.resolve f path) data (fs.tree f)) as [t'|] eqn:Ew; [|discriminate].
  injection Hw as <-. split; [reflexivity|].
  rewrite ReadFile_obs, resolve_Abs by exact Hcwd.
  apply (writeAt_read _ _ _ _ Ew).
Qed.

End WriteFacts.

Section StoreRoundTrip.
Context `{Codec}.

Lemma WriteEntry_inv s f entry f' entry' :
  journal.WriteEntry s f entry = Ok (f', entry') ->
  let path := fs.Join2 (fs.Join2 (rootOf s entry) (dateDirName (journal.CreatedAt entry)))
                       (recordFileName (journal.CreatedAt entry) (journal.ID entry)) in
  exists content,
    RenderJournal (mkJournalFM (uuid.String (journal.ID entry))
                               (FormatTime (journal.CreatedAt entry))
                               (journal.Type_ entry))
                  (renderSections (journal.Sections entry)) = Some content /\
    fs.AtomicWrite f path content = Some f' /\
    journal.FilePath entry' = path.
Proof.
  intros Hw path. pose proof (WriteEntry_path s f entry f' entry' Hw) as Hpath.
  unfold journal.WriteEntry in Hw. rewrite FormatStr_date, FormatStr_time in Hw.
  destruct (RenderJournal _ _) as [content|] eqn:Er; [|discriminate].
  exists content. split; [reflexivity|].
  assert (Heq : fs.Join2 (fs.Join2 (if String.eqb (journal.Type_ entry) "project"
                                    then journal.projectPath s else journal.userPath s)
                                   (dateDirName (journal.CreatedAt entry)))
                         ((appendInt (Hour (journal.CreatedAt entry)) 2 +:+ "-" +:+
                           appendInt (Minute (journal.CreatedAt entry)) 2 +:+ "-" +:+
                           appendInt (Second (journal.CreatedAt entry)) 2 +:+ "-" +:+
                           literalZeros) +:+ "-" +:+
                          String.substring 0 8 (uuid.String (journal.ID entry)) +:+ ".md")
                = path).
  { unfold path, recordFileName, rootOf. rewrite ?app_assoc_s. reflexivity. }
  rewrite Heq in Hw.
  destruct (fs.AtomicWrite f path content) as [f1|]; [|discriminate].
  injection Hw as <- <-. split; [reflexivity|].
  rewrite Hpath. reflexivity.
Qed.


End StoreRoundTrip.



(** ** The theorems at concrete inputs *)

Lemma C1_read_entry_containment_witness :
  journal.ReadEntry (H := refcodec.codec) sample.journalStore (sample5.written).1
                    "/home/u/.private-journal/../secret.txt"
  = Err (ErrOutsideRoots "/home/u/.private-journal/../secret.txt")
  /\ journal.ReadEntry (H := refcodec.codec) sample.journalStore (sample5.written).1
                       (journal.FilePath (sample5.written).2)
     = readAndDecode (H := refcodec.codec) (sample5.written).1
                     (journal.FilePath (sample5.written).2).
Proof.
  split.
  - apply (C1_read_entry_containment refcodec.codec sample.journalStore (sample5.written).1
             "/home/u/.private-journal/../secret.txt").
    + reflexivity.
    + intros (rest & _ & Heq). vm_compute in Heq. discriminate.
    + intros (rest & _ & Heq). vm_compute in Heq. discriminate.
  - apply (C1_read_entry_containment refcodec.codec sample.journalStore (sample5.written).1
             (journal.FilePath (sample5.written).2)).
    + reflexivity.
    + vm_compute. discriminate.
    + exists ["2024-06-01"; "12-30-45-000000-01234567.md"].
      split; [discriminate|vm_compute; reflexivity].
Defined.


Lemma C4_list_both_witness :
  journal.listEntriesInRoot (H := refcodec.codec) sample3.disk "/nowhere" zeroTime = Ok [].
Proof.
  pose proof (C4_list_both refcodec.codec sample.journalStore sample3.disk sample.noon 0)
    as Hthm.
  cbv zeta in Hthm. destruct Hthm as (_ & _ & _ & _ & _ & Habsent).
  apply Habsent. vm_compute. reflexivity.
Defined.

Lemma C6_mark_synced_witness :
  social.MarkSynced (H := refcodec.codec) sample.socialStore sample5.socialDisk "unknown"
  = (sample5.socialDisk, Some (ErrPostNotFound "unknown"))
  /\ exists f', social.MarkSynced (H := refcodec.codec) sample.socialStore sample5.socialDisk
                                  (uuid.String sample.id1) = (f', None).
Proof.
  pose proof (C6_mark_synced refcodec.codec sample.socialStore sample5.socialDisk "unknown")
    as Hmiss.
  pose proof (C6_mark_synced refcodec.codec sample.socialStore sample5.socialDisk
                             (uuid.String sample.id1)) as Hhit.
  cbv zeta in Hmiss, Hhit. destruct Hmiss as [Hmiss _]. destruct Hhit as [_ Hhit].
  split.
  - apply Hmiss. intros q Hq. vm_compute in Hq. destruct Hq as [<-|[]].
    vm_compute. reflexivity.
  - edestruct (Hhit [] sample5.postFile []) as (f' & Hmark & _).
    + vm_compute. reflexivity.
    + intros q [].
    + vm_compute. reflexivity.
    + vm_compute. reflexivity.
    + vm_compute. reflexivity.
    + discriminate.
    + vm_compute. reflexivity.
    + vm_compute. reflexivity.
    + split; [vm_compute; reflexivity|].
      eexists. split; [vm_compute; reflexivity|].
      split; [discriminate|vm_compute; reflexivity].
    + exists f'. exact Hmark.
Defined.




Lemma C10_bad_parent_is_dropped_witness :
  exists post,
    social.parseSocialPost (H := refcodec.codec) sample5.badParentFile = Ok post /\
    social.ParentPostID post = None.
Proof.
  edestruct (C10_bad_parent_is_dropped refcodec.codec sample5.badParentFile)
    as (post & Hparse & _ & Hnone & _).
  - vm_compute. reflexivity.
  - discriminate.
  - vm_compute. reflexivity.
  - vm_compute. reflexivity.
  - vm_compute. reflexivity.
  - vm_compute. discriminate.
  - vm_compute. reflexivity.
  - exists post. split; assumption.
Defined.

(** * Further properties of the stores *)

(** ** [TrimSpace] is idempotent *)

Section TrimFacts.

(** [dropSpaces] returns an end of its argument. *)
Lemma dropSpaces_suffix w k s : exists pre, s = pre +:+ dropSpaces w k s.
Proof.
  revert k. induction s as [|c s IH]; intros k; [exists ""; reflexivity|].
  cbn [dropSpaces]. destruct k as [|k].
  - destruct (w (String c s)) as [|j].
    + exists "". reflexivity.
    + destruct (IH j) as [pre Hpre]. exists (String c pre).
      rewrite app_cons_s, <- Hpre. reflexivity.
  - destruct (IH k) as [pre Hpre]. exists (String c pre).
    rewrite app_cons_s, <- Hpre. reflexivity.
Qed.

(** What [dropSpaces] returns starts with no white space. *)
Lemma dropSpaces_stops w k s :
  dropSpaces w k s = "" \/ w (dropSpaces w k s) = 0%nat.
Proof.
  revert k. induction s as [|c s IH]; intros k; [left; reflexivity|].
  cbn [dropSpaces]. destruct k as [|k]; [|apply IH].
  destruct (w (String c s)) as [|j] eqn:E; [right; exact E|apply IH].
Qed.

Lemma dropSpaces_none w s : (s = "" \/ w s = 0%nat) -> dropSpaces w 0 s = s.
Proof.
  destruct s as [|c s]; [reflexivity|]. intros [Hs|Hw]; [discriminate|].
  cbn [dropSpaces]. rewrite Hw. reflexivity.
Qed.

(** A text that starts with no white space keeps that when bytes are
    taken from its end. *)
Lemma spaceWidth_prefix p r :
  p <> "" -> spaceWidth (p +:+ r) = 0%nat -> spaceWidth p = 0%nat.
Proof.
  destruct p as [|c1 [|c2 [|c3 p]]]; [congruence|..]; intros _;
    rewrite ?app_cons_s, ?app_nil_l_s; unfold spaceWidth.
  - destruct (isAsciiSpace c1); [destruct r; discriminate|reflexivity].
  - destruct (isAsciiSpace c1); [discriminate|].
    destruct (isSpace2 c1 c2); [discriminate|reflexivity].
  - tauto.
Qed.

Lemma TrimRightSpace_prefix s : exists post, s = TrimRightSpace s +:+ post.
Proof.
  unfold TrimRightSpace.
  destruct (dropSpaces_suffix spaceWidthRev 0 (rev s)) as [pre Hpre].
  exists (rev pre). rewrite <- srev_app_distr, <- Hpre, srev_involutive. reflexivity.
Qed.

Lemma TrimRightSpace_idempotent s : TrimRightSpace (TrimRightSpace s) = TrimRightSpace s.
Proof.
  unfold TrimRightSpace. rewrite srev_involutive.
  rewrite (dropSpaces_none spaceWidthRev) by apply dropSpaces_stops. reflexivity.
Qed.

Lemma TrimSpace_idempotent s : TrimSpace (TrimSpace s) = TrimSpace s.
Proof.
  unfold TrimSpace.
  assert (Hl : TrimLeftSpace (TrimRightSpace (TrimLeftSpace s))
               = TrimRightSpace (TrimLeftSpace s)).
  { unfold TrimLeftSpace at 1. apply dropSpaces_none.
    destruct (TrimRightSpace (TrimLeftSpace s)) as [|c t] eqn:E; [left; reflexivity|right].
    destruct (TrimRightSpace_prefix (TrimLeftSpace s)) as [post Hpost].
    rewrite E in Hpost.
    destruct (dropSpaces_stops spaceWidth 0 s) as [Hnil|Hw].
    - unfold TrimLeftSpace in Hpost. rewrite Hnil in Hpost. discriminate.
    - unfold TrimLeftSpace in Hpost. rewrite Hpost in Hw.
      apply (spaceWidth_prefix (String c t) post); [discriminate|exact Hw]. }
  rewrite Hl. apply TrimRightSpace_idempotent.
Qed.

End TrimFacts.

(** ** The body parser on arbitrary text *)

Section ParserFacts.

Lemma parseLine_idle st line :
  currentSection st = "" -> HasPrefix line headingPrefix = false -> parseLine st line = st.
Proof.
  intros Hcur Hline. unfold parseLine. rewrite Hline, Hcur. reflexivity.
Qed.

Lemma fold_idle ls st :
  currentSection st = "" ->
  forallb (fun l => negb (HasPrefix l headingPrefix)) ls = true ->
  fold_left parseLine ls st = st.
Proof.
  intros Hcur. induction ls as [|l ls IH]; [reflexivity|].
  cbn [forallb fold_left]. intros [Hl Hall]%andb_true_iff.
  apply negb_true_iff in Hl. rewrite parseLine_idle by assumption. apply IH, Hall.
Qed.

Lemma keyOfHeading_mono lines l k : keyOfHeading lines k -> keyOfHeading (lines ++ [l]) k.
Proof.
  intros (line & Hin & Hh & Hk). exists line. split; [|split; assumption].
  apply in_or_app. left. exact Hin.
Qed.

Lemma saveSection_well lines st :
  parsedWell lines st ->
  forall k v, saveSection st !! k = Some v ->
              k <> "" /\ TrimSpace v = v /\ keyOfHeading lines k.
Proof.
  intros [Hsaved Hcur] k v. unfold saveSection.
  destruct (String.eqb_spec (currentSection st) "") as [Ecur|Ecur]; [apply Hsaved|].
  destruct (decide (k = currentSection st)) as [->|Hne].
  - rewrite lookup_insert_eq. intros [= <-]. split; [exact Ecur|]. split.
    + apply TrimSpace_idempotent.
    + destruct Hcur as [Hcur|Hcur]; [contradiction|exact Hcur].
  - rewrite lookup_insert_ne by congruence. apply Hsaved.
Qed.

Lemma parseLine_well lines st l :
  parsedWell lines st -> parsedWell (lines ++ [l]) (parseLine st l).
Proof.
  intros Hwell. pose proof (saveSection_well lines st Hwell) as Hsave.
  destruct Hwell as [Hsaved Hcur]. unfold parseLine.
  destruct (HasPrefix l headingPrefix) eqn:Hl.
  - split; cbn [psSections currentSection].
    + intros k v Hkv. destruct (Hsave k v Hkv) as (H1 & H2 & H3).
      split; [exact H1|]. split; [exact H2|]. apply keyOfHeading_mono, H3.
    + destruct (String.eqb_spec (models.SectionKey (TrimPrefix l headingPrefix)) "")
        as [E|E]; [left; exact E|right].
      exists l. split; [apply in_or_app; right; left; reflexivity|].
      split; [exact Hl|reflexivity].
  - destruct (String.eqb_spec (currentSection st) "") as [Ecur|Ecur].
    + split.
      * intros k v Hkv. destruct (Hsaved k v Hkv) as (H1 & H2 & H3).
        split; [exact H1|]. split; [exact H2|]. apply keyOfHeading_mono, H3.
      * left. exact Ecur.
    + split; cbn [psSections currentSection].
      * intros k v Hkv. destruct (Hsaved k v Hkv) as (H1 & H2 & H3).
        split; [exact H1|]. split; [exact H2|]. apply keyOfHeading_mono, H3.
      * destruct Hcur as [Hcur|Hcur]; [contradiction|right].
        apply keyOfHeading_mono, Hcur.
Qed.

Lemma fold_parseLine_well lines :
  parsedWell lines (fold_left parseLine lines (ParseState ∅ "" "")).
Proof.
  induction lines as [|l lines IH] using rev_ind.
  - split; [|left; reflexivity]. intros k v Hkv. cbn in Hkv.
    rewrite lookup_empty in Hkv. discriminate.
  - rewrite fold_left_app. cbn [fold_left]. apply parseLine_well, IH.
Qed.

End ParserFacts.

(** X1: text without a heading line holds no section, and the lines before
  the first heading are dropped: a text that is preceded by lines without
  a heading parses as the text alone. *)
Theorem X1_parseSections_preamble (pre : string) :
  noHeadingLine pre = true ->
  parseSections pre = ∅ /\
  forall rest, parseSections (pre +:+ NL +:+ rest) = parseSections rest.
Proof.
  intros Hpre. unfold noHeadingLine in Hpre. split.
  - unfold parseSections. rewrite fold_idle by (assumption || reflexivity). reflexivity.
  - intros rest. unfold parseSections. rewrite NL_app, Split_app, fold_left_app.
    rewrite (fold_idle (Split nl pre)) by (assumption || reflexivity). reflexivity.
Qed.

Lemma X1_parseSections_preamble_witness :
  parseSections ("notes" +:+ NL +:+ "## Feelings" +:+ NL +:+ "fine")
  = parseSections ("## Feelings" +:+ NL +:+ "fine").
Proof.
  destruct (X1_parseSections_preamble "notes") as [_ Hdrop]; [reflexivity|].
  apply (Hdrop ("## Feelings" +:+ NL +:+ "fine")).
Defined.

(** X2: whatever the text, [parseSections] returns no section under the
  empty name, every key is the key of a heading line of the text, and
  every section text comes trimmed of the white space around it. *)
Theorem X2_parseSections_keys_and_texts (body k v : string) :
  parseSections body !! k = Some v ->
  k <> "" /\ TrimSpace v = v /\ keyOfHeading (Split nl body) k.
Proof.
  unfold parseSections. apply saveSection_well, fold_parseLine_well.
Qed.

Lemma X2_parseSections_keys_and_texts_witness :
  "feelings" <> "" /\ TrimSpace "fine" = "fine" /\
  keyOfHeading (Split nl ("## Feelings" +:+ NL +:+ "  fine  ")) "feelings".
Proof.
  apply (X2_parseSections_keys_and_texts ("## Feelings" +:+ NL +:+ "  fine  ")).
  vm_compute. reflexivity.
Defined.

(** ** What [renderSections] leaves out *)

Section RenderFacts.

Lemma presentSections_ext m m' names :
  (forall n, In n names ->
             match m !! n with Some v => if String.eqb v "" then None else Some v | None => None end
             = match m' !! n with
               | Some v => if String.eqb v "" then None else Some v
               | None => None
               end) ->
  presentSections m names = presentSections m' names.
Proof.
  induction names as [|n names IH]; intros Hext; [reflexivity|].
  rewrite !presentSections_cons.
  rewrite IH by (intros n' Hn'; apply Hext; right; exact Hn').
  specialize (Hext n (or_introl eq_refl)).
  destruct (m !! n) as [v|], (m' !! n) as [v'|];
    repeat match goal with
           | H : context [String.eqb ?x ""] |- _ => destruct (String.eqb_spec x "")
           | |- context [String.eqb ?x ""] => destruct (String.eqb_spec x "")
           end; congruence.
Qed.

Lemma IsValidSection_In k : models.IsValidSection k = true <-> In k models.ValidSections.
Proof.
  unfold models.IsValidSection. rewrite existsb_exists. split.
  - intros (x & Hx & Heq). apply String.eqb_eq in Heq. subst. exact Hx.
  - intros Hin. exists k. split; [exact Hin|apply String.eqb_refl].
Qed.

End RenderFacts.

(** X3: [renderSections] writes the canonical sections only, and only
  those with a text: a section under another name, whatever its text, and
  a section with the empty text leave no trace in the body. *)
Theorem X3_renderSections_leaves_out (m : gmap string string) (k v : string) :
  (models.IsValidSection k = false -> renderSections (<[k := v]> m) = renderSections m) /\
  renderSections (<[k := ""]> m) = renderSections (delete k m).
Proof.
  rewrite !renderSections_blocks. split.
  - intros Hk. f_equal. apply presentSections_ext. intros n Hn.
    rewrite lookup_insert_ne; [reflexivity|].
    intros ->. apply IsValidSection_In in Hn. congruence.
  - f_equal. apply presentSections_ext. intros n Hn.
    destruct (decide (k = n)) as [->|Hne].
    + rewrite lookup_insert_eq, lookup_delete_eq. reflexivity.
    + rewrite lookup_insert_ne, lookup_delete_ne by assumption. reflexivity.
Qed.

Lemma X3_renderSections_leaves_out_witness :
  renderSections (<["mood" := "bright"]> (sample.feelings "fine"))
  = renderSections (sample.feelings "fine").
Proof.
  destruct (X3_renderSections_leaves_out (sample.feelings "fine") "mood" "bright")
    as [Hunknown _].
  apply Hunknown. reflexivity.
Defined.

(** ** Section names and their headings *)

Section NameRoundTrip.

Lemma Join_more s q r sep : Join (s :: q :: r) sep = s +:+ sep +:+ Join (q :: r) sep.
Proof. reflexivity. Qed.

Lemma Split_word sep w :
  allBytes (fun c => negb (Ascii.eqb c sep)) w = true -> Split sep w = [w].
Proof.
  induction w as [|c w IH]; [reflexivity|]. cbn [allBytes Split].
  intros [Hc Hw]%andb_true_iff. apply negb_true_iff in Hc. rewrite Hc, (IH Hw). reflexivity.
Qed.

Lemma Split_words sep ws :
  ws <> [] -> Forall (fun w => allBytes (fun c => negb (Ascii.eqb c sep)) w = true) ws ->
  Split sep (Join ws (String sep "")) = ws.
Proof.
  induction ws as [|w ws IH]; [congruence|]. intros _ Hall.
  inversion Hall as [|? ? Hw Hws]; subst. destruct ws as [|q r].
  - cbn [Join String.concat]. apply Split_word, Hw.
  - rewrite Join_more, app_cons_s, app_nil_l_s, Split_app, Split_word by exact Hw.
    rewrite IH by (discriminate || assumption). reflexivity.
Qed.

Lemma allBytes_impl (p q : ascii -> bool) s :
  (forall c, p c = true -> q c = true) -> allBytes p s = true -> allBytes q s = true.
Proof.
  intros Hpq. induction s as [|c s IH]; [reflexivity|]. cbn [allBytes].
  intros [Hc Hs]%andb_true_iff. rewrite (Hpq c Hc), (IH Hs). reflexivity.
Qed.

(** The facts about one byte are checked on the 256 bytes. *)
Lemma forall_ascii (P : ascii -> bool) :
  forallb P (map ascii_of_nat (seq 0 256)) = true -> forall c, P c = true.
Proof.
  intros Hall c. rewrite forallb_forall in Hall. apply Hall.
  rewrite <- (ascii_nat_embedding c). apply in_map, in_seq.
  pose proof (nat_ascii_bounded c). lia.
Qed.

Lemma isLowerAlnum_facts c :
  isLowerAlnum c = true ->
  lowerByte (upperByte c) = c /\ lowerByte c = c /\
  Ascii.eqb c "_" = false /\ Ascii.eqb c " " = false /\
  isAsciiSpace c = false /\ (forall c2, isSpace2 c c2 = false) /\
  (forall c2 c3, isSpace3 c c2 c3 = false).
Proof.
  revert c.
  assert (H1 : forall c, implb (isLowerAlnum c)
                 (Ascii.eqb (lowerByte (upperByte c)) c && Ascii.eqb (lowerByte c) c
                  && negb (Ascii.eqb c "_") && negb (Ascii.eqb c " ")
                  && negb (isAsciiSpace c)
                  && negb (byteOf c =? 194)%N && negb (byteOf c =? 225)%N
                  && negb (byteOf c =? 226)%N && negb (byteOf c =? 227)%N) = true).
  { apply forall_ascii. vm_compute. reflexivity. }
  intros c Hc. specialize (H1 c). rewrite Hc in H1. cbn [implb] in H1.
  repeat (apply andb_true_iff in H1 as [H1 ?]).
  repeat match goal with
         | H : negb _ = true |- _ => apply negb_true_iff in H
         | H : Ascii.eqb _ _ = true |- _ => apply Ascii.eqb_eq in H
         end.
  repeat split; try assumption.
  - intros c2. unfold isSpace2.
    match goal with H : (byteOf c =? 194)%N = false |- _ => rewrite H end.
    apply andb_false_r.
  - intros c2 c3. unfold isSpace3. cbv zeta.
    repeat match goal with H : (byteOf c =? _)%N = false |- _ => rewrite H; clear H end.
    cbn [andb orb]. apply andb_false_r.
Qed.

Lemma spaceWidth_alnum c r : isLowerAlnum c = true -> spaceWidth (String c r) = 0%nat.
Proof.
  intros Hc. destruct (isLowerAlnum_facts c Hc) as (_ & _ & _ & _ & Ha & H2 & H3).
  unfold spaceWidth. rewrite Ha. destruct r as [|c2 r]; [reflexivity|].
  rewrite H2. destruct r as [|c3 r]; [reflexivity|]. rewrite H3. reflexivity.
Qed.

Lemma fieldsFrom_word w cur rest :
  allBytes isLowerAlnum w = true ->
  fieldsFrom 0 cur (w +:+ rest) = fieldsFrom 0 (rev w +:+ cur) rest.
Proof.
  revert cur. induction w as [|c w IH]; intros cur; [reflexivity|].
  cbn [allBytes]. intros [Hc Hw]%andb_true_iff.
  rewrite app_cons_s. cbn [fieldsFrom]. rewrite (spaceWidth_alnum c _ Hc).
  rewrite (IH _ Hw), srev_cons, app_assoc_s. reflexivity.
Qed.

Lemma rev_nonempty w : w <> "" -> rev w <> "".
Proof.
  intros Hw Hrev. apply Hw. rewrite <- (srev_involutive w), Hrev. reflexivity.
Qed.

Lemma Fields_words ws :
  Forall nameWord ws -> Fields (Join ws " ") = ws.
Proof.
  induction ws as [|w ws IH]; [reflexivity|]. intros Hall.
  inversion Hall as [|? ? [Hne Hw] Hws]; subst. unfold Fields in *.
  pose proof (rev_nonempty w Hne) as Hrev.
  destruct ws as [|q r].
  - cbn [Join String.concat]. rewrite <- (app_nil_r_s w) at 1.
    rewrite (fieldsFrom_word w "" "" Hw), app_nil_r_s. cbn [fieldsFrom].
    destruct (rev w) eqn:E; [congruence|]. rewrite <- E, srev_involutive. reflexivity.
  - rewrite Join_more, (fieldsFrom_word w "" _ Hw), app_nil_r_s.
    change (" " +:+ Join (q :: r) " ") with (String " " (Join (q :: r) " ")).
    cbn [fieldsFrom spaceWidth isAsciiSpace].
    change (isAsciiSpace " ") with true. cbv iota.
    rewrite (IH Hws).
    destruct (rev w) eqn:E; [congruence|]. rewrite <- E, srev_involutive. reflexivity.
Qed.

Lemma mapBytes_app f a b : mapBytes f (a +:+ b) = mapBytes f a +:+ mapBytes f b.
Proof.
  induction a as [|c a IH]; [reflexivity|]. rewrite app_cons_s. cbn [mapBytes].
  rewrite IH, app_cons_s. reflexivity.
Qed.

Lemma ToLower_word w : allBytes isLowerAlnum w = true -> ToLower w = w.
Proof.
  induction w as [|c w IH]; [reflexivity|]. cbn [allBytes].
  intros [Hc Hw]%andb_true_iff. unfold ToLower in *. cbn [mapBytes]. rewrite (IH Hw).
  destruct (isLowerAlnum_facts c Hc) as (_ & -> & _). reflexivity.
Qed.

Lemma ToLower_capitalize w : nameWord w -> ToLower (models.capitalize w) = w.
Proof.
  intros [Hne Hw]. destruct w as [|c w]; [congruence|]. cbn [allBytes] in Hw.
  apply andb_true_iff in Hw as [Hc Hw]. unfold models.capitalize, ToUpper.
  cbn [mapBytes]. rewrite app_cons_s, app_nil_l_s. unfold ToLower. cbn [mapBytes].
  fold ToLower. rewrite (ToLower_word w Hw).
  destruct (isLowerAlnum_facts c Hc) as (-> & _). reflexivity.
Qed.

Lemma ToLower_titles ws :
  Forall nameWord ws -> ToLower (Join (map models.capitalize ws) " ") = Join ws " ".
Proof.
  induction ws as [|w ws IH]; [reflexivity|]. intros Hall.
  inversion Hall as [|? ? Hw Hws]; subst. destruct ws as [|q r].
  - cbn [map Join String.concat]. apply ToLower_capitalize, Hw.
  - cbn [map]. rewrite !Join_more. unfold ToLower in *. rewrite !mapBytes_app.
    fold ToLower. rewrite (ToLower_capitalize w Hw).
    change (ToLower " ") with " ". f_equal. f_equal. apply (IH Hws).
Qed.

Lemma SectionTitle_words ws :
  ws <> [] -> Forall nameWord ws ->
  models.SectionTitle (Join ws "_") = Join (map models.capitalize ws) " ".
Proof.
  intros Hne Hall. unfold models.SectionTitle. rewrite Split_words; [reflexivity|exact Hne|].
  eapply Forall_impl; [exact Hall|]. intros w [_ Hw]. cbn beta.
  eapply allBytes_impl; [|exact Hw]. intros c Hc. cbn beta.
  destruct (isLowerAlnum_facts c Hc) as (_ & _ & -> & _). reflexivity.
Qed.

End NameRoundTrip.

(** X4: a snake_case name -- words of lower-case letters and digits joined
  by single underscores -- comes back from its heading:
  [SectionKey (SectionTitle name) = name]. *)
Theorem X4_SectionKey_SectionTitle (name : string) :
  snakeCase name -> models.SectionKey (models.SectionTitle name) = name.
Proof.
  intros (ws & Hne & Hall & ->).
  rewrite SectionTitle_words by assumption. unfold models.SectionKey.
  rewrite ToLower_titles, Fields_words by assumption. reflexivity.
Qed.

Lemma X4_SectionKey_SectionTitle_witness :
  models.SectionKey (models.SectionTitle "technical_insights") = "technical_insights".
Proof.
  apply X4_SectionKey_SectionTitle. exists ["technical"; "insights"].
  split; [discriminate|]. split; [|reflexivity].
  repeat constructor; discriminate.
Defined.

(** ** A line feed at the end is trimmed away *)

Section TrimNewline.

Lemma spaceWidth_app_nl c r : spaceWidth (String c r +:+ NL) = spaceWidth (String c r).
Proof.
  rewrite app_cons_s. destruct r as [|c2 [|c3 r]]; rewrite ?app_cons_s, ?app_nil_l_s;
    unfold spaceWidth, NL; destruct (isAsciiSpace c); reflexivity.
Qed.

Lemma dropSpaces_app_nl k s :
  dropSpaces spaceWidth k (s +:+ NL)
  = match dropSpaces spaceWidth k s with
    | "" => ""
    | r => r +:+ NL
    end.
Proof.
  revert k. induction s as [|c s IH]; intros k.
  - rewrite app_nil_l_s. destruct k; reflexivity.
  - pose proof (spaceWidth_app_nl c s) as Hw. rewrite app_cons_s in *.
    cbn [dropSpaces]. destruct k as [|k]; [|apply IH].
    rewrite Hw. destruct (spaceWidth (String c s)); [|apply IH].
    rewrite app_cons_s. reflexivity.
Qed.

Lemma TrimRightSpace_app_nl s : TrimRightSpace (s +:+ NL) = TrimRightSpace s.
Proof. unfold TrimRightSpace. rewrite srev_app_distr. reflexivity. Qed.

Lemma TrimSpace_app_nl s : TrimSpace (s +:+ NL) = TrimSpace s.
Proof.
  unfold TrimSpace, TrimLeftSpace. rewrite dropSpaces_app_nl.
  destruct (dropSpaces spaceWidth 0 s) as [|c r]; [reflexivity|].
  apply TrimRightSpace_app_nl.
Qed.

End TrimNewline.

(** ** Pages and filters of [ListPosts] *)

Section Pages.

Lemma paginate_window opts (l : list social.SocialPost) :
  social.paginate opts l
  = take (Z.to_nat (pageSize opts)) (drop (Z.to_nat (social.Offset opts)) l).
Proof.
  unfold social.paginate, pageSize.
  destruct (Z.ltb_spec 0 (social.Offset opts)) as [Hoff|Hoff]; cbn [andb].
  - destruct (Z.leb_spec (Z.of_nat (length l)) (social.Offset opts)) as [Hlen|Hlen].
    + rewrite drop_ge by lia. rewrite take_nil. reflexivity.
    + set (rest := drop (Z.to_nat (social.Offset opts)) l).
      destruct (social.Limit opts <=? 0);
        match goal with
        | |- context [Z.of_nat (length rest) <? ?n] =>
            destruct (Z.ltb_spec (Z.of_nat (length rest)) n)
        end; try reflexivity;
        rewrite Nat2Z.id, firstn_all, take_ge by lia; reflexivity.
  - replace (Z.to_nat (social.Offset opts)) with 0%nat by lia. rewrite drop_0.
    destruct (social.Limit opts <=? 0);
      match goal with
      | |- context [Z.of_nat (length l) <? ?n] =>
          destruct (Z.ltb_spec (Z.of_nat (length l)) n)
      end; try reflexivity;
      rewrite Nat2Z.id, firstn_all, take_ge by lia; reflexivity.
Qed.

Lemma firstPages_take n k (l : list social.SocialPost) :
  0 < n -> firstPages n k l = take (k * Z.to_nat n) l.
Proof.
  intros Hn. unfold firstPages. induction k as [|k IH].
  - rewrite take_0. reflexivity.
  - rewrite seq_S, map_app, concat_app, IH. cbn [map concat Nat.add].
    rewrite app_nil_r, paginate_window. unfold pageSize, pageOptions.
    cbn [social.Limit social.Offset].
    destruct (Z.leb_spec n 0); [lia|].
    replace (Z.to_nat (Z.of_nat k * n)) with (k * Z.to_nat n)%nat by lia.
    replace (S k * Z.to_nat n)%nat with (k * Z.to_nat n + Z.to_nat n)%nat by lia.
    rewrite <- take_take_drop. reflexivity.
Qed.

End Pages.

(** X5: the page that [ListPosts] cuts out of the sorted posts is the
  window of [limit] posts (10 when the limit is not positive) that starts
  after [offset] posts (at the start when the offset is not positive); it
  is never longer than that, and the pages of [n] posts at the offsets
  [0], [n], [2n], ... follow each other without a gap and without a
  repetition. *)
Theorem X5_paginate_window (opts : social.ListPostsOptions) (l : list social.SocialPost) :
  social.paginate opts l
  = take (Z.to_nat (pageSize opts)) (drop (Z.to_nat (social.Offset opts)) l) /\
  Z.of_nat (length (social.paginate opts l)) <= pageSize opts /\
  (forall n k, 0 < n -> firstPages n k l = take (k * Z.to_nat n) l).
Proof.
  split; [apply paginate_window|]. split.
  - rewrite paginate_window, length_take.
    assert (0 < pageSize opts)
      by (unfold pageSize; destruct (Z.leb_spec (social.Limit opts) 0); lia).
    lia.
  - intros n k Hn. apply firstPages_take, Hn.
Qed.

Lemma X5_paginate_window_witness :
  firstPages 1 2 [sample.post1; sample.post1; sample.post1] = [sample.post1; sample.post1].
Proof.
  destruct (X5_paginate_window noFilters [sample.post1; sample.post1; sample.post1])
    as (_ & _ & Hpages).
  rewrite (Hpages 1 2%nat); [reflexivity|lia].
Defined.

Section Filters.
Context `{Codec}.

Lemma containsTag_In tags tag : social.containsTag tags tag = true <-> In tag tags.
Proof.
  induction tags as [|t tags IH]; cbn [social.containsTag In]; [split; [discriminate|tauto]|].
  destruct (String.eqb_spec t tag) as [->|Hne].
  - split; [left; reflexivity|reflexivity].
  - rewrite IH. split; [right; assumption|]. intros [Heq|Hin]; [contradiction|assumption].
Qed.

Lemma passesAll_meets opts post : passesAll opts post = true -> meetsFilters opts post.
Proof.
  unfold passesAll. intros [[Ha Ht]%andb_true_iff Hth]%andb_true_iff.
  split; [|split].
  - intros Hne. unfold social.passesAgent in Ha.
    destruct (String.eqb_spec (social.AgentFilter opts) ""); [contradiction|].
    destruct (String.eqb_spec (social.AuthorName post) (social.AgentFilter opts));
      [assumption|discriminate].
  - intros Hne. unfold social.passesTag in Ht.
    destruct (String.eqb_spec (social.TagFilter opts) ""); [contradiction|].
    apply containsTag_In.
    destruct (social.containsTag (social.Tags post) (social.TagFilter opts));
      [reflexivity|discriminate].
  - intros Hne. rewrite <- passesThread_inThread by assumption. exact Hth.
Qed.

Global Instance social_notBefore_total : Total social.notBefore.
Proof. intros a b. unfold social.notBefore. lia. Qed.

Global Instance social_notBefore_trans : Transitive social.notBefore.
Proof. intros a b c. unfold social.notBefore. lia. Qed.

Lemma social_sorted l : StronglySorted social.notBefore (social.sortByDateDesc l).
Proof. apply StronglySorted_merge_sort; apply _. Qed.

Lemma social_sort_perm l : social.sortByDateDesc l ≡ₚ l.
Proof. apply merge_sort_Permutation. Qed.

Lemma window_sorted {A} (R : A -> A -> Prop) n m (l : list A) :
  StronglySorted R l -> StronglySorted R (take n (drop m l)).
Proof.
  intros Hs. rewrite <- (take_drop m l) in Hs. apply StronglySorted_app_1_r in Hs.
  rewrite <- (take_drop n (drop m l)) in Hs. apply StronglySorted_app_1_l in Hs.
  exact Hs.
Qed.

Lemma window_elem_of {A} n m (l : list A) x : x ∈ take n (drop m l) -> x ∈ l.
Proof.
  intros Hx. apply (subseteq_drop m l), (subseteq_take n _), Hx.
Qed.

End Filters.

(** X6: the posts that [ListPosts] returns all pass every filter that the
  options set (the author by equality, the tag by membership, the thread
  by parent or identity); they are at most a page, and no post comes
  before a newer one.  [ListPosts] fails only when the posts directory
  cannot be read as a directory, never over the content of a file; without
  a posts directory the result is empty. *)
Theorem X6_ListPosts_sound (C : Codec) (s : social.SocialMDStore) (f : fs.FS)
    (opts : social.ListPostsOptions) :
  (forall l, social.ListPosts s f opts = Ok l ->
             Forall (meetsFilters opts) l /\
             Z.of_nat (length l) <= pageSize opts /\
             StronglySorted social.notBefore l) /\
  (forall e, social.ListPosts s f opts = Err e ->
             e = ErrReadDir /\
             fs.ReadDir f (fs.Join2 (social.dataDir s) "posts") = None /\
             fs.Stat f (fs.Join2 (social.dataDir s) "posts") <> fs.StNotExist) /\
  (fs.Stat f (fs.Join2 (social.dataDir s) "posts") = fs.StNotExist ->
   social.ListPosts s f opts = Ok []).
Proof.
  split; [|split].
  - intros l. rewrite ListPosts_collect, collectPosts_filter.
    destruct (collectPosts s f noFilters) as [all|e]; [|discriminate].
    intros [= <-]. rewrite paginate_window. split; [|split].
    + apply Forall_forall. intros post Hin. apply passesAll_meets.
      apply window_elem_of in Hin.
      rewrite (social_sort_perm _) in Hin.
      apply list_elem_of_filter in Hin as [Hp _]. exact Hp.
    + rewrite length_take.
      assert (0 < pageSize opts)
        by (unfold pageSize; destruct (Z.leb_spec (social.Limit opts) 0); lia).
      lia.
    + apply window_sorted, social_sorted.
  - intros e. unfold social.ListPosts.
    destruct (fs.Stat f (fs.Join2 (social.dataDir s) "posts")) eqn:Est; [| discriminate |];
      (destruct (fs.ReadDir f (fs.Join2 (social.dataDir s) "posts")) eqn:Erd;
       [discriminate|]); intros [= <-]; repeat split; discriminate.
  - intros Hst. unfold social.ListPosts. rewrite Hst. reflexivity.
Qed.

Lemma X6_ListPosts_sound_witness :
  exists l, social.ListPosts (H := refcodec.codec) sample.socialStore sample5.socialDisk
                             sample5.threadOptions = Ok l /\
            Forall (meetsFilters sample5.threadOptions) l.
Proof.
  eexists. split; [vm_compute; reflexivity|].
  destruct (X6_ListPosts_sound refcodec.codec sample.socialStore sample5.socialDisk
                               sample5.threadOptions) as (Hok & _ & _).
  eapply Hok. vm_compute. reflexivity.
Defined.

(** ** Directories and the files in them *)

Section TreeLookup.

Lemma find_app p q t :
  fs.find (p ++ q) t
  = match fs.find p t with
    | fs.StNode n => fs.find q n
    | other => other
    end.
Proof.
  revert t. induction p as [|x p IH]; intros t; [reflexivity|].
  cbn [app fs.find]. destruct t as [c|es]; [reflexivity|].
  destruct (fs.assoc x es) as [c|]; [apply IH|reflexivity].
Qed.

Lemma assoc_In x es c : fs.assoc x es = Some c -> In (x, c) es.
Proof.
  induction es as [|[k old] es IH]; [discriminate|]. cbn [fs.assoc].
  destruct (String.eqb_spec k x) as [->|Hne].
  - intros [= ->]. left. reflexivity.
  - intros Hc. right. apply IH, Hc.
Qed.

(** A file that is found at [p ++ [d; n]] is listed in its directory, and
    its directory in the directory above. *)
Lemma find_file_listed p d n data t :
  fs.find (p ++ [d; n]) t = fs.StNode (fs.File data) ->
  exists dateDirs files,
    obsDir p t = Some dateDirs /\ In (d, true) dateDirs /\
    obsDir (p ++ [d]) t = Some files /\ In (n, false) files.
Proof.
  intros Hfind. rewrite find_app in Hfind. unfold obsDir. rewrite find_app.
  destruct (fs.find p t) as [[c|es]| |]; try discriminate.
  cbn [fs.find] in Hfind |- *.
  destruct (fs.assoc d es) as [[c|es2]|] eqn:Ed; try discriminate.
  destruct (fs.assoc n es2) as [[c|es3]|] eqn:En; try discriminate.
  eexists _, _. split; [reflexivity|]. split; [|split; [reflexivity|]].
  - apply assoc_In in Ed. apply (in_map (fun e : string * fs.node => (e.1, fs.IsDir e.2))) in Ed.
    exact Ed.
  - apply assoc_In in En. apply (in_map (fun e : string * fs.node => (e.1, fs.IsDir e.2))) in En.
    exact En.
Qed.

Lemma HasSuffix_app s suf : HasSuffix (s +:+ suf) suf = true.
Proof. unfold HasSuffix. rewrite srev_app_distr. apply HasPrefix_app. Qed.

Lemma recordFileName_md t id : HasSuffix (recordFileName t id) ".md" = true.
Proof.
  unfold recordFileName. rewrite <- !app_assoc_s. apply HasSuffix_app.
Qed.

End TreeLookup.

(** ** What a listing holds *)

Section ListingFacts.
Context `{Codec}.

Lemma In_decodeFile f dirPath file e :
  In e (decodeFile f dirPath file) <->
  file.2 = false /\ HasSuffix file.1 ".md" = true /\
  exists data, fs.ReadFile f (fs.Join2 dirPath file.1) = Some data /\
               journal.parseJournalEntry (fs.Join2 dirPath file.1) data = Ok e.
Proof.
  unfold decodeFile. destruct file as [n b]. cbn [fst snd].
  destruct b; [split; [intros []|intros [? _]; discriminate]|].
  destruct (HasSuffix n ".md"); [|split; [intros []|intros (_ & ? & _); discriminate]].
  destruct (fs.ReadFile f (fs.Join2 dirPath n)) as [data|];
    [|split; [intros []|intros (_ & _ & ? & ? & _); discriminate]].
  destruct (journal.parseJournalEntry (fs.Join2 dirPath n) data) as [e'|err] eqn:Ep.
  - split.
    + intros [<-|[]]. repeat split. exists data. split; [reflexivity|exact Ep].
    + intros (_ & _ & data' & [= <-] & Hp). left. congruence.
  - split; [intros []|]. intros (_ & _ & data' & [= <-] & Hp). congruence.
Qed.

Lemma In_entriesWhere keep f root e :
  In e (entriesWhere keep f root) <-> entryFrom keep f root e.
Proof.
  unfold entriesWhere, entryFrom. split.
  - destruct (fs.ReadDir f root) as [dateDirs|]; [|intros []].
    rewrite in_flat_map. intros ([d b] & Hd & He). cbn [fst snd] in He.
    destruct b; cbn [andb] in He; [|destruct He].
    destruct (keep d) eqn:Ek; [|destruct He].
    unfold entriesOfDir in He.
    destruct (fs.ReadDir f (fs.Join2 root d)) as [files|] eqn:Ef; [|destruct He].
    apply in_flat_map in He as ([n b] & Hn & He).
    apply In_decodeFile in He as (Hb & Hmd & data & Hread & Hparse).
    cbn [fst snd] in *. subst b.
    exists dateDirs, d, files, n, data. repeat split; assumption.
  - intros (dateDirs & d & files & n & data & -> & Hd & Hk & Hf & Hn & Hmd & Hread & Hparse).
    apply in_flat_map. exists (d, true). split; [exact Hd|]. cbn [fst snd andb].
    rewrite Hk. unfold entriesOfDir. rewrite Hf.
    apply in_flat_map. exists (n, false). split; [exact Hn|].
    apply In_decodeFile. cbn [fst snd]. repeat split; [assumption|].
    exists data. split; assumption.
Qed.

Lemma ListEntries_gathered s f now entryType limit days :
  journal.ListEntries s f now entryType limit days
  = match firstUnlistable f (journal.selectRoots s entryType).*1 with
    | Some root => Err (ErrListEntries root)
    | None => Ok (truncateTo limit (journal.sortByDateDesc (gathered s f now entryType days)))
    end.
Proof.
  pose proof (listRoots_spec (keptBy (cutoffOf now days)) f (cutoffOf now days)
                (journal.selectRoots s entryType) []
                (fun root => listEntriesInRoot_spec f root (cutoffOf now days))) as Hroots.
  cbn [app] in Hroots. fold (gathered s f now entryType days) in Hroots.
  destruct (firstUnlistable f (journal.selectRoots s entryType).*1) as [root|].
  - unfold journal.ListEntries. fold (cutoffOf now days). rewrite Hroots. reflexivity.
  - apply ListEntries_truncate. exact Hroots.
Qed.

Lemma In_gathered s f now entryType days e :
  In e (gathered s f now entryType days) <->
  exists root, In root (journal.selectRoots s entryType).*1 /\
               entryFrom (keptBy (cutoffOf now days)) f root e.
Proof.
  unfold gathered. rewrite in_flat_map.
  split; intros (root & Hroot & He); exists root; (split; [exact Hroot|]);
    apply In_entriesWhere; exact He.
Qed.

End ListingFacts.

(** ** An entry that has been written is listed *)

Section WriteThenList.
Context `{Codec}.


Lemma written_file_listed f f' root d n content :
  fs.IsAbs (fs.cwd f) = true -> properName d -> properName n ->
  fs.AtomicWrite f (fs.Join2 (fs.Join2 root d) n) content = Some f' ->
  exists dateDirs files,
    fs.ReadDir f' root = Some dateDirs /\ In (d, true) dateDirs /\
    fs.ReadDir f' (fs.Join2 root d) = Some files /\ In (n, false) files /\
    fs.ReadFile f' (fs.Join2 (fs.Join2 root d) n) = Some content.
Proof.
  intros Hcwd Hd Hn Hw. unfold fs.AtomicWrite in Hw.
  destruct (fs.writeAt _ content (fs.tree f)) as [t'|] eqn:Ew; [|discriminate].
  injection Hw as <-.
  assert (Hres : forall q, fs.resolve (fs.mkFS (fs.cwd f) t') q = fs.resolve f q)
    by reflexivity.
  rewrite !resolve_Join2, <- app_assoc in Ew by assumption. cbn [app] in Ew.
  pose proof (writeAt_read _ _ _ _ Ew) as Hread. unfold obsFile in Hread.
  destruct (fs.find (fs.resolve f root ++ [d; n]) t') as [[c|es]| |] eqn:Efind;
    try discriminate.
  injection Hread as ->.
  destruct (find_file_listed _ _ _ _ _ Efind) as (dateDirs & files & H1 & H2 & H3 & H4).
  exists dateDirs, files.
  rewrite !ReadDir_obs, ReadFile_obs, !Hres. cbn [fs.tree].
  rewrite !resolve_Join2, <- app_assoc by assumption. cbn [app].
  repeat split; try assumption. unfold obsFile. rewrite Efind. reflexivity.
Qed.


End WriteThenList.



(** ** A post that has been created is listed *)

Section CreateThenList.
Context `{Codec}.

Lemma uuid_String_nonempty u : uuid.wf u -> uuid.String u <> "".
Proof.
  intros Hwf Hnil. pose proof (String_length u Hwf) as Hlen.
  rewrite Hnil in Hlen. discriminate.
Qed.

(** The file that [CreatePost] renders decodes to the post, its content
    trimmed. *)
Lemma parseSocialPost_rendered post content :
  uuid.wf (social.ID post) ->
  (forall p, social.ParentPostID post = Some p -> uuid.wf p) ->
  socialCodecAt (postFrontmatter post) (social.Content post +:+ NL) content ->
  timeCodecAt (social.CreatedAt post) ->
  exists createdAt,
    Equal createdAt (social.CreatedAt post) = true /\
    social.parseSocialPost content = Ok (readBack post createdAt).
Proof.
  intros Hwf Hparent (_ & yamlStr & Hfm & Hyaml & Hun) (t' & Htime & Heq).
  exists t'. split; [exact Heq|].
  unfold social.parseSocialPost. rewrite Hfm.
  destruct (String.eqb_spec yamlStr ""); [contradiction|].
  rewrite Hun. unfold postFrontmatter.
  cbn [sfID sfCreatedAt sfParentPostID sfAuthor sfTags sfSynced].
  rewrite Parse_String by assumption. rewrite Htime, TrimSpace_app_nl.
  unfold readBack. cbn [social.ID social.AuthorName social.Content social.Tags
                        social.CreatedAt social.Synced].
  destruct (social.ParentPostID post) as [p|] eqn:Ep.
  - specialize (Hparent p eq_refl).
    destruct (String.eqb_spec (uuid.String p) "") as [Hnil|_].
    + exfalso. exact (uuid_String_nonempty p Hparent Hnil).
    + cbn [negb]. rewrite Parse_String by assumption. reflexivity.
  - reflexivity.
Qed.

Lemma In_decodePostFile f opts dirPath n data post :
  HasSuffix n ".md" = true ->
  fs.ReadFile f (fs.Join2 dirPath n) = Some data ->
  social.parseSocialPost data = Ok post ->
  passesAll opts post = true ->
  In post (decodePostFile f opts dirPath (n, false)).
Proof.
  intros Hmd Hread Hparse Hpass. unfold decodePostFile. cbn [fst snd].
  rewrite Hmd, Hread, Hparse, Hpass. left. reflexivity.
Qed.

Lemma passes_nothing post : passesAll noFilters post = true.
Proof. reflexivity. Qed.

Lemma whole_page opts (l : list social.SocialPost) :
  social.Offset opts <= 0 -> Z.of_nat (length l) <= pageSize opts ->
  social.paginate opts l = l.
Proof.
  intros Hoff Hlen. rewrite paginate_window.
  replace (Z.to_nat (social.Offset opts)) with 0%nat by lia.
  rewrite drop_0, take_ge by lia. reflexivity.
Qed.

End CreateThenList.

(** X8: a post that [CreatePost] has written is found by [ListPosts]: the
  posts that the next listing gathers hold the post with its identifier,
  author, tags, instant, parent and flag, and with its content trimmed of
  the white space around it; every listing whose filters the post passes
  and whose page, from offset 0, is long enough for all posts returns it
  -- for a codec that gives back what it was given. *)
Theorem X8_created_post_is_listed (C : Codec) (s : social.SocialMDStore) (f f' : fs.FS)
    (post : social.SocialPost) (content : string) :
  fs.IsAbs (fs.cwd f) = true ->
  uuid.wf (social.ID post) ->
  (forall p, social.ParentPostID post = Some p -> uuid.wf p) ->
  socialCodecAt (postFrontmatter post) (social.Content post +:+ NL) content ->
  timeCodecAt (social.CreatedAt post) ->
  social.CreatePost s f post = Ok f' ->
  exists all createdAt,
    collectPosts s f' noFilters = Ok all /\
    Equal createdAt (social.CreatedAt post) = true /\
    In (readBack post createdAt) all /\
    (forall opts,
        passesAll opts (readBack post createdAt) = true ->
        social.Offset opts <= 0 ->
        Z.of_nat (length all) <= pageSize opts ->
        exists l, social.ListPosts s f' opts = Ok l /\ In (readBack post createdAt) l).
Proof.
  intros Hcwd Hwf Hparent Hcodec Htime Hcreate.
  rewrite CreatePost_layout in Hcreate. fold (postFrontmatter post) in Hcreate.
  destruct Hcodec as [Hrender Hback]. rewrite Hrender in Hcreate.
  destruct (fs.AtomicWrite f (socialRecordPath s post) content) as [f1|] eqn:Hwrite;
    [|discriminate].
  injection Hcreate as ->.
  destruct (written_file_listed f f' _ _ _ content Hcwd
              (dateDirName_proper _) (recordFileName_proper _ _) Hwrite)
    as (dateDirs & files & Hroot & Hd & Hdir & Hn & Hread).
  destruct (parseSocialPost_rendered post content Hwf Hparent (conj Hrender Hback) Htime)
    as (createdAt & Heq & Hparse).
  assert (Hcol : collected s f' noFilters (readBack post createdAt)).
  { apply collected_iff. exists dateDirs, (dateDirName (social.CreatedAt post), true).
    split; [exact Hroot|]. split; [exact Hd|].
    unfold postsOfDir. cbn [fst snd]. rewrite Hdir. apply in_flat_map.
    exists (recordFileName (social.CreatedAt post) (social.ID post), false).
    split; [exact Hn|].
    apply (In_decodePostFile _ _ _ _ content); try assumption.
    - apply recordFileName_md.
    - reflexivity. }
  destruct Hcol as (all & Hall & Hin). exists all, createdAt.
  split; [exact Hall|]. split; [exact Heq|]. split; [exact Hin|].
  intros opts Hpass Hoff Hlen.
  rewrite ListPosts_collect, collectPosts_filter, Hall.
  eexists. split; [reflexivity|].
  rewrite whole_page.
  - apply (Permutation_in _ (Permutation_sym (social_sort_perm _))).
    apply list_elem_of_In, list_elem_of_filter. split; [exact Hpass|].
    apply list_elem_of_In. exact Hin.
  - exact Hoff.
  - rewrite (Permutation_length (social_sort_perm _)).
    pose proof (length_filter (fun p => passesAll opts p = true) all). lia.
Qed.

Lemma X8_created_post_is_listed_witness :
  exists all createdAt,
    collectPosts (H := refcodec.codec) sample.socialStore sample5.socialDisk noFilters
    = Ok all /\
    In (readBack sample.post1 createdAt) all.
Proof.
  destruct (X8_created_post_is_listed refcodec.codec sample.socialStore sample.emptyDisk
              sample5.socialDisk sample.post1
              (match refcodec.renderSocial (postFrontmatter (H := refcodec.codec) sample.post1)
                                           (social.Content sample.post1 +:+ NL) with
               | Some c => c | None => "" end))
    as (all & createdAt & Hall & _ & Hin & _).
  - reflexivity.
  - reflexivity.
  - intros p Hp. discriminate Hp.
  - split; [vm_compute; reflexivity|]. eexists. split; [vm_compute; reflexivity|].
    split; [discriminate|vm_compute; reflexivity].
  - eexists. split; vm_compute; reflexivity.
  - vm_compute. reflexivity.
  - exists all, createdAt. split; assumption.
Defined.

(** ** Reading what a listing names *)

Section ListThenRead.
Context `{Codec}.

Lemma wfNode_assoc es x c :
  wfNode (fs.Dir es) -> fs.assoc x es = Some c -> wfNode c.
Proof.
  induction es as [|[k old] es IH]; [discriminate|]. intros (Hk & Hold & Hrest).
  cbn [fs.assoc]. destruct (String.eqb k x).
  - intros [= <-]. exact Hold.
  - apply IH. exact Hrest.
Qed.

Lemma wfNode_names es x b :
  wfNode (fs.Dir es) ->
  In (x, b) (map (fun e : string * fs.node => (e.1, fs.IsDir e.2)) es) -> properName x.
Proof.
  induction es as [|[k old] es IH]; [intros _ []|]. intros (Hk & Hold & Hrest).
  cbn [map In fst snd]. intros [[= <- _]|Hin]; [exact Hk|]. apply IH; assumption.
Qed.

Lemma wfNode_find p : forall t n, wfNode t -> fs.find p t = fs.StNode n -> wfNode n.
Proof.
  induction p as [|x p IH]; intros t n Hwf Hfind.
  - injection Hfind as <-. exact Hwf.
  - destruct t as [c|es]; [discriminate|]. cbn [fs.find] in Hfind.
    destruct (fs.assoc x es) as [c|] eqn:Ex; [|discriminate].
    apply (IH c n); [|exact Hfind]. eapply wfNode_assoc; eassumption.
Qed.

Lemma ReadDir_names f path entries x b :
  wfNode (fs.tree f) -> fs.ReadDir f path = Some entries -> In (x, b) entries ->
  properName x.
Proof.
  intros Hwf Hdir Hin. unfold fs.ReadDir, fs.Stat in Hdir.
  destruct (fs.find (fs.resolve f path) (fs.tree f)) as [[c|es]| |] eqn:Efind;
    try discriminate.
  injection Hdir as <-. eapply wfNode_names; [|exact Hin].
  eapply wfNode_find; eassumption.
Qed.

Lemma parseJournalEntry_path p p' data e :
  journal.parseJournalEntry p data = Ok e ->
  journal.FilePath e = p /\ journal.parseJournalEntry p' data = Ok (withPath e p').
Proof.
  unfold journal.parseJournalEntry.
  destruct (ParseFrontmatter data) as [yamlStr body].
  destruct (String.eqb yamlStr ""); [discriminate|].
  destruct (UnmarshalJournal yamlStr) as [fm|]; [|discriminate].
  destruct (uuid.Parse (jfID fm)) as [id|]; [|discriminate].
  destruct (ParseTime (jfDate fm)) as [t|]; [|discriminate].
  intros [= <-]. split; reflexivity.
Qed.

Lemma In_truncateTo {A} limit (l : list A) x : In x (truncateTo limit l) -> In x l.
Proof.
  unfold truncateTo. destruct (0 <? limit); [|tauto].
  intros Hx. apply list_elem_of_In in Hx. apply list_elem_of_In.
  apply (subseteq_take _ _ _ Hx).
Qed.

Lemma In_selected s t root :
  In root (journal.selectRoots s t).*1 ->
  root = journal.userPath s \/ root = journal.projectPath s.
Proof.
  rewrite selectRoots_cases.
  destruct (String.eqb t "both" || String.eqb t "user" || String.eqb t "");
    destruct (String.eqb t "both" || String.eqb t "project" || String.eqb t "");
    cbn; intuition.
Qed.

Lemma listed_entry_from s f now t limit days l e :
  journal.ListEntries s f now t limit days = Ok l -> In e l ->
  exists root, In root (journal.selectRoots s t).*1 /\
               entryFrom (keptBy (cutoffOf now days)) f root e.
Proof.
  rewrite ListEntries_gathered.
  destruct (firstUnlistable f (journal.selectRoots s t).*1); [discriminate|].
  intros [= <-] Hin. apply In_truncateTo in Hin.
  apply (Permutation_in _ (sortByDateDesc_perm _)) in Hin.
  apply In_gathered. exact Hin.
Qed.

End ListThenRead.

(** X9: every entry that [ListEntries] returns can be read by
  [ReadEntry] under the path the listing gives it, and the entry read is
  the entry listed, with its path made absolute -- on a disk whose file
  names are proper names, for roots other than the directory [/]. *)
Theorem X9_listed_entry_is_readable (C : Codec) (s : journal.JournalMDStore) (f : fs.FS)
    (now : Time) (entryType : string) (limit days : Z)
    (l : list journal.JournalEntry) (e : journal.JournalEntry) :
  fs.IsAbs (fs.cwd f) = true ->
  wfNode (fs.tree f) ->
  fs.resolve f (journal.projectPath s) <> [] ->
  fs.resolve f (journal.userPath s) <> [] ->
  journal.ListEntries s f now entryType limit days = Ok l ->
  In e l ->
  journal.ReadEntry s f (journal.FilePath e)
  = Ok (withPath e (fs.Abs f (journal.FilePath e))).
Proof.
  intros Hcwd Hwf Hp Hu Hlist Hin.
  destruct (listed_entry_from s f now entryType limit days l e Hlist Hin)
    as (root & Hroot & dateDirs & d & files & n & data
        & Hdirs & Hd & _ & Hfiles & Hn & _ & Hread & Hparse).
  pose proof (ReadDir_names f _ _ _ _ Hwf Hdirs Hd) as Hdname.
  pose proof (ReadDir_names f _ _ _ _ Hwf Hfiles Hn) as Hnname.
  destruct (parseJournalEntry_path _ (fs.Abs f (fs.Join2 (fs.Join2 root d) n)) _ _ Hparse)
    as [Hpath Hparse'].
  rewrite Hpath.
  assert (Hinside : insideRoot f root (fs.Join2 (fs.Join2 root d) n)).
  { unfold insideRoot. rewrite !resolve_Join2 by assumption.
    exists [d; n]. split; [discriminate|]. rewrite <- app_assoc. reflexivity. }
  destruct (ReadEntry_containment s f (fs.Join2 (fs.Join2 root d) n) Hcwd) as [_ Hok].
  rewrite Hok.
  - unfold readAndDecode.
    replace (fs.ReadFile f (fs.Abs f (fs.Join2 (fs.Join2 root d) n))) with (Some data).
    + exact Hparse'.
    + rewrite <- Hread, !ReadFile_obs, resolve_Abs by exact Hcwd. reflexivity.
  - apply In_selected in Hroot as [-> | ->]; [right|left]; split; assumption.
Qed.

Lemma X9_listed_entry_is_readable_witness :
  exists e,
    journal.ReadEntry (H := refcodec.codec) sample.journalStore sample5.written.1
                      (journal.FilePath e)
    = Ok (withPath e (fs.Abs sample5.written.1 (journal.FilePath e))) /\
    journal.FilePath e = "/home/u/.private-journal/2024-06-01/12-30-45-000000-01234567.md".
Proof.
  eexists. split.
  - eapply (X9_listed_entry_is_readable refcodec.codec sample.journalStore sample5.written.1
              sample.noon "user" 0 0).
    + reflexivity.
    + vm_compute. repeat split; discriminate.
    + vm_compute. discriminate.
    + vm_compute. discriminate.
    + vm_compute. reflexivity.
    + left. reflexivity.
  - reflexivity.
Defined.

(** ** Windows of days and the two roots *)

Section Windows.
Context `{Codec}.




End Windows.



(** X11: what [ListEntries] gives for [both] is what it gives for [user]
  and for [project], put together: when the two listings succeed, so does
  the listing of both, and, without a limit, it is a rearrangement of the
  user entries followed by the project entries. *)
Theorem X11_both_is_user_and_project (C : Codec) (s : journal.JournalMDStore) (f : fs.FS)
    (now : Time) (days : Z) (lu lp : list journal.JournalEntry) :
  journal.ListEntries s f now "user" 0 days = Ok lu ->
  journal.ListEntries s f now "project" 0 days = Ok lp ->
  exists lb, journal.ListEntries s f now "both" 0 days = Ok lb /\ lb ≡ₚ lu ++ lp.
Proof.
  rewrite !ListEntries_gathered. unfold gathered.
  change (journal.selectRoots s "user").*1 with [journal.userPath s].
  change (journal.selectRoots s "project").*1 with [journal.projectPath s].
  change (journal.selectRoots s "both").*1
    with [journal.userPath s; journal.projectPath s].
  cbn [firstUnlistable flat_map].
  destruct (listable f (journal.userPath s)); [|discriminate].
  destruct (listable f (journal.projectPath s)); [|discriminate].
  intros [= <-] [= <-]. eexists. split; [reflexivity|].
  unfold truncateTo. cbn [Z.ltb Z.compare].
  rewrite !app_nil_r, !(sortByDateDesc_perm _). reflexivity.
Qed.

Lemma X11_both_is_user_and_project_witness :
  exists lb, journal.ListEntries (H := refcodec.codec) sample.journalStore sample3.disk
                                 sample.noon "both" 0 0 = Ok lb /\
             length lb = 2%nat.
Proof.
  destruct (X11_both_is_user_and_project refcodec.codec sample.journalStore sample3.disk
              sample.noon 0
              [journal.mkEntry sample.id1 (sample.feelings "from the user root") sample.noon
                 "/home/u/.private-journal/2024-06-01/12-30-45-000000-01234567.md" "user"]
              [journal.mkEntry sample.id2 (sample.feelings "from the project root")
                 sample.noon
                 "/work/.private-journal/2024-06-01/12-30-45-000000-fedcba98.md" "project"])
    as (lb & Hlb & Hperm).
  - vm_compute. reflexivity.
  - vm_compute. reflexivity.
  - exists lb. split; [exact Hlb|]. rewrite (Permutation_length Hperm). reflexivity.
Defined.

(** ** Writing leaves the other files alone *)

Section WriteFrame.

Lemma writeAt_IsDir segs : forall t t' data,
  fs.writeAt segs data t = Some t' -> fs.IsDir t' = fs.IsDir t.
Proof.
  destruct segs as [|s r]; intros t t' data Hw.
  - destruct t; [|discriminate]. injection Hw as <-. reflexivity.
  - destruct t as [c|es]; [discriminate|]. cbn [fs.writeAt] in Hw.
    destruct (fs.assoc s es) as [c|].
    + destruct (fs.writeAt r data c); [|discriminate]. injection Hw as <-. reflexivity.
    + injection Hw as <-. reflexivity.
Qed.

Lemma assoc_insertEntry_ne k s c es :
  k <> s -> fs.assoc k (fs.insertEntry s c es) = fs.assoc k es.
Proof.
  intros Hne. induction es as [|[k0 old] es IH].
  - cbn. destruct (String.eqb_spec s k); [congruence|reflexivity].
  - cbn [fs.insertEntry]. destruct (String.leb s k0).
    + cbn [fs.assoc]. destruct (String.eqb_spec s k); [congruence|reflexivity].
    + cbn [fs.assoc]. rewrite IH. reflexivity.
Qed.

Lemma In_insertEntry (x : string * fs.node) s c es :
  In x es -> In x (fs.insertEntry s c es).
Proof.
  induction es as [|[k0 old] es IH]; [intros []|].
  cbn [fs.insertEntry]. destruct (String.leb s k0).
  - intros Hin. right. exact Hin.
  - intros [<-|Hin]; [left; reflexivity|right; apply IH, Hin].
Qed.

Lemma obsFile_fresh_other segs data : forall q,
  q <> segs -> obsFile q (fs.fresh segs data) = None.
Proof.
  induction segs as [|s r IH]; intros q Hne.
  - destruct q; [congruence|reflexivity].
  - destruct q as [|x qr]; [reflexivity|]. unfold obsFile in *.
    cbn [fs.fresh fs.find fs.assoc]. destruct (String.eqb_spec s x) as [->|Hx].
    + apply IH. congruence.
    + reflexivity.
Qed.

Lemma writeAt_other_file segs : forall t t' data q,
  fs.writeAt segs data t = Some t' -> q <> segs -> obsFile q t' = obsFile q t.
Proof.
  induction segs as [|s r IH]; intros t t' data q Hw Hne.
  - destruct t; [|discriminate]. injection Hw as <-.
    destruct q; [congruence|reflexivity].
  - destruct t as [c0|es]; [discriminate|]. cbn [fs.writeAt] in Hw.
    destruct q as [|x qr].
    + destruct (fs.assoc s es) as [c|].
      * destruct (fs.writeAt r data c); [|discriminate]. injection Hw as <-. reflexivity.
      * injection Hw as <-. reflexivity.
    + unfold obsFile. cbn [fs.find].
      destruct (fs.assoc s es) as [c|] eqn:Ec.
      * destruct (fs.writeAt r data c) as [c'|] eqn:Ew; [|discriminate].
        injection Hw as <-. cbn [fs.find].
        destruct (String.eqb_spec x s) as [->|Hx].
        -- rewrite (assoc_replace_eq s c' es c Ec), Ec.
           apply (IH c c' data qr Ew). congruence.
        -- rewrite assoc_replace_ne by assumption. reflexivity.
      * injection Hw as <-. cbn [fs.find].
        destruct (String.eqb_spec x s) as [->|Hx].
        -- rewrite assoc_insertEntry by assumption. rewrite Ec.
           apply obsFile_fresh_other. congruence.
        -- rewrite assoc_insertEntry_ne by assumption. reflexivity.
Qed.

Lemma writeAt_listing_grows segs : forall t t' data q entries,
  fs.writeAt segs data t = Some t' -> obsDir q t = Some entries ->
  exists entries', obsDir q t' = Some entries' /\ forall x, In x entries -> In x entries'.
Proof.
  induction segs as [|s r IH]; intros t t' data q entries Hw Hdir.
  - destruct t; [|discriminate]. destruct q; discriminate.
  - destruct t as [c0|es]; [destruct q; discriminate|]. cbn [fs.writeAt] in Hw.
    destruct (fs.assoc s es) as [c|] eqn:Ec.
    + destruct (fs.writeAt r data c) as [c'|] eqn:Ew; [|discriminate].
      injection Hw as <-. destruct q as [|x qr].
      * injection Hdir as <-. eexists. split; [reflexivity|].
        unfold obsDir. cbn [fs.find].
        rewrite (listing_replace s c c' es Ec (writeAt_IsDir _ _ _ _ Ew)). tauto.
      * unfold obsDir in *. cbn [fs.find] in *.
        destruct (String.eqb_spec x s) as [->|Hx].
        -- rewrite (assoc_replace_eq s c' es c Ec). rewrite Ec in Hdir.
           apply (IH c c' data qr entries Ew Hdir).
        -- rewrite assoc_replace_ne by assumption. eexists. split; [exact Hdir|tauto].
    + injection Hw as <-. destruct q as [|x qr].
      * injection Hdir as <-. eexists. split; [reflexivity|].
        intros y Hy. apply in_map_iff in Hy as (e & <- & He).
        apply (in_map (fun e : string * fs.node => (e.1, fs.IsDir e.2))).
        apply In_insertEntry, He.
      * unfold obsDir in *. cbn [fs.find] in *.
        destruct (String.eqb_spec x s) as [->|Hx].
        -- rewrite Ec in Hdir. discriminate.
        -- rewrite assoc_insertEntry_ne by assumption. eexists. split; [exact Hdir|tauto].
Qed.

End WriteFrame.

Section ListingFrame.
Context `{Codec}.

Lemma entryFrom_after_write keep f f' path content root e :
  fs.AtomicWrite f path content = Some f' ->
  entryFrom keep f root e ->
  fs.resolve f (journal.FilePath e) <> fs.resolve f path ->
  entryFrom keep f' root e.
Proof.
  intros Hw (dateDirs & d & files & n & data & Hdirs & Hd & Hk & Hfiles & Hn & Hmd
             & Hread & Hparse) Hne.
  unfold fs.AtomicWrite in Hw.
  destruct (fs.writeAt (fs.resolve f path) content (fs.tree f)) as [t'|] eqn:Ew;
    [|discriminate].
  injection Hw as <-.
  destruct (parseJournalEntry_path _ "" _ _ Hparse) as [Hpath _]. rewrite Hpath in Hne.
  rewrite ReadDir_obs in Hdirs, Hfiles. rewrite ReadFile_obs in Hread.
  destruct (writeAt_listing_grows _ _ _ _ _ _ Ew Hdirs) as (dateDirs' & Hdirs' & Hsub1).
  destruct (writeAt_listing_grows _ _ _ _ _ _ Ew Hfiles) as (files' & Hfiles' & Hsub2).
  exists dateDirs', d, files', n, data.
  rewrite !ReadDir_obs, ReadFile_obs.
  change (fs.resolve (fs.mkFS (fs.cwd f) t')) with (fs.resolve f). cbn [fs.tree].
  repeat split; try assumption.
  - apply Hsub1, Hd.
  - apply Hsub2, Hn.
  - rewrite (writeAt_other_file _ _ _ _ _ Ew Hne). exact Hread.
Qed.

End ListingFrame.

(** X12: [WriteEntry] takes no other entry out of a listing.  An entry
  that [ListEntries] returned before the write, and whose file is not the
  file that is written, is returned after the write as well, for every
  type and every window of days, when no limit is set. *)
Theorem X12_write_keeps_entries (C : Codec) (s : journal.JournalMDStore) (f f' : fs.FS)
    (entry entry' : journal.JournalEntry) (now : Time) (entryType : string) (days : Z)
    (l l' : list journal.JournalEntry) (e : journal.JournalEntry) :
  journal.WriteEntry s f entry = Ok (f', entry') ->
  journal.ListEntries s f now entryType 0 days = Ok l ->
  journal.ListEntries s f' now entryType 0 days = Ok l' ->
  In e l ->
  fs.resolve f (journal.FilePath e) <> fs.resolve f (journal.FilePath entry') ->
  In e l'.
Proof.
  intros Hw Hl Hl' Hin Hne.
  destruct (WriteEntry_inv s f entry f' entry' Hw) as (content & _ & Hwrite & Hpath).
  rewrite Hpath in Hne.
  destruct (listed_entry_from s f now entryType 0 days l e Hl Hin) as (root & Hroot & Hfrom).
  rewrite ListEntries_gathered in Hl'.
  destruct (firstUnlistable f' (journal.selectRoots s entryType).*1); [discriminate|].
  injection Hl' as <-. unfold truncateTo. cbn [Z.ltb Z.compare].
  apply (Permutation_in _ (Permutation_sym (sortByDateDesc_perm _))).
  apply In_gathered. exists root. split; [exact Hroot|].
  eapply entryFrom_after_write; eassumption.
Qed.

Lemma X12_write_keeps_entries_witness :
  exists l',
    journal.ListEntries (H := refcodec.codec) sample.journalStore sample3.disk
                        sample.noon "both" 0 0 = Ok l' /\
    In (journal.mkEntry sample.id1 (sample.feelings "from the user root") sample.noon
          "/home/u/.private-journal/2024-06-01/12-30-45-000000-01234567.md" "user") l'.
Proof.
  eexists. split; [vm_compute; reflexivity|].
  eapply (X12_write_keeps_entries refcodec.codec sample.journalStore
            (sample3.diskAfter sample.emptyDisk sample3.userEntry) sample3.disk
            sample3.projectEntry
            (journal.mkEntry sample.id2 (sample.feelings "from the project root") sample.noon
               "/work/.private-journal/2024-06-01/12-30-45-000000-fedcba98.md" "project")
            sample.noon "both" 0).
  - vm_compute. reflexivity.
  - vm_compute. reflexivity.
  - vm_compute. reflexivity.
  - left. reflexivity.
  - vm_compute. discriminate.
Defined.

(** ** Two entries under one name *)

Section Collision.
Context `{Codec}.

Lemma sameSecond_names t u id id' :
  sameSecond t u -> samePrefix id id' ->
  dateDirName t = dateDirName u /\ recordFileName t id = recordFileName u id'.
Proof.
  intros [Hday Hsec] Hid. unfold dateDirName, recordFileName.
  unfold Year, Month, Day, Date, Hour, Minute, Second. unfold samePrefix in Hid.
  rewrite Hday, Hsec, Hid. split; reflexivity.
Qed.

End Collision.

(** X13: the name of an entry's file tells entries apart only by the
  root, the date, the second on the clock and the first eight digits of
  the identifier.  Two entries of one root written in the same second
  with identifiers that share these digits get the same path, whatever
  their instants below the second, and the second [WriteEntry] replaces
  the file of the first: the file then holds the second entry's text. *)
Theorem X13_same_second_same_file (C : Codec) (s : journal.JournalMDStore) (f f1 f2 : fs.FS)
    (e1 e2 e1' e2' : journal.JournalEntry) :
  fs.IsAbs (fs.cwd f) = true ->
  rootOf s e1 = rootOf s e2 ->
  sameSecond (journal.CreatedAt e1) (journal.CreatedAt e2) ->
  samePrefix (journal.ID e1) (journal.ID e2) ->
  journal.WriteEntry s f e1 = Ok (f1, e1') ->
  journal.WriteEntry s f1 e2 = Ok (f2, e2') ->
  journal.FilePath e1' = journal.FilePath e2' /\
  exists content,
    RenderJournal (mkJournalFM (uuid.String (journal.ID e2))
                               (FormatTime (journal.CreatedAt e2)) (journal.Type_ e2))
                  (renderSections (journal.Sections e2)) = Some content /\
    fs.ReadFile f2 (fs.Abs f2 (journal.FilePath e1')) = Some content.
Proof.
  intros Hcwd Hroot Hsec Hid Hw1 Hw2.
  destruct (WriteEntry_inv s f e1 f1 e1' Hw1) as (c1 & _ & Hwrite1 & Hpath1).
  destruct (WriteEntry_inv s f1 e2 f2 e2' Hw2) as (c2 & Hrender2 & Hwrite2 & Hpath2).
  destruct (sameSecond_names _ _ _ _ Hsec Hid) as [Hdir Hname].
  assert (Hsame : journal.FilePath e1' = journal.FilePath e2').
  { rewrite Hpath1, Hpath2, Hroot, Hdir, Hname. reflexivity. }
  split; [exact Hsame|]. exists c2. split; [exact Hrender2|].
  destruct (AtomicWrite_read f _ c1 f1 Hcwd Hwrite1) as [Hcwd1 _].
  assert (Hcwd1' : fs.IsAbs (fs.cwd f1) = true) by (rewrite Hcwd1; exact Hcwd).
  destruct (AtomicWrite_read f1 _ c2 f2 Hcwd1' Hwrite2) as [_ Hread].
  rewrite Hsame, Hpath2. exact Hread.
Qed.

Lemma X13_same_second_same_file_witness :
  exists content,
    fs.ReadFile sample6.afterSecond sample6.path = Some content /\
    refcodec.renderJournal
      (mkJournalFM (uuid.String sample6.id3) (refcodec.formatTime sample6.later) "user")
      (renderSections (sample.feelings "second")) = Some content.
Proof.
  destruct (X13_same_second_same_file refcodec.codec sample.journalStore sample.emptyDisk
              sample6.afterFirst sample6.afterSecond sample6.first sample6.second
              (withPath sample6.first sample6.path) (withPath sample6.second sample6.path))
    as (_ & content & Hrender & Hread).
  - reflexivity.
  - reflexivity.
  - split; vm_compute; reflexivity.
  - vm_compute. reflexivity.
  - vm_compute. reflexivity.
  - vm_compute. reflexivity.
  - exists content. split; [exact Hread|exact Hrender].
Defined.

(** ** The tool [process_thoughts] *)

Section ProcessThoughts.
Context `{Codec}.

Lemma elem_of_unknownOf args k :
  k ∈ unknownOf args <-> is_Some (args !! k) /\ models.IsValidSection k = false.
Proof. unfold unknownOf. rewrite elem_of_filter, elem_of_dom. tauto. Qed.

Lemma lookup_sectionsOf args k v :
  sectionsOf args !! k = Some v <->
  models.IsValidSection k = true /\ args !! k = Some (mcp.JString v) /\ v <> "".
Proof.
  unfold sectionsOf. rewrite lookup_omap_Some. split.
  - intros (x & Hx & Hlook). apply map_lookup_filter_Some in Hlook as [Hlook Hvalid].
    cbn in Hvalid. destruct x as [str|]; [|discriminate]. cbn in Hx.
    destruct (String.eqb_spec str ""); [discriminate|]. injection Hx as <-. auto.
  - intros (Hvalid & Hlook & Hne). exists (mcp.JString v). split.
    + cbn. destruct (String.eqb_spec v ""); [contradiction|reflexivity].
    + apply map_lookup_filter_Some. split; assumption.
Qed.

Lemma collect_spec args :
  map_fold mcp.collectStep (∅, ∅) args = (unknownOf args, sectionsOf args).
Proof.
  apply (map_fold_weak_ind (fun acc m => acc = (unknownOf m, sectionsOf m))).
  - assert (Hu : unknownOf ∅ = ∅).
    { apply set_eq. intros k. rewrite elem_of_unknownOf, lookup_empty.
      split; [|set_solver]. intros [[? ?] _]. discriminate. }
    assert (Hs : sectionsOf ∅ = ∅).
    { apply map_eq. intros k. rewrite lookup_empty.
      destruct (sectionsOf ∅ !! k) as [v|] eqn:E; [|reflexivity].
      apply lookup_sectionsOf in E as (_ & E & _). rewrite lookup_empty in E. discriminate. }
    rewrite Hu, Hs. reflexivity.
  - intros i x m acc Hnone ->. unfold mcp.collectStep. cbn [fst snd].
    destruct (models.IsValidSection i) eqn:Hvalid; cbn [negb].
    + assert (Hunknown : unknownOf (<[i:=x]> m) = unknownOf m).
      { apply set_eq. intros k. rewrite !elem_of_unknownOf.
        destruct (decide (k = i)) as [->|Hne].
        - rewrite Hnone, Hvalid. split; intros [[? ?] ?]; discriminate.
        - rewrite lookup_insert_ne by congruence. reflexivity. }
      rewrite Hunknown.
      assert (Hother : forall k, k <> i -> sectionsOf (<[i:=x]> m) !! k = sectionsOf m !! k).
      { intros k Hne. apply option_eq. intros v. rewrite !lookup_sectionsOf.
        rewrite lookup_insert_ne by congruence. reflexivity. }
      assert (Hold : sectionsOf m !! i = None).
      { destruct (sectionsOf m !! i) as [v|] eqn:E; [|reflexivity].
        apply lookup_sectionsOf in E as (_ & E & _). congruence. }
      destruct x as [str|].
      * destruct (String.eqb_spec str "") as [->|Hstr]; cbn [negb]; f_equal.
        -- apply map_eq. intros k. destruct (decide (k = i)) as [->|Hne].
           ++ rewrite Hold. destruct (sectionsOf (<[i:=mcp.JString ""]> m) !! i) as [v|] eqn:E;
                [|reflexivity].
              apply lookup_sectionsOf in E as (_ & E & Hv).
              rewrite lookup_insert_eq in E. congruence.
           ++ symmetry. apply Hother, Hne.
        -- apply map_eq. intros k. destruct (decide (k = i)) as [->|Hne].
           ++ rewrite lookup_insert_eq. symmetry. apply lookup_sectionsOf.
              rewrite lookup_insert_eq. auto.
           ++ rewrite lookup_insert_ne by congruence. symmetry. apply Hother, Hne.
      * f_equal. apply map_eq. intros k. destruct (decide (k = i)) as [->|Hne].
        -- rewrite Hold. destruct (sectionsOf (<[i:=mcp.JOther]> m) !! i) as [v|] eqn:E;
             [|reflexivity].
           apply lookup_sectionsOf in E as (_ & E & Hv).
           rewrite lookup_insert_eq in E. congruence.
        -- symmetry. apply Hother, Hne.
    + f_equal.
      * apply set_eq. intros k. rewrite elem_of_union, elem_of_singleton, !elem_of_unknownOf.
        destruct (decide (k = i)) as [->|Hne].
        -- rewrite lookup_insert_eq. split; [intros _; split; [eauto|exact Hvalid]|auto].
        -- rewrite lookup_insert_ne by congruence. tauto.
      * apply map_eq. intros k. apply option_eq. intros v. rewrite !lookup_sectionsOf.
        destruct (decide (k = i)) as [->|Hne].
        -- rewrite Hvalid, Hnone. split; intros (? & ? & ?); discriminate.
        -- rewrite lookup_insert_ne by congruence. reflexivity.
Qed.

Lemma split_spec (all : gmap string string) :
  map_fold mcp.splitStep (∅, ∅) all
  = (filter (fun kv => kv.1 = "project_notes") all,
     filter (fun kv => kv.1 <> "project_notes") all).
Proof.
  apply (map_fold_weak_ind
           (fun acc m => acc = (filter (fun kv => kv.1 = "project_notes") m,
                                filter (fun kv => kv.1 <> "project_notes") m))).
  - rewrite !map_filter_empty. reflexivity.
  - intros i x m acc Hnone ->. unfold mcp.splitStep. cbn [fst snd].
    destruct (String.eqb_spec i "project_notes") as [->|Hne].
    + rewrite map_filter_insert_True by reflexivity.
      rewrite (map_filter_insert_False (fun kv => kv.1 <> "project_notes")) by (cbn; tauto).
      rewrite (delete_id m) by exact Hnone. reflexivity.
    + rewrite (map_filter_insert_True (fun kv => kv.1 <> "project_notes")) by exact Hne.
      rewrite (map_filter_insert_False (fun kv => kv.1 = "project_notes")) by exact Hne.
      rewrite (delete_id m) by exact Hnone. reflexivity.
Qed.

End ProcessThoughts.

Section Routing.
Context `{Codec}.

Lemma dom_only (m : gmap string string) k :
  filter (fun kv : string * string => kv.1 = k) m <> ∅ ->
  dom (filter (fun kv : string * string => kv.1 = k) m) = {[k]} /\ is_Some (m !! k).
Proof.
  intros Hne. apply map_choose in Hne as (i & x & Hix).
  apply map_lookup_filter_Some in Hix as [Hix Hi]. cbn in Hi. subst i.
  split; [|eauto]. apply set_eq. intros j. rewrite elem_of_dom, elem_of_singleton.
  split.
  - intros [y Hy]. apply map_lookup_filter_Some in Hy as [_ Hj]. exact Hj.
  - intros ->. exists x. apply map_lookup_filter_Some. split; [exact Hix|reflexivity].
Qed.

Lemma dom_others (m : gmap string string) k :
  dom (filter (fun kv : string * string => kv.1 <> k) m) = dom m ∖ {[k]}.
Proof.
  apply set_eq. intros j.
  rewrite elem_of_difference, !elem_of_dom, elem_of_singleton. split.
  - intros [y Hy]. apply map_lookup_filter_Some in Hy as [Hy Hj]. split; [eauto|exact Hj].
  - intros [[y Hy] Hj]. exists y. apply map_lookup_filter_Some. split; assumption.
Qed.

Lemma NewJournalEntry_path s f sections entryType id now f' entry :
  journal.WriteEntry s f (mcp.NewJournalEntry sections entryType id now) = Ok (f', entry) ->
  journal.FilePath entry
  = fs.Join2 (fs.Join2 (if String.eqb entryType "project"
                        then journal.projectPath s else journal.userPath s)
                       (dateDirName now))
             (recordFileName now id).
Proof. intros Hw. apply WriteEntry_path in Hw. exact Hw. Qed.

End Routing.

(** X14: the tool [process_thoughts] writes nothing and answers with the
  unknown keys as soon as one key of its arguments is no section name; it
  writes nothing and asks for a section when no section name comes with a
  non-empty string.  When it reports entries written, these are at most
  two: the project notes alone, under the project root, and the other
  sections together, under the user root.  What is on the disk afterwards
  does not depend on the remote client. *)
Theorem X14_process_thoughts_routing (C : Codec) (s : journal.JournalMDStore)
    (remote : option mcp.RemoteClient) (f : fs.FS) (args : gmap string mcp.jsonValue)
    (timestamp : Time) (idProject : uuid.UUID) (nowProject : Time)
    (idUser : uuid.UUID) (nowUser : Time) :
  let run r := mcp.handleProcessThoughts s r f args timestamp
                                         idProject nowProject idUser nowUser in
  (unknownOf args <> ∅ -> run remote = (f, mcp.UnknownSections (unknownOf args))) /\
  (unknownOf args = ∅ -> sectionsOf args = ∅ -> run remote = (f, mcp.NoSections)) /\
  (forall f' parts failed,
      run remote = (f', mcp.EntriesWritten parts failed) ->
      unknownOf args = ∅ /\ parts <> [] /\ (length parts <= 2)%nat /\
      Forall (routedPart s (sectionsOf args) idProject nowProject idUser nowUser) parts) /\
  (run remote).1 = (run None).1.
Proof.
  intros run. unfold run, mcp.handleProcessThoughts.
  rewrite collect_spec, split_spec.
  destruct (decide (unknownOf args = ∅)) as [Hu|Hu].
  2:{ rewrite (bool_decide_eq_false_2 _ Hu). cbn [negb].
      repeat split; try congruence; intros; discriminate. }
  rewrite (bool_decide_eq_true_2 _ Hu). cbn [negb].
  destruct (decide (sectionsOf args = ∅)) as [Hs|Hs].
  { rewrite (bool_decide_eq_true_2 _ Hs).
    repeat split; try congruence; intros; discriminate. }
  rewrite (bool_decide_eq_false_2 _ Hs).
  set (proj := filter (fun kv : string * string => kv.1 = "project_notes") (sectionsOf args)).
  set (user := filter (fun kv : string * string => kv.1 <> "project_notes") (sectionsOf args)).
  assert (Hsome : proj <> ∅ \/ user <> ∅).
  { destruct (decide (proj = ∅)) as [Hp|Hp]; [right|left; exact Hp].
    intros Husr. apply Hs. apply map_eq. intros k. rewrite lookup_empty.
    destruct (sectionsOf args !! k) as [v|] eqn:E; [|reflexivity]. exfalso.
    destruct (decide (k = "project_notes")) as [Hk|Hk].
    - assert (proj !! k = Some v) as Hx
          by (apply map_lookup_filter_Some; split; assumption).
      rewrite Hp, lookup_empty in Hx. discriminate.
    - assert (user !! k = Some v) as Hx
          by (apply map_lookup_filter_Some; split; assumption).
      rewrite Husr, lookup_empty in Hx. discriminate. }
  split; [congruence|]. split; [congruence|].
  assert (Hproj : proj <> ∅ ->
                  routedPart s (sectionsOf args) idProject nowProject idUser nowUser
                    ("project", dom proj,
                     fs.Join2 (fs.Join2 (journal.projectPath s) (dateDirName nowProject))
                              (recordFileName nowProject idProject))).
  { intros Hp. destruct (dom_only (sectionsOf args) "project_notes" Hp) as [Hdom Hin].
    left. cbn [fst snd]. fold proj in Hdom. rewrite Hdom. auto. }
  assert (Huser : user <> ∅ ->
                  routedPart s (sectionsOf args) idProject nowProject idUser nowUser
                    ("user", dom user,
                     fs.Join2 (fs.Join2 (journal.userPath s) (dateDirName nowUser))
                              (recordFileName nowUser idUser))).
  { intros Husr. right. cbn [fst snd]. unfold user at 1 2. rewrite dom_others.
    split; [reflexivity|]. split; [reflexivity|]. split; [|reflexivity].
    rewrite <- dom_others. fold user. intros Hd. apply Husr. apply dom_empty_iff_L, Hd. }
  destruct (decide (proj = ∅)) as [Hp|Hp].
  - rewrite (bool_decide_eq_true_2 _ Hp). cbn [negb].
    destruct Hsome as [?|Husr]; [contradiction|].
    rewrite (bool_decide_eq_false_2 _ Husr). cbn [negb].
    destruct (journal.WriteEntry s f (mcp.NewJournalEntry user "user" idUser nowUser))
      as [[f2 entry]|e] eqn:Ew.
    + apply NewJournalEntry_path in Ew. cbn [String.eqb Ascii.eqb Bool.eqb] in Ew.
      split; [|destruct remote; reflexivity].
      intros f' parts failed [= <- <- <-]. split; [exact Hu|]. split; [discriminate|].
      split; [cbn; lia|]. constructor; [|constructor]. rewrite Ew. apply Huser, Husr.
    + split; [intros; discriminate|reflexivity].
  - rewrite (bool_decide_eq_false_2 _ Hp). cbn [negb].
    destruct (journal.WriteEntry s f (mcp.NewJournalEntry proj "project" idProject nowProject))
      as [[f1 entry1]|e] eqn:Ew1; [|split; [intros; discriminate|reflexivity]].
    apply NewJournalEntry_path in Ew1. cbn [String.eqb Ascii.eqb Bool.eqb] in Ew1.
    destruct (decide (user = ∅)) as [Husr|Husr].
    + rewrite (bool_decide_eq_true_2 _ Husr). cbn [negb].
      split; [|destruct remote; reflexivity].
      intros f' parts failed [= <- <- <-]. split; [exact Hu|]. split; [discriminate|].
      split; [cbn; lia|]. constructor; [|constructor]. rewrite Ew1. apply Hproj, Hp.
    + rewrite (bool_decide_eq_false_2 _ Husr). cbn [negb].
      destruct (journal.WriteEntry s f1 (mcp.NewJournalEntry user "user" idUser nowUser))
        as [[f2 entry2]|e] eqn:Ew2; [|split; [intros; discriminate|reflexivity]].
      apply NewJournalEntry_path in Ew2. cbn [String.eqb Ascii.eqb Bool.eqb] in Ew2.
      split; [|destruct remote; reflexivity].
      intros f' parts failed [= <- <- <-]. split; [exact Hu|]. split; [discriminate|].
      split; [cbn; lia|].
      constructor; [rewrite Ew1; apply Hproj, Hp|].
      constructor; [rewrite Ew2; apply Huser, Husr|constructor].
Qed.

Lemma X14_process_thoughts_routing_witness :
  exists f' parts,
    mcp.handleProcessThoughts (H := refcodec.codec) sample.journalStore None sample.emptyDisk
      (<["feelings" := mcp.JString "fine"]> {["project_notes" := mcp.JString "a plan"]})
      sample.noon sample.id2 sample.noon sample.id1 sample.noon
    = (f', mcp.EntriesWritten parts false) /\
    (length parts <= 2)%nat /\
    Forall (routedPart sample.journalStore
              (sectionsOf (<["feelings" := mcp.JString "fine"]>
                             {["project_notes" := mcp.JString "a plan"]}))
              sample.id2 sample.noon sample.id1 sample.noon) parts.
Proof.
  eexists. eexists. split; [vm_compute; reflexivity|].
  destruct (X14_process_thoughts_routing refcodec.codec sample.journalStore None
              sample.emptyDisk
              (<["feelings" := mcp.JString "fine"]> {["project_notes" := mcp.JString "a plan"]})
              sample.noon sample.id2 sample.noon sample.id1 sample.noon)
    as (_ & _ & Hwritten & _).
  edestruct Hwritten as (_ & _ & Hlen & Hall); [vm_compute; reflexivity|].
  split; [exact Hlen|exact Hall].
Defined.

(** ** The tool [search_journal] *)

Section SearchSelection.
Context `{Codec}.
Variable toLower : string -> string.
Variable rangeSections : gmap string string -> list (string * string).

Lemma sectionLoop_iff wanted q pairs :
  search.sectionLoop toLower wanted q pairs = true <->
  exists name content, In (name, content) pairs /\
                       (wanted = [] \/ In name wanted) /\
                       Contains (toLower content) q = true.
Proof.
  induction pairs as [|[n c] rest IH]; cbn [search.sectionLoop].
  - split; [discriminate|]. intros (? & ? & [] & _).
  - assert (Hwanted : (0 <? Z.of_nat (length wanted)) && negb (existsb (String.eqb n) wanted)
                      = false <-> (wanted = [] \/ In n wanted)).
    { destruct wanted as [|w ws]; [cbn; tauto|].
      change (0 <? Z.of_nat (length (w :: ws))) with true. cbn [andb].
      rewrite negb_false_iff, existsb_exists. split.
      - intros (x & Hx & Heq). apply String.eqb_eq in Heq. subst. right. exact Hx.
      - intros [?|Hin]; [discriminate|]. exists n. split; [exact Hin|apply String.eqb_refl]. }
    destruct ((0 <? Z.of_nat (length wanted)) && negb (existsb (String.eqb n) wanted)).
    + rewrite IH. split.
      * intros (name & content & Hin & Hrest). exists name, content. split; [right|]; assumption.
      * intros (name & content & [[= <- <-]|Hin] & Hw & Hc).
        -- apply Hwanted in Hw. discriminate.
        -- exists name, content. auto.
    + destruct (Contains (toLower c) q) eqn:Ec.
      * split; [|reflexivity]. intros _. exists n, c.
        split; [left; reflexivity|]. split; [apply Hwanted; reflexivity|exact Ec].
      * rewrite IH. split.
        -- intros (name & content & Hin & Hrest). exists name, content.
           split; [right|]; assumption.
        -- intros (name & content & [[= <- <-]|Hin] & Hw & Hc); [congruence|].
           exists name, content. auto.
Qed.

Lemma entryLoop_spec limit wanted q entries results :
  search.entryLoop toLower rangeSections limit wanted q entries results
  = (results ++
     take (Z.to_nat limit - length results)
          (List.filter (fun e => search.sectionLoop toLower wanted q
                                   (rangeSections (journal.Sections e))) entries))%list.
Proof.
  revert results. induction entries as [|e rest IH]; intros results.
  - cbn. rewrite take_nil, app_nil_r. reflexivity.
  - cbn [search.entryLoop List.filter].
    destruct (Z.leb_spec limit (Z.of_nat (length results))) as [Hfull|Hroom].
    + replace (Z.to_nat limit - length results)%nat with 0%nat by lia.
      rewrite take_0, app_nil_r. reflexivity.
    + destruct (search.sectionLoop toLower wanted q (rangeSections (journal.Sections e))).
      * rewrite IH, length_app, <- app_assoc. cbn [length app]. f_equal.
        replace (Z.to_nat limit - length results)%nat
          with (S (Z.to_nat limit - (length results + 1)))%nat by lia.
        reflexivity.
      * apply IH.
Qed.

End SearchSelection.

(** X15: the entries that [search_journal] selects do not depend on the
  order in which Go visits the sections of an entry.  An entry is selected
  exactly when one of its sections -- among the wanted ones, when some are
  wanted -- holds the query, letter case apart; the result is made of the
  first [limit] such entries (10 when the limit is not positive), in the
  order of the listing. *)
Theorem X15_search_selection (C : Codec) (toLower : string -> string)
    (rangeSections : gmap string string -> list (string * string))
    (s : journal.JournalMDStore) (f : fs.FS) (now : Time) (args : search.Args) :
  (forall m, rangeSections m ≡ₚ map_to_list m) ->
  let limit := if search.Limit args <=? 0 then 10 else search.Limit args in
  let type := if String.eqb (search.Type_ args) "" then "both" else search.Type_ args in
  let selected e := search.sectionLoop toLower (search.Sections args)
                      (toLower (search.Query args)) (rangeSections (journal.Sections e)) in
  (forall e, selected e = true <->
             answers toLower (search.Sections args) (toLower (search.Query args)) e) /\
  search.handleSearchJournal toLower rangeSections s f now args
  = if String.eqb (search.Query args) "" then search.QueryRequired
    else match journal.ListEntries s f now type 0 0 with
         | Err e => search.ListFailed e
         | Ok entries =>
             match take (Z.to_nat limit) (List.filter selected entries) with
             | [] => search.NoMatches
             | results => search.Matches results
             end
         end.
Proof.
  intros Hrange limit type selected. split.
  - intros e. unfold selected, answers. rewrite sectionLoop_iff.
    split; intros (name & content & Hin & Hrest); exists name, content; (split; [|exact Hrest]).
    + apply elem_of_map_to_list. rewrite <- (Hrange _). apply list_elem_of_In. exact Hin.
    + apply list_elem_of_In. rewrite (Hrange _). apply elem_of_map_to_list. exact Hin.
  - unfold search.handleSearchJournal. fold limit type.
    destruct (String.eqb (search.Query args) ""); [reflexivity|].
    destruct (journal.ListEntries s f now type 0 0) as [entries|e]; [|reflexivity].
    rewrite entryLoop_spec. cbn [app length]. rewrite Nat.sub_0_r. fold selected.
    destruct (take (Z.to_nat limit) (List.filter selected entries)); reflexivity.
Qed.

Lemma X15_search_selection_witness :
  search.handleSearchJournal (H := refcodec.codec) ToLower map_to_list sample.journalStore
                             sample5.written.1 sample.noon (search.mkArgs "FINE" 0 "" [])
  = search.Matches
      [journal.mkEntry sample.id1 (sample.feelings "fine") sample.noon
         "/home/u/.private-journal/2024-06-01/12-30-45-000000-01234567.md" "user"].
Proof.
  destruct (X15_search_selection refcodec.codec ToLower map_to_list sample.journalStore
              sample5.written.1 sample.noon (search.mkArgs "FINE" 0 "" []))
    as [_ Heq]; [reflexivity|].
  rewrite Heq. vm_compute. reflexivity.
Defined.

(** ** The setup wizard *)

Section Wizard.
Variable inputUpdate : string -> tui.KeyMsg -> string.

Lemma eqb_empty_false v : String.eqb v "" = false -> v <> "".
Proof. intros E ->. discriminate. Qed.

Lemma updateInput_kept m k pending :
  pastKey (tui.step m) = false ->
  credentialsKept (m, pending) ->
  credentialsKept ((tui.updateInput inputUpdate m k).1,
                   (pending + tui.started (tui.updateInput inputUpdate m k).2)%nat).
Proof.
  intros Hstep (Hteam & Hkey & Hpending). cbn [fst snd] in *.
  assert (Hzero : pending = 0%nat).
  { destruct pending; [reflexivity|]. rewrite Hpending in Hstep by lia. discriminate. }
  subst pending. destruct m as [st url team key err quit]. cbn [tui.step] in *.
  unfold credentialsKept, tui.updateInput.
  destruct st; try discriminate; destruct k;
    cbn [tui.step tui.apiURLValue tui.teamIDValue tui.apiKeyValue tui.validationErr
         tui.quitting fst snd];
    repeat match goal with
           | |- context [String.eqb ?x ""] => destruct (String.eqb x "") eqn:?
           end;
    cbn [tui.step tui.apiURLValue tui.teamIDValue tui.apiKeyValue tui.validationErr
         tui.quitting fst snd tui.started pastTeam pastKey Nat.add];
    repeat split; intros; try discriminate; try lia;
    try (apply eqb_empty_false; assumption);
    try (apply Hteam; reflexivity).
Qed.

Lemma updateFailed_kept m k pending :
  tui.step m = tui.StepFailed ->
  credentialsKept (m, pending) ->
  credentialsKept ((tui.updateFailed m k).1,
                   (pending + tui.started (tui.updateFailed m k).2)%nat).
Proof.
  intros Hstep (Hteam & Hkey & Hpending). cbn [fst snd] in *.
  destruct m as [st url team key err quit]. cbn [tui.step] in *. subst st.
  specialize (Hteam eq_refl). specialize (Hkey eq_refl).
  unfold tui.updateFailed. cbn [tui.step tui.apiURLValue tui.teamIDValue tui.apiKeyValue
                                tui.validationErr tui.quitting].
  destruct k; cbn [fst snd tui.started]; try (repeat split; intros; assumption || reflexivity).
  destruct (first =? 114); [repeat split; intros; assumption || reflexivity|].
  destruct (first =? 115); [repeat split; intros; assumption || reflexivity|].
  destruct (first =? 113); repeat split; intros; assumption || reflexivity.
Qed.

Lemma runs_kept st st' :
  tui.runs inputUpdate st st' -> credentialsKept st -> credentialsKept st'.
Proof.
  intros Hrun Hinv. destruct Hrun as [m pending msg Hmsg|m pending err].
  - destruct msg as [k|err| |].
    + unfold tui.Update.
      assert (Hquit : credentialsKept
                        (tui.mkModel (tui.step m) (tui.apiURLValue m) (tui.teamIDValue m)
                                     (tui.apiKeyValue m) (tui.validationErr m) true,
                         (pending + 0)%nat)).
      { destruct Hinv as (H1 & H2 & H3). cbn [fst snd] in *.
        repeat split; cbn [fst snd tui.step tui.teamIDValue tui.apiKeyValue];
          intros; auto. apply H3. lia. }
      assert (Hsame : credentialsKept (m, (pending + 0)%nat))
        by (rewrite Nat.add_0_r; exact Hinv).
      destruct k; try exact Hquit;
        destruct (tui.step m) eqn:Est;
        try exact Hsame;
        try (apply updateInput_kept; [rewrite Est; reflexivity|exact Hinv]);
        try (apply updateFailed_kept; [exact Est|exact Hinv]).
    + exfalso. exact (Hmsg err eq_refl).
    + unfold tui.Update. destruct (tui.step m); cbn [fst snd tui.started];
        rewrite Nat.add_0_r; exact Hinv.
    + cbn [tui.Update fst snd tui.started]. rewrite Nat.add_0_r. exact Hinv.
  - destruct Hinv as (H1 & H2 & H3). cbn [fst snd] in *.
    specialize (H3 ltac:(lia)).
    assert (Hpt : pastTeam (tui.step m) = true) by (destruct (tui.step m); auto; discriminate).
    destruct err; cbn [tui.Update fst snd]; repeat split;
      cbn [fst snd tui.step tui.teamIDValue tui.apiKeyValue]; intros; auto.
Qed.

Lemma reaches_kept st st' :
  tui.reaches inputUpdate st st' -> credentialsKept st -> credentialsKept st'.
Proof.
  induction 1 as [st|st st' st'' _ IH Hrun]; intros Hinv; [exact Hinv|].
  eapply runs_kept; [exact Hrun|]. apply IH, Hinv.
Qed.

Lemma Update_quitting m msg :
  tui.quitting m = true -> tui.quitting (tui.Update inputUpdate m msg).1 = true.
Proof.
  intros Hq. destruct m as [st url team key err quit]. cbn [tui.quitting] in Hq. subst quit.
  destruct msg as [k|[e|]| |]; cbn [tui.Update tui.step]; try reflexivity.
  - destruct k; try reflexivity; destruct st; try reflexivity;
      unfold tui.updateInput, tui.updateFailed;
      cbn [tui.step tui.apiURLValue tui.teamIDValue tui.apiKeyValue tui.validationErr
           tui.quitting];
      repeat match goal with
             | |- context [if ?b then _ else _] => destruct b
             end; reflexivity.
  - destruct st; reflexivity.
Qed.

Lemma reaches_quitting st st' :
  tui.reaches inputUpdate st st' -> tui.quitting st.1 = true -> tui.quitting st'.1 = true.
Proof.
  induction 1 as [st|st st' st'' _ IH Hrun]; intros Hq; [exact Hq|].
  specialize (IH Hq). destruct Hrun; cbn [fst] in *; apply Update_quitting, IH.
Qed.

End Wizard.

(** X16: the setup wizard never lets empty credentials be saved.  However
  the keys, ticks and validation results come in, as long as a validation
  result only answers a validation that the wizard has started: when
  [ShouldSave] holds, the team identifier and the API key are not empty.
  Once the user has quit, [ShouldSave] stays false whatever follows. *)
Theorem X16_wizard_saves_credentials (inputUpdate : string -> tui.KeyMsg -> string)
    (apiURL teamID apiKey : string) (m : tui.SetupModel) (pending : nat) :
  tui.reaches inputUpdate (tui.NewSetupModel apiURL teamID apiKey, 0%nat) (m, pending) ->
  (tui.ShouldSave m = true -> tui.teamIDValue m <> "" /\ tui.apiKeyValue m <> "") /\
  (forall m' pending',
      tui.reaches inputUpdate (m, pending) (m', pending') ->
      tui.quitting m = true -> tui.ShouldSave m' = false).
Proof.
  intros Hreach. split.
  - intros Hsave.
    assert (Hinit : credentialsKept (tui.NewSetupModel apiURL teamID apiKey, 0%nat)).
    { repeat split; cbn; intros; discriminate || lia. }
    destruct (reaches_kept inputUpdate _ _ Hreach Hinit) as (Hteam & Hkey & _).
    cbn [fst] in *. unfold tui.ShouldSave in Hsave.
    destruct (tui.step m); try discriminate. split; [apply Hteam|apply Hkey]; reflexivity.
  - intros m' pending' Hreach' Hq.
    pose proof (reaches_quitting inputUpdate _ _ Hreach' Hq) as Hq'. cbn [fst] in Hq'.
    unfold tui.ShouldSave. rewrite Hq'. destruct (tui.step m'); reflexivity.
Qed.

Lemma reaches_trans inputUpdate a b c :
  tui.reaches inputUpdate a b -> tui.reaches inputUpdate b c -> tui.reaches inputUpdate a c.
Proof.
  intros Hab Hbc. induction Hbc as [|b c d _ IH Hrun]; [exact Hab|].
  eapply tui.reaches_step; [apply IH, Hab|exact Hrun].
Qed.

Lemma after_reaches msgs st :
  Forall (fun msg => forall err, msg <> tui.MsgValidationResult err) msgs ->
  tui.reaches sample7.typing st (sample7.after msgs st).
Proof.
  intros Hall. revert st. induction Hall as [|msg msgs Hmsg _ IH]; intros st.
  - apply tui.reaches_refl.
  - unfold sample7.after. cbn [fold_left]. fold (sample7.after msgs).
    eapply reaches_trans; [|apply IH].
    eapply tui.reaches_step; [apply tui.reaches_refl|].
    destruct st as [m pending]. apply tui.runs_message. exact Hmsg.
Qed.

Lemma X16_wizard_saves_credentials_witness :
  tui.ShouldSave sample8.done = true /\
  tui.teamIDValue sample8.done <> "" /\ tui.apiKeyValue sample8.done <> "".
Proof.
  split; [reflexivity|].
  destruct (X16_wizard_saves_credentials sample7.typing "" "" "" sample8.done 0%nat)
    as [Hsave _].
  - eapply tui.reaches_step.
    + apply (after_reaches sample8.keys). repeat constructor; discriminate.
    + change (sample7.after sample8.keys (tui.NewSetupModel "" "" "", 0%nat))
        with (sample8.validating.1, 1%nat).
      apply tui.runs_answer.
  - apply Hsave. reflexivity.
Defined.

(** ** The address of the API *)

Section APIURL.

Lemma rev_slashes k : rev (slashes k) = slashes k.
Proof.
  induction k as [|k IH]; [reflexivity|]. cbn [slashes].
  rewrite srev_app_distr, IH. clear IH.
  induction k as [|k IH]; [reflexivity|]. cbn [slashes].
  rewrite app_assoc_s, IH. reflexivity.
Qed.

Lemma dropLeading_slashes k r : dropLeading "/" (slashes k +:+ r) = dropLeading "/" r.
Proof. induction k as [|k IH]; [reflexivity|]. cbn [slashes]. rewrite app_assoc_s. exact IH. Qed.

Lemma TrimRight_slashes s k : TrimRight (s +:+ slashes k) "/" = TrimRight s "/".
Proof.
  unfold TrimRight. rewrite srev_app_distr, rev_slashes, dropLeading_slashes. reflexivity.
Qed.

Lemma TrimRight_v1 base : TrimRight (base +:+ "/v1") "/" = base +:+ "/v1".
Proof.
  unfold TrimRight. rewrite srev_app_distr.
  change (rev "/v1") with "1v/". rewrite !app_cons_s, app_nil_l_s. cbn [dropLeading inCutset].
  change (Ascii.eqb "1" "/" || false) with false. cbv iota.
  rewrite <- (srev_involutive (base +:+ "/v1")). f_equal.
  rewrite srev_app_distr. reflexivity.
Qed.

Lemma substring_prefix a b : String.substring 0 (String.length a) (a +:+ b) = a.
Proof.
  induction a as [|c a IH]; [destruct b; reflexivity|].
  rewrite app_cons_s. cbn [String.length String.substring]. rewrite IH. reflexivity.
Qed.

Lemma TrimSuffix_app a suf : TrimSuffix (a +:+ suf) suf = a.
Proof.
  unfold TrimSuffix. rewrite HasSuffix_app, length_app_s.
  replace (String.length a + String.length suf - String.length suf)%nat
    with (String.length a) by lia.
  apply substring_prefix.
Qed.

End APIURL.

(** X17: the address of the API may be given with or without [/v1] and
  with any number of slashes at its end: [NewRemoteClient] keeps what
  stands before [/v1], and the requests go to that address followed by
  [/teams/], the team and the resource.  The setup wizard, on Enter,
  stores for a non-empty address exactly what [NewRemoteClient] will make
  of it, and the default address for the empty one. *)
Theorem X17_api_url_normalised (inputUpdate : string -> tui.KeyMsg -> string)
    (base key team : string) (k : nat) :
  remote.apiURL (remote.NewRemoteClient (base +:+ "/v1" +:+ slashes k) key team) = base /\
  (forall resource,
      remote.endpoint (remote.NewRemoteClient (base +:+ "/v1" +:+ slashes k) key team) resource
      = base +:+ "/teams/" +:+ team +:+ resource) /\
  (forall url err quit,
      tui.apiURLValue
        (tui.updateInput inputUpdate (tui.mkModel tui.StepAPIURL url team key err quit)
                         tui.KeyEnter).1
      = if String.eqb url "" then tui.DefaultAPIURL
        else remote.apiURL (remote.NewRemoteClient url key team)).
Proof.
  assert (Hurl : remote.apiURL (remote.NewRemoteClient (base +:+ "/v1" +:+ slashes k) key team)
                 = base).
  { unfold remote.NewRemoteClient. cbn [remote.apiURL].
    rewrite <- app_assoc_s, TrimRight_slashes, TrimRight_v1. apply TrimSuffix_app. }
  split; [exact Hurl|]. split.
  - intros resource. unfold remote.endpoint. rewrite Hurl. reflexivity.
  - intros url err quit. unfold tui.updateInput.
    cbn [tui.step tui.apiURLValue]. destruct (String.eqb url ""); reflexivity.
Qed.

(** ** The search over the sidecars *)

Section SidecarSearch.
Variable Vector : Type.
Variable Score : Type.
Variable CosineSimilarity : Vector -> Vector -> Score.
Variable Unmarshal : string -> option (embeddings.Embedding Vector).

Lemma fold_visit f opts q paths acc :
  fold_left (fun acc path =>
               (acc ++ embeddings.visitSidecar CosineSimilarity Unmarshal f opts q path)%list)
            paths acc
  = (acc ++ flat_map (embeddings.visitSidecar CosineSimilarity Unmarshal f opts q) paths)%list.
Proof.
  revert acc. induction paths as [|p paths IH]; intros acc.
  - cbn. rewrite app_nil_r. reflexivity.
  - cbn [fold_left flat_map]. rewrite IH, <- app_assoc. reflexivity.
Qed.

Lemma WalkFiles_absent f root : fs.Stat f root = fs.StNotExist -> fs.WalkFiles f root = [].
Proof. intros Hst. unfold fs.WalkFiles. rewrite Hst. reflexivity. Qed.

Lemma searchRoots_spec f opts q roots acc :
  embeddings.searchRoots CosineSimilarity Unmarshal f opts q roots acc
  = (acc ++ flat_map
              (fun root =>
                 flat_map (embeddings.visitSidecar CosineSimilarity Unmarshal f opts q)
                          (fs.WalkFiles f root))
              roots)%list.
Proof.
  revert acc. induction roots as [|root roots IH]; intros acc.
  - cbn. rewrite app_nil_r. reflexivity.
  - cbn [embeddings.searchRoots flat_map].
    destruct (fs.Stat f root) eqn:Est; rewrite IH, ?fold_visit, <- ?app_assoc; try reflexivity.
    rewrite (WalkFiles_absent f root Est). reflexivity.
Qed.

Lemma sectionMatch_iff wanted have :
  embeddings.sectionMatch wanted have = true <->
  exists name, In name wanted /\ In name have.
Proof.
  unfold embeddings.sectionMatch. rewrite existsb_exists. split.
  - intros (s & Hs & Hex). apply existsb_exists in Hex as (es & Hes & Heq).
    apply String.eqb_eq in Heq. subst es. exists s. auto.
  - intros (name & Hw & Hh). exists name. split; [exact Hw|].
    apply existsb_exists. exists name. split; [exact Hh|apply String.eqb_refl].
Qed.

Lemma In_visit f opts q path r :
  In r (embeddings.visitSidecar CosineSimilarity Unmarshal f opts q path) <->
  HasSuffix path ".embedding" = true /\
  exists data emb,
    fs.ReadFile f path = Some data /\ Unmarshal data = Some emb /\
    (embeddings.Sections opts = [] \/
     exists name, In name (embeddings.Sections opts)
                  /\ In name (embeddings.embSections emb)) /\
    r = embeddings.mkResult None
          (CosineSimilarity q (embeddings.embVector emb))
          (embeddings.embPath emb).
Proof.
  unfold embeddings.visitSidecar.
  destruct (HasSuffix path ".embedding"); cbn [negb];
    [|split; [intros []|intros [? _]; discriminate]].
  destruct (fs.ReadFile f path) as [data|];
    [|split; [intros []|intros (_ & ? & ? & ? & _); discriminate]].
  destruct (Unmarshal data) as [emb|] eqn:Eun;
    [|split; [intros []|intros (_ & ? & ? & [= <-] & ? & _); congruence]].
  assert (Hfilter : (0 <? Z.of_nat (length (embeddings.Sections opts)))
                    && negb (embeddings.sectionMatch (embeddings.Sections opts)
                                                     (embeddings.embSections emb))
                    = false <->
                    (embeddings.Sections opts = [] \/
                     exists name, In name (embeddings.Sections opts)
                                  /\ In name (embeddings.embSections emb))).
  { rewrite <- sectionMatch_iff.
    destruct (embeddings.Sections opts) as [|w ws]; [cbn; tauto|].
    change (0 <? Z.of_nat (length (w :: ws))) with true. cbn [andb].
    rewrite negb_false_iff. split; [tauto|]. intros [?|?]; [discriminate|assumption]. }
  destruct ((0 <? Z.of_nat (length (embeddings.Sections opts)))
            && negb (embeddings.sectionMatch (embeddings.Sections opts)
                                             (embeddings.embSections emb))).
  - split; [intros []|]. intros (_ & data' & emb' & [= <-] & Hemb & Hf & _).
    assert (emb' = emb) by congruence. subst emb'. apply Hfilter in Hf. discriminate.
  - split.
    + intros [<-|[]]. split; [reflexivity|]. exists data, emb.
      split; [reflexivity|]. split; [exact Eun|]. split; [apply Hfilter|]; reflexivity.
    + intros (_ & data' & emb' & [= <-] & Hemb & _ & ->).
      assert (emb' = emb) by congruence. subst emb'. left. reflexivity.
Qed.

End SidecarSearch.

(** X18: [SearchWithEmbeddings] fails only when the query cannot be
  embedded.  Otherwise its result is the first [limit] (10 when the limit
  is not positive) of the sorted matches, where a match is a file below
  one of the roots whose path ends in [.embedding], that decodes, and
  that shares a section name with the filter when the filter is not
  empty; the score of a match is the similarity of its vector to the
  query's, its path is the path written in the sidecar, and its entry is
  never filled in.  Roots that do not exist and files that do not decode
  are passed over. *)
Theorem X18_search_with_embeddings (Vector Score : Type)
    (CosineSimilarity : Vector -> Vector -> Score) (greater : Score -> Score -> bool)
    (Embed : string -> option Vector)
    (Unmarshal : string -> option (embeddings.Embedding Vector))
    (f : fs.FS) (roots : list string) (query : string) (opts : embeddings.SearchOptions) :
  let search := embeddings.SearchWithEmbeddings CosineSimilarity greater Embed
                                                Unmarshal f roots query opts in
  let limit := if embeddings.Limit opts <=? 0 then 10 else embeddings.Limit opts in
  (Embed query = None -> search = None) /\
  (forall queryVec,
      Embed query = Some queryVec ->
      exists matches,
        (forall r, In r matches <->
                   embeddings.resultFrom CosineSimilarity Unmarshal
                                         f roots opts queryVec r) /\
        search = Some (take (Z.to_nat limit)
                            (merge_sort (embeddings.notGreater greater) matches)) /\
        forall l, search = Some l ->
                  Z.of_nat (length l) <= limit /\
                  Forall (fun r => embeddings.Entry r = None /\ In r matches) l).
Proof.
  intros search limit. unfold search, embeddings.SearchWithEmbeddings. split.
  - intros ->. reflexivity.
  - intros queryVec ->. rewrite searchRoots_spec. cbn [app].
    set (matches := flat_map _ roots). exists matches.
    assert (Hmatches : forall r, In r matches <->
                embeddings.resultFrom CosineSimilarity Unmarshal
                                      f roots opts queryVec r).
    { intros r. unfold matches, embeddings.resultFrom. rewrite in_flat_map. split.
      - intros (root & Hroot & Hr). apply in_flat_map in Hr as (path & Hpath & Hr).
        apply In_visit in Hr as (Hsuf & data & emb & Hread & Hun & Hf & ->).
        exists root, path, data, emb. repeat split; assumption || reflexivity.
      - intros (root & path & data & emb & Hroot & Hpath & Hsuf & Hread & Hun & Hf & ->).
        exists root. split; [exact Hroot|]. apply in_flat_map. exists path.
        split; [exact Hpath|]. apply In_visit. split; [exact Hsuf|].
        exists data, emb. repeat split; assumption || reflexivity. }
    split; [exact Hmatches|].
    set (sorted := merge_sort (embeddings.notGreater greater) matches).
    assert (Heq : firstn (Z.to_nat (if Z.of_nat (length sorted) <? limit
                                    then Z.of_nat (length sorted) else limit)) sorted
                  = take (Z.to_nat limit) sorted).
    { destruct (Z.ltb_spec (Z.of_nat (length sorted)) limit); [|reflexivity].
      rewrite Nat2Z.id, firstn_all, take_ge by lia. reflexivity. }
    fold limit. rewrite Heq. split; [reflexivity|].
    intros l [= <-]. split.
    + rewrite length_take.
      assert (0 < limit)
        by (unfold limit; destruct (Z.leb_spec (embeddings.Limit opts) 0); lia).
      lia.
    + apply Forall_forall. intros r Hr.
      apply (subseteq_take (Z.to_nat limit) sorted) in Hr.
      unfold sorted in Hr. rewrite merge_sort_Permutation in Hr.
      apply list_elem_of_In in Hr. split; [|exact Hr].
      apply Hmatches in Hr as (? & ? & ? & ? & _ & _ & _ & _ & _ & _ & ->). reflexivity.
Qed.


Lemma X18_search_with_embeddings_witness :
  exists l,
    embeddings.SearchWithEmbeddings Z.mul Z.gtb sample9.embed sample9.unmarshal sample9.disk
      ["/home/u/.private-journal"] "user root" (embeddings.mkOptions 0 "both" ["feelings"])
    = Some l /\
    Z.of_nat (length l) <= 10 /\
    Forall (fun r => embeddings.Entry r = None) l.
Proof.
  destruct (X18_search_with_embeddings Z Z Z.mul Z.gtb sample9.embed sample9.unmarshal
              sample9.disk ["/home/u/.private-journal"] "user root"
              (embeddings.mkOptions 0 "both" ["feelings"])) as [_ Hfound].
  destruct (Hfound 9 eq_refl) as (matches & _ & Hsearch & Hbound).
  eexists. split; [exact Hsearch|].
  destruct (Hbound _ Hsearch) as [Hlen Hall]. split; [exact Hlen|].
  apply (Forall_impl _ _ _ Hall). intros r [Hentry _]. exact Hentry.
Defined.

(** ** Sidecars and the listing of entries *)

Section SidecarName.

Lemma Split_app_word sep y x :
  allBytes (fun c => negb (Ascii.eqb c sep)) x = true ->
  Split sep (y +:+ x)
  = (removelast (Split sep y) ++ [List.last (Split sep y) "" +:+ x])%list.
Proof.
  intros Hx. induction y as [|c y IH].
  - rewrite app_nil_l_s. cbn. apply Split_word, Hx.
  - rewrite app_cons_s. cbn [Split]. destruct (Ascii.eqb c sep).
    + rewrite IH. pose proof (Split_nonempty sep y) as Hne.
      destruct (Split sep y) as [|h t]; [congruence|]. reflexivity.
    + rewrite IH. pose proof (Split_nonempty sep y) as Hne.
      destruct (Split sep y) as [|h [|h2 t]]; [congruence|reflexivity|reflexivity].
Qed.

Lemma cleanSegments_suffixed rooted y x :
  allBytes (fun c => negb (Ascii.eqb c fs.slash)) x = true ->
  (3 <= String.length x)%nat ->
  exists pre l, fs.cleanSegments rooted (y +:+ x) = (pre ++ [l +:+ x])%list.
Proof.
  intros Hx Hlen. unfold fs.cleanSegments.
  rewrite (Split_app_word fs.slash y x Hx), fold_left_app. cbn [fold_left].
  set (l := List.last (Split fs.slash y) "").
  set (stack := fold_left (fs.cleanStep rooted) (removelast (Split fs.slash y)) []).
  assert (Hpush : fs.cleanStep rooted stack (l +:+ x) = (l +:+ x) :: stack).
  { unfold fs.cleanStep.
    assert (Hlong : (3 <= String.length (l +:+ x))%nat) by (rewrite length_app_s; lia).
    destruct (String.eqb_spec (l +:+ x) "") as [E|_]; [rewrite E in Hlong; cbn in Hlong; lia|].
    destruct (String.eqb_spec (l +:+ x) ".") as [E|_]; [rewrite E in Hlong; cbn in Hlong; lia|].
    destruct (String.eqb_spec (l +:+ x) "..") as [E|_];
      [rewrite E in Hlong; cbn in Hlong; lia|].
    reflexivity. }
  rewrite Hpush. exists (List.rev stack), l. reflexivity.
Qed.

Lemma resolve_sidecar f p :
  fs.IsAbs (fs.cwd f) = true ->
  exists pre l, fs.resolve f (p +:+ ".embedding") = (pre ++ [l +:+ ".embedding"])%list.
Proof.
  intros Hcwd. destruct (fs.IsAbs (p +:+ ".embedding")) eqn:Eabs.
  - rewrite (resolve_absolute f _ Eabs). apply cleanSegments_suffixed; [reflexivity|cbn; lia].
  - rewrite (resolve_relative f _ Hcwd Eabs), <- !app_assoc_s.
    apply cleanSegments_suffixed; [reflexivity|cbn; lia].
Qed.

Lemma sidecar_not_md l : HasSuffix (l +:+ ".embedding") ".md" = false.
Proof. unfold HasSuffix. rewrite srev_app_distr. reflexivity. Qed.

End SidecarName.

Section TreesStayWellFormed.

Lemma wfNode_fresh segs data : Forall properName segs -> wfNode (fs.fresh segs data).
Proof.
  induction 1 as [|s r Hs _ IH]; [exact I|].
  split; [exact Hs|split; [exact IH|exact I]].
Qed.

Lemma wfNode_replace s c' es :
  wfNode (fs.Dir es) -> wfNode c' -> wfNode (fs.Dir (fs.replace s c' es)).
Proof.
  intros Hes Hc. induction es as [|[k old] es IH]; [exact I|].
  destruct Hes as (Hk & Hold & Hrest). cbn [fs.replace].
  destruct (String.eqb k s).
  - split; [exact Hk|split; [exact Hc|exact Hrest]].
  - split; [exact Hk|split; [exact Hold|exact (IH Hrest)]].
Qed.

Lemma wfNode_insertEntry s c es :
  properName s -> wfNode c -> wfNode (fs.Dir es) -> wfNode (fs.Dir (fs.insertEntry s c es)).
Proof.
  intros Hs Hc Hes. induction es as [|[k old] es IH].
  - split; [exact Hs|split; [exact Hc|exact I]].
  - pose proof Hes as (Hk & Hold & Hrest). cbn [fs.insertEntry].
    destruct (String.leb s k).
    + split; [exact Hs|split; [exact Hc|exact Hes]].
    + split; [exact Hk|split; [exact Hold|exact (IH Hrest)]].
Qed.

Lemma wfNode_writeAt segs : forall t t' data,
  Forall properName segs -> wfNode t -> fs.writeAt segs data t = Some t' -> wfNode t'.
Proof.
  induction segs as [|s r IH]; intros t t' data Hsegs Hwf Hw.
  - destruct t; [|discriminate]. injection Hw as <-. exact I.
  - inversion Hsegs as [|? ? Hs Hr]; subst.
    destruct t as [c0|es]; [discriminate|]. cbn [fs.writeAt] in Hw.
    destruct (fs.assoc s es) as [c|] eqn:Ec.
    + destruct (fs.writeAt r data c) as [c'|] eqn:Ew; [|discriminate].
      injection Hw as <-. apply wfNode_replace; [exact Hwf|].
      apply (IH c c' data Hr); [|exact Ew]. eapply wfNode_assoc; eassumption.
    + injection Hw as <-. apply wfNode_insertEntry; [exact Hs| |exact Hwf].
      apply wfNode_fresh, Hr.
Qed.

End TreesStayWellFormed.

Section SidecarFrame.
Context `{Codec}.

Lemma last_differs (pre pre' : list string) x y :
  x <> y -> (pre ++ [x])%list <> (pre' ++ [y])%list.
Proof.
  intros Hne Heq. apply app_inj_tail in Heq as [_ Heq]. contradiction.
Qed.

Lemma entryFrom_file keep f root e :
  wfNode (fs.tree f) -> fs.IsAbs (fs.cwd f) = true -> entryFrom keep f root e ->
  exists d n,
    HasSuffix n ".md" = true /\
    fs.resolve f (journal.FilePath e) = ((fs.resolve f root ++ [d]) ++ [n])%list.
Proof.
  intros Hwf Hcwd (dateDirs & d & files & n & data & Hdirs & Hd & _ & Hfiles & Hn & Hmd
                   & _ & Hparse).
  exists d, n. split; [exact Hmd|].
  destruct (parseJournalEntry_path _ "" _ _ Hparse) as [-> _].
  assert (Hdp : properName d) by exact (ReadDir_names f _ _ _ _ Hwf Hdirs Hd).
  assert (Hnp : properName n) by exact (ReadDir_names f _ _ _ _ Hwf Hfiles Hn).
  rewrite !resolve_Join2 by assumption. reflexivity.
Qed.

Lemma entryFrom_before_write keep f f' path content root e pre x :
  wfNode (fs.tree f) -> fs.IsAbs (fs.cwd f) = true ->
  fs.AtomicWrite f path content = Some f' ->
  fs.resolve f path = (pre ++ [x])%list -> HasSuffix x ".md" = false ->
  entryFrom keep f' root e -> entryFrom keep f root e.
Proof.
  intros Hwf Hcwd Hw Hpath Hx Hfrom. unfold fs.AtomicWrite in Hw.
  destruct (fs.writeAt (fs.resolve f path) content (fs.tree f)) as [t'|] eqn:Ew;
    [|discriminate].
  injection Hw as <-.
  assert (Hwf' : wfNode t') by (eapply wfNode_writeAt; [apply resolve_proper|exact Hwf|exact Ew]).
  destruct Hfrom as (dateDirs & d & files & n & data & Hdirs & Hd & Hk & Hfiles & Hn & Hmd
                     & Hread & Hparse).
  assert (Hdp : properName d)
    by exact (ReadDir_names (fs.mkFS (fs.cwd f) t') _ _ _ _ Hwf' Hdirs Hd).
  assert (Hnp : properName n)
    by exact (ReadDir_names (fs.mkFS (fs.cwd f) t') _ _ _ _ Hwf' Hfiles Hn).
  rewrite ReadFile_obs in Hread.
  change (fs.resolve (fs.mkFS (fs.cwd f) t')) with (fs.resolve f) in Hread.
  cbn [fs.tree] in Hread.
  rewrite !resolve_Join2 in Hread by assumption.
  rewrite (writeAt_other_file _ _ _ _ _ Ew) in Hread.
  2:{ rewrite Hpath. apply last_differs. intros ->. congruence. }
  assert (Hfind : fs.find (fs.resolve f root ++ [d; n]) (fs.tree f)
                  = fs.StNode (fs.File data)).
  { unfold obsFile in Hread. rewrite <- app_assoc in Hread. cbn [app] in Hread.
    destruct (fs.find (fs.resolve f root ++ [d; n]) (fs.tree f)) as [[c|es]| |];
      try discriminate.
    injection Hread as ->. reflexivity. }
  destruct (find_file_listed _ _ _ _ _ Hfind) as (dateDirs0 & files0 & Hd0 & Hin0 & Hf0 & Hn0).
  exists dateDirs0, d, files0, n, data.
  rewrite !ReadDir_obs, ReadFile_obs, !resolve_Join2 by assumption.
  repeat split; assumption.
Qed.

End SidecarFrame.

(** X19: the sidecar that [WriteEmbedding] writes does not change what
  [ListEntries] returns.  After the sidecar of any path has been written,
  a listing without limit has the same entries as before, for every type
  and every window of days. *)
Theorem X19_sidecar_keeps_listing (C : Codec) (Vector : Type)
    (Embed : string -> option Vector)
    (rangeSections : gmap string string -> list (string * string))
    (Marshal : embeddings.Embedding Vector -> option string)
    (s : journal.JournalMDStore) (f f' : fs.FS) (mdPath : string)
    (sections : gmap string string) (unixNow : Z) (now : Time) (entryType : string)
    (days : Z) (l l' : list journal.JournalEntry) :
  wfNode (fs.tree f) -> fs.IsAbs (fs.cwd f) = true ->
  embeddings.WriteEmbedding Embed rangeSections Marshal f mdPath sections unixNow = inl f' ->
  journal.ListEntries s f now entryType 0 days = Ok l ->
  journal.ListEntries s f' now entryType 0 days = Ok l' ->
  forall e, In e l <-> In e l'.
Proof.
  intros Hwf Hcwd Hw Hl Hl' e. unfold embeddings.WriteEmbedding in Hw.
  destruct (Embed _) as [vector|]; [|discriminate].
  destruct (Marshal _) as [data|]; [|discriminate].
  destruct (fs.AtomicWrite f _ data) as [f1|] eqn:Ew; [|discriminate].
  injection Hw as ->.
  destruct (resolve_sidecar f (TrimSuffix mdPath ".md") Hcwd) as (pre & x & Hpath).
  rewrite ListEntries_gathered in Hl, Hl'.
  destruct (firstUnlistable f (journal.selectRoots s entryType).*1); [discriminate|].
  destruct (firstUnlistable f' (journal.selectRoots s entryType).*1); [discriminate|].
  injection Hl as <-. injection Hl' as <-. unfold truncateTo. cbn [Z.ltb Z.compare].
  split; intros Hin.
  - apply (Permutation_in _ (sortByDateDesc_perm _)) in Hin.
    apply (Permutation_in _ (Permutation_sym (sortByDateDesc_perm _))).
    apply In_gathered in Hin as (root & Hroot & Hfrom). apply In_gathered.
    exists root. split; [exact Hroot|].
    eapply entryFrom_after_write; [exact Ew|exact Hfrom|].
    destruct (entryFrom_file _ _ _ _ Hwf Hcwd Hfrom) as (d & n & Hmd & ->).
    rewrite Hpath. apply last_differs. intros ->.
    rewrite sidecar_not_md in Hmd. discriminate.
  - apply (Permutation_in _ (sortByDateDesc_perm _)) in Hin.
    apply (Permutation_in _ (Permutation_sym (sortByDateDesc_perm _))).
    apply In_gathered in Hin as (root & Hroot & Hfrom). apply In_gathered.
    exists root. split; [exact Hroot|].
    eapply entryFrom_before_write; [exact Hwf|exact Hcwd|exact Ew|exact Hpath| |exact Hfrom].
    apply sidecar_not_md.
Qed.

Lemma X19_sidecar_keeps_listing_witness :
  exists l l',
    journal.ListEntries (H := refcodec.codec) sample.journalStore sample3.disk
                        sample.noon "both" 0 0 = Ok l /\
    journal.ListEntries (H := refcodec.codec) sample.journalStore sample9.disk
                        sample.noon "both" 0 0 = Ok l' /\
    fs.ReadFile sample9.disk
      "/home/u/.private-journal/2024-06-01/12-30-45-000000-01234567.embedding"
    = Some "from the user root" /\
    forall e, In e l <-> In e l'.
Proof.
  eexists. eexists. split; [vm_compute; reflexivity|].
  split; [vm_compute; reflexivity|]. split; [vm_compute; reflexivity|].
  apply (X19_sidecar_keeps_listing refcodec.codec Z sample9.embed sample9.range
           sample9.marshal sample.journalStore sample3.disk sample9.disk sample9.mdPath
           (sample.feelings "from the user root") 1717245045 sample.noon "both" 0).
  - vm_compute. repeat split; discriminate.
  - reflexivity.
  - vm_compute. reflexivity.
  - vm_compute. reflexivity.
  - vm_compute. reflexivity.
Defined.
